(** * Silver-layer transformation engine and churn label builder

    A shallow embedding of [src/preprocessing.py] ([SilverProcessor]) and
    [scripts/build_churn_dataset.py].

    Conventions of the embedding.
    - A data frame is a list of records, one record per row, in row order.
    - A missing value (NaN, NaT, None) is [None]; a column that can hold one
      has an [option] type.
    - Timestamps are integers: nanoseconds since the epoch, as pandas stores
      [datetime64[ns]].
    - Finite float columns are rationals ([Q]): sums, means and quantile
      interpolation are exact here, where pandas rounds to float64.  The
      result of a float division is a [float], which adds the two infinities
      and NaN that IEEE division by zero produces.
    - A Python exception is the [Raise] branch of [result]. *)

From Stdlib Require Import List Bool Arith ZArith QArith Qminmax String.
From Stdlib Require Import Lia ZifyNat Lqa.
From Stdlib Require Import Permutation Sorted Orders Mergesort OrderedTypeEx.
Import ListNotations.

Set Implicit Arguments.

Local Open Scope Z_scope.

(* ------------------------------------------------------------------ *)
(** ** Exceptions *)

Inductive exn : Type :=
| KeyError (what : string)
| ValueError (what : string).

Inductive result (A : Type) : Type :=
| OK (a : A)
| Raise (e : exn).

Arguments OK {A} a.
Arguments Raise {A} e.

Definition bind {A B : Type} (m : result A) (k : A -> result B) : result B :=
  match m with
  | OK a => k a
  | Raise e => Raise e
  end.

Notation "x <- m ;; k" := (bind m (fun x => k))
  (at level 61, m at next level, right associativity).

Fixpoint mapM {A B : Type} (f : A -> result B) (l : list A) : result (list B) :=
  match l with
  | [] => OK []
  | a :: l' => b <- f a ;; bs <- mapM f l' ;; OK (b :: bs)
  end.

(* ------------------------------------------------------------------ *)
(** ** Missing values, keys and floats *)

Definition dropna {A : Type} (l : list (option A)) : list A :=
  flat_map (fun o => match o with Some a => [a] | None => [] end) l.

Definition key_eqb (a b : option string) : bool :=
  match a, b with
  | Some s, Some t => String.eqb s t
  | None, None => true
  | _, _ => false
  end.

(** The result of a float division. *)
Inductive float : Type :=
| Fin (q : Q)
| PosInf
| NegInf
| NaN.

(** pandas [isna]: an infinity is not a missing value. *)
Definition isna (f : float) : bool :=
  match f with NaN => true | _ => false end.

Definition of_option (o : option Q) : float :=
  match o with Some q => Fin q | None => NaN end.

(** IEEE division, as a Series division performs it: it never raises. *)
Definition fdiv (a b : float) : float :=
  match a, b with
  | NaN, _ | _, NaN => NaN
  | Fin x, Fin y =>
      if Qeq_bool y 0 then
        if Qeq_bool x 0 then NaN
        else if Qle_bool 0 x then PosInf else NegInf
      else Fin (x / y)
  | Fin _, (PosInf | NegInf) => Fin 0
  | PosInf, Fin y => if Qle_bool 0 y then PosInf else NegInf
  | NegInf, Fin y => if Qle_bool 0 y then NegInf else PosInf
  | (PosInf | NegInf), (PosInf | NegInf) => NaN
  end.

(** IEEE addition. *)
Definition fadd (a b : float) : float :=
  match a, b with
  | NaN, _ | _, NaN => NaN
  | Fin x, Fin y => Fin (x + y)
  | PosInf, NegInf | NegInf, PosInf => NaN
  | PosInf, _ | _, PosInf => PosInf
  | NegInf, _ | _, NegInf => NegInf
  end.

(** Addition of two finite-or-missing floats: NaN propagates. *)
Definition add_na (a b : option Q) : option Q :=
  match a, b with
  | Some x, Some y => Some (x + y)%Q
  | _, _ => None
  end.

(* ------------------------------------------------------------------ *)
(** ** Reductions of a column (all skip missing values) *)

Definition qsum (l : list Q) : Q := fold_right Qplus 0%Q l.

(** [sum]: 0 for a column with no value. *)
Definition sum_skipna (l : list (option Q)) : Q := qsum (dropna l).

(** [mean]: missing for a column with no value. *)
Definition mean_skipna (l : list (option Q)) : option Q :=
  match dropna l with
  | [] => None
  | v => Some (qsum v / inject_Z (Z.of_nat (List.length v)))%Q
  end.

(** [mean] of a column of quotients. *)
Definition fmean_skipna (l : list float) : float :=
  match filter (fun f => negb (isna f)) l with
  | [] => NaN
  | v => fdiv (fold_right fadd (Fin 0) v)
              (Fin (inject_Z (Z.of_nat (List.length v))))
  end.

(** [count]: the number of values that are not missing. *)
Definition count_notna {A : Type} (l : list (option A)) : Z :=
  Z.of_nat (List.length (dropna l)).

Definition zmax_list (l : list Z) : option Z :=
  match l with
  | [] => None
  | x :: l' => Some (fold_left Z.max l' x)
  end.

Definition zmin_list (l : list Z) : option Z :=
  match l with
  | [] => None
  | x :: l' => Some (fold_left Z.min l' x)
  end.

(** [max] and [min] of a timestamp column: NaT when no value is present. *)
Definition max_skipna (l : list (option Z)) : option Z := zmax_list (dropna l).
Definition min_skipna (l : list (option Z)) : option Z := zmin_list (dropna l).

(** [nunique]: the number of distinct values that are not missing. *)
Definition nunique (l : list (option string)) : Z :=
  Z.of_nat (List.length (nodup string_dec (dropna l))).

(* ------------------------------------------------------------------ *)
(** ** Sorting *)

(** Python compares strings by code point; [String.leb] compares them byte
    by byte, which is the same order on UTF-8 text. *)
Module StringOrder <: TotalLeBool.
Definition t := string.
Definition leb := String.leb.
Definition leb_total := String.leb_total.
End StringOrder.

Module StringSort := Sort StringOrder.

Module QOrder <: TotalLeBool.
Definition t := Q.
Definition leb := Qle_bool.
Lemma leb_total : forall a b, leb a b = true \/ leb b a = true.
Proof.
  intros a b. unfold leb.
  destruct (Qlt_le_dec a b) as [H | H].
  - left. apply Qle_bool_iff. apply Qlt_le_weak. exact H.
  - right. apply Qle_bool_iff. exact H.
Qed.
End QOrder.

Module QSort := Sort QOrder.

(* ------------------------------------------------------------------ *)
(** ** groupby and merge *)

Section Frames.
Variables Row Right Out : Type.

(** The group keys of [df.groupby(key)]: the distinct keys that are not
    missing, in ascending order ([sort=True], [dropna=True]). *)
Definition group_keys (key : Row -> option string) (df : list Row) : list string :=
  StringSort.sort (nodup string_dec (dropna (map key df))).

(** The rows of one group, in the order of the frame. *)
Definition group_rows (key : Row -> option string) (df : list Row) (k : string)
  : list Row :=
  filter (fun r => key_eqb (key r) (Some k)) df.

Definition groupby (key : Row -> option string) (df : list Row)
  : list (string * list Row) :=
  map (fun k => (k, group_rows key df k)) (group_keys key df).

(** [left.merge(right, on=key, how="left")]: the rows of [left] in order,
    each once per matching row of [right], or once with the columns of
    [right] missing.  Missing keys match each other, as in pandas. *)
Definition merge_left (kl : Row -> option string) (kr : Right -> option string)
    (combine : Row -> option Right -> Out)
    (left : list Row) (right : list Right) : list Out :=
  flat_map (fun a =>
    match filter (fun b => key_eqb (kl a) (kr b)) right with
    | [] => [combine a None]
    | ms => map (fun b => combine a (Some b)) ms
    end) left.

(** [left.merge(right, on=key)]: the inner join, in the order of [left]. *)
Definition merge_inner (kl : Row -> option string) (kr : Right -> option string)
    (combine : Row -> Right -> Out)
    (left : list Row) (right : list Right) : list Out :=
  flat_map (fun a =>
    map (combine a) (filter (fun b => key_eqb (kl a) (kr b)) right)) left.
End Frames.

(* ------------------------------------------------------------------ *)
(** ** Series.mode *)

Definition count_str (s : string) (l : list string) : nat :=
  List.length (filter (String.eqb s) l).

Definition max_count (l : list string) : nat :=
  fold_right Nat.max 0%nat (map (fun s => count_str s l) l).

(** [x.mode()]: the values that occur most often among those that are not
    missing, in ascending order. *)
Definition mode (x : list (option string)) : list string :=
  let vals := dropna x in
  StringSort.sort
    (filter (fun s => Nat.eqb (count_str s vals) (max_count vals))
            (nodup string_dec vals)).

(** [x.mode()[0]]: a [KeyError] when the mode is empty. *)
Definition mode_first (x : list (option string)) : result string :=
  match mode x with
  | s :: _ => OK s
  | [] => Raise (KeyError "0")
  end.

(* ------------------------------------------------------------------ *)
(** ** qcut, cut and rank *)

(** [Series.quantile(k / parts)] with linear interpolation, on the sorted
    values [s]: the value at the virtual index [(n - 1) * k / parts]. *)
Definition quantile (s : list Q) (k parts : nat) : Q :=
  let n := List.length s in
  let pos := ((n - 1) * k)%nat in
  let lo := (pos / parts)%nat in
  let r := (pos mod parts)%nat in
  let a := nth lo s 0%Q in
  let b := nth (Nat.min (lo + 1) (n - 1)) s 0%Q in
  (a + (inject_Z (Z.of_nat r) / inject_Z (Z.of_nat parts)) * (b - a))%Q.

(** The bin edges of [qcut(x, parts)]: the quantiles 0, 1/parts, ..., 1. *)
Definition quantile_edges (vals : list Q) (parts : nat) : list Q :=
  let s := QSort.sort vals in
  map (fun k => quantile s k parts) (seq 0 (S parts)).

(** No two edges are equal: [len(unique(bins)) = len(bins)]. *)
Fixpoint all_distinct (l : list Q) : bool :=
  match l with
  | [] => true
  | x :: l' => negb (existsb (Qeq_bool x) l') && all_distinct l'
  end.

(** [bins.searchsorted(v, side="left")] on ascending edges: the number of
    edges strictly below [v]. *)
Definition searchsorted_left (bins : list Q) (v : Q) : nat :=
  List.length (filter (fun b => negb (Qle_bool v b)) bins).

Definition bin_index (include_lowest : bool) (bins : list Q) (v : Q) : nat :=
  if include_lowest && Qeq_bool v (hd 0%Q bins) then 1%nat
  else searchsorted_left bins v.

(** [_bins_to_cuts]: bins are right-closed; a value below the first edge,
    above the last or missing gets no label. *)
Definition bins_to_cuts {L : Type} (include_lowest : bool) (bins : list Q)
    (labels : list L) (x : option Q) : option L :=
  match x with
  | None => None
  | Some v =>
      let ids := bin_index include_lowest bins v in
      if Nat.eqb ids 0 || Nat.eqb ids (List.length bins) then None
      else nth_error labels (ids - 1)
  end.

Definition bin_edges_error : exn := ValueError "Bin edges must be unique".

(** [pd.qcut(x, parts, labels=labels)]. *)
Definition qcut {L : Type} (x : list (option Q)) (parts : nat) (labels : list L)
  : result (list (option L)) :=
  match dropna x with
  | [] => Raise bin_edges_error
  | vals =>
      let bins := quantile_edges vals parts in
      if all_distinct bins || Nat.eqb (List.length bins) 2
      then OK (map (bins_to_cuts true bins labels) x)
      else Raise bin_edges_error
  end.

(** [pd.cut(x, bins=bins, labels=labels)] with explicit edges. *)
Definition cut {L : Type} (x : list (option Q)) (bins : list Q) (labels : list L)
  : list (option L) :=
  map (bins_to_cuts false bins labels) x.

(** [Series.rank(method="first")] of a column without missing values: the
    number of smaller values, plus the number of equal values up to and
    including the row itself. *)
Definition rank_first (x : list Z) : list Z :=
  map (fun i =>
         let v := nth i x 0 in
         Z.of_nat (List.length (filter (fun w => w <? v) x)
                   + List.length (filter (fun w => w =? v) (firstn (S i) x))))
      (seq 0 (List.length x)).

(** [astype(int)] of a categorical code. *)
Definition astype_int (c : option Z) : result Z :=
  match c with
  | Some z => OK z
  | None => Raise (ValueError "Cannot convert float NaN to integer")
  end.

(* ------------------------------------------------------------------ *)
(** ** Time *)

Definition ns_per_hour : Z := 3600 * 1000000000.
Definition ns_per_day : Z := 24 * ns_per_hour.

(** [Timedelta.days]: whole days, rounded towards minus infinity. *)
Definition timedelta_days (delta : Z) : Z := delta / ns_per_day.

(** Year, month and day of a day count since 1970-01-01 (proleptic
    Gregorian calendar). *)
Definition civil_from_days (d : Z) : Z * Z * Z :=
  let z := d + 719468 in
  let era := z / 146097 in
  let doe := z - era * 146097 in
  let yoe := (doe - doe / 1460 + doe / 36524 - doe / 146096) / 365 in
  let doy := doe - (365 * yoe + yoe / 4 - yoe / 100) in
  let mp := (5 * doy + 2) / 153 in
  let dd := doy - (153 * mp + 2) / 5 + 1 in
  let m := if mp <? 10 then mp + 3 else mp - 9 in
  let y := yoe + era * 400 + (if m <=? 2 then 1 else 0) in
  (y, m, dd).

Definition dt_year (t : Z) : Z := fst (fst (civil_from_days (t / ns_per_day))).
Definition dt_month (t : Z) : Z := snd (fst (civil_from_days (t / ns_per_day))).
Definition dt_day (t : Z) : Z := snd (civil_from_days (t / ns_per_day)).
(** Monday is 0 and Sunday is 6; 1970-01-01 was a Thursday. *)
Definition dt_dayofweek (t : Z) : Z := (t / ns_per_day + 3) mod 7.
Definition dt_hour (t : Z) : Z := (t mod ns_per_day) / ns_per_hour.
Definition dt_quarter (t : Z) : Z := (dt_month t - 1) / 3 + 1.

(* ------------------------------------------------------------------ *)
(** ** Bronze tables *)

Record Order : Type := {
  order_id : option string;
  customer_id : option string;
  order_status : option string;
  (** the two timestamps as [pd.to_datetime] returns them *)
  order_purchase_timestamp : option Z;
  order_delivered_customer_date : option Z
}.

Record Customer : Type := {
  c_customer_id : option string;
  customer_unique_id : option string;
  (** the demographic columns, passed through *)
  customer_attributes : list (option string)
}.

Record OrderItem : Type := {
  i_order_id : option string;
  order_item_id : option Z;
  price : option Q;
  freight_value : option Q
}.

Record Payment : Type := {
  p_order_id : option string;
  p_payment_value : option Q;
  p_payment_type : option string
}.

Record Review : Type := {
  r_order_id : option string;
  r_review_score : option Q
}.

(** The state [load_bronze] leaves in the processor ([products] is loaded
    and never read). *)
Record Bronze : Type := {
  orders : list Order;
  customers : list Customer;
  order_items : list OrderItem;
  payments : list Payment;
  reviews : list Review
}.

(* ------------------------------------------------------------------ *)
(** ** build_order_level *)

Record ItemsAgg : Type := {
  ia_order_id : string;
  ia_items_count : Z;
  ia_total_price : Q;
  ia_total_freight : Q;
  ia_avg_item_price : option Q
}.

Record PaymentsAgg : Type := {
  pa_order_id : string;
  pa_payment_value : Q;
  pa_payment_type : string
}.

Record ReviewsAgg : Type := {
  ra_order_id : string;
  ra_review_score : option Q
}.

(** A row of the order-level table: the order and, for each left merge, the
    matching row of the right table when there is one. *)
Record FactRow : Type := {
  fact_order : Order;
  fact_customer : option Customer;
  fact_items : option ItemsAgg;
  fact_payments : option PaymentsAgg;
  fact_reviews : option ReviewsAgg
}.

Definition opt_bind {A B : Type} (o : option A) (f : A -> option B) : option B :=
  match o with Some a => f a | None => None end.

(** The columns of the order-level table. *)
Definition col_order_id (r : FactRow) : option string := order_id (fact_order r).
Definition col_order_status (r : FactRow) : option string :=
  order_status (fact_order r).
Definition col_purchase (r : FactRow) : option Z :=
  order_purchase_timestamp (fact_order r).
Definition col_delivered (r : FactRow) : option Z :=
  order_delivered_customer_date (fact_order r).
Definition col_customer_unique_id (r : FactRow) : option string :=
  opt_bind (fact_customer r) customer_unique_id.
Definition col_items_count (r : FactRow) : option Q :=
  option_map (fun a => inject_Z (ia_items_count a)) (fact_items r).
Definition col_total_price (r : FactRow) : option Q :=
  option_map ia_total_price (fact_items r).
Definition col_total_freight (r : FactRow) : option Q :=
  option_map ia_total_freight (fact_items r).
Definition col_avg_item_price (r : FactRow) : option Q :=
  opt_bind (fact_items r) ia_avg_item_price.
Definition col_payment_value (r : FactRow) : option Q :=
  option_map pa_payment_value (fact_payments r).
Definition col_payment_type (r : FactRow) : option string :=
  option_map pa_payment_type (fact_payments r).
Definition col_review_score (r : FactRow) : option Q :=
  opt_bind (fact_reviews r) ra_review_score.

Definition is_delivered (o : Order) : bool :=
  key_eqb (order_status o) (Some "delivered"%string).

Definition items_agg (items : list OrderItem) : list ItemsAgg :=
  map (fun '(k, g) =>
         {| ia_order_id := k;
            ia_items_count := count_notna (map order_item_id g);
            ia_total_price := sum_skipna (map price g);
            ia_total_freight := sum_skipna (map freight_value g);
            ia_avg_item_price := mean_skipna (map price g) |})
      (groupby i_order_id items).

Definition payments_agg (pays : list Payment) : result (list PaymentsAgg) :=
  mapM (fun '(k, g) =>
          ty <- mode_first (map p_payment_type g) ;;
          OK {| pa_order_id := k;
                pa_payment_value := sum_skipna (map p_payment_value g);
                pa_payment_type := ty |})
       (groupby p_order_id pays).

Definition reviews_agg (revs : list Review) : list ReviewsAgg :=
  map (fun '(k, g) =>
         {| ra_order_id := k;
            ra_review_score := mean_skipna (map r_review_score g) |})
      (groupby r_order_id revs).

Definition build_order_level (b : Bronze) : result (list FactRow) :=
  let delivered := filter is_delivered (orders b) in
  let df1 :=
    merge_left customer_id c_customer_id
      (fun o c => {| fact_order := o; fact_customer := c; fact_items := None;
                     fact_payments := None; fact_reviews := None |})
      delivered (customers b) in
  let df2 :=
    merge_left col_order_id (fun a => Some (ia_order_id a))
      (fun r a => {| fact_order := fact_order r; fact_customer := fact_customer r;
                     fact_items := a; fact_payments := None;
                     fact_reviews := None |})
      df1 (items_agg (order_items b)) in
  pagg <- payments_agg (payments b) ;;
  let df3 :=
    merge_left col_order_id (fun a => Some (pa_order_id a))
      (fun r a => {| fact_order := fact_order r; fact_customer := fact_customer r;
                     fact_items := fact_items r; fact_payments := a;
                     fact_reviews := None |})
      df2 pagg in
  OK (merge_left col_order_id (fun a => Some (ra_order_id a))
        (fun r a => {| fact_order := fact_order r; fact_customer := fact_customer r;
                       fact_items := fact_items r;
                       fact_payments := fact_payments r; fact_reviews := a |})
        df3 (reviews_agg (reviews b))).

(* ------------------------------------------------------------------ *)
(** ** add_features *)

Record SilverRow : Type := {
  fact : FactRow;
  year : option Z;
  month : option Z;
  day : option Z;
  day_of_week : option Z;
  hour : option Z;
  quarter : option Z;
  is_weekend : Z;
  delivery_days : option Z;
  order_value : option Q;
  freight_ratio : float;
  order_value_category : option string;
  review_category : option string
}.

(** [df[a] - df[b]] on two timestamp columns, then [.dt.days]. *)
Definition days_between (a b : option Z) : option Z :=
  match a, b with
  | Some x, Some y => Some (timedelta_days (x - y))
  | _, _ => None
  end.

Definition order_value_of (r : FactRow) : option Q :=
  add_na (col_total_price r) (col_total_freight r).

Definition freight_ratio_of (r : FactRow) : float :=
  fdiv (of_option (col_total_freight r)) (of_option (order_value_of r)).

Definition isin_weekend (d : option Z) : Z :=
  match d with
  | Some x => if (x =? 5) || (x =? 6) then 1 else 0
  | None => 0
  end.

Definition add_features (df : list FactRow) : result (list SilverRow) :=
  cats <- qcut (map order_value_of df) 4
            ["Low"; "Medium"; "High"; "Premium"]%string ;;
  let revs := cut (map col_review_score df) [0; 2; 3; 4; 5]%Q
                ["Poor"; "Fair"; "Good"; "Excellent"]%string in
  OK (map (fun '(r, (cat, rev)) =>
             let ts := col_purchase r in
             {| fact := r;
                year := option_map dt_year ts;
                month := option_map dt_month ts;
                day := option_map dt_day ts;
                day_of_week := option_map dt_dayofweek ts;
                hour := option_map dt_hour ts;
                quarter := option_map dt_quarter ts;
                is_weekend := isin_weekend (option_map dt_dayofweek ts);
                delivery_days := days_between (col_delivered r) ts;
                order_value := order_value_of r;
                freight_ratio := freight_ratio_of r;
                order_value_category := cat;
                review_category := rev |})
          (combine df (combine cats revs))).

(** The columns of the silver orders table that the later stages read. *)
Definition s_customer_unique_id (r : SilverRow) : option string :=
  col_customer_unique_id (fact r).
Definition s_order_id (r : SilverRow) : option string := col_order_id (fact r).
Definition s_purchase (r : SilverRow) : option Z := col_purchase (fact r).

(* ------------------------------------------------------------------ *)
(** ** build_rfm *)

(** The grouped frame before scoring. *)
Record RFMAgg : Type := {
  agg_customer_unique_id : string;
  agg_recency : option Z;
  agg_frequency : Z;
  agg_monetary : Q
}.

Record RFM : Type := {
  rfm_customer_unique_id : string;
  recency : option Z;
  frequency : Z;
  monetary : Q;
  R : Z;
  F : Z;
  M : Z;
  RFM_SCORE : Z
}.

Definition snapshot_date (df : list SilverRow) : option Z :=
  option_map (fun t => t + 1 * ns_per_day) (max_skipna (map s_purchase df)).

(** [lambda x: (snapshot_date - x.max()).days] *)
Definition recency_of (snapshot : option Z) (g : list SilverRow) : option Z :=
  days_between snapshot (max_skipna (map s_purchase g)).

Definition rfm_agg (df : list SilverRow) : list RFMAgg :=
  map (fun '(k, g) =>
         {| agg_customer_unique_id := k;
            agg_recency := recency_of (snapshot_date df) g;
            agg_frequency := nunique (map s_order_id g);
            agg_monetary := sum_skipna (map order_value g) |})
      (groupby s_customer_unique_id df).

Definition R_labels : list Z := [5; 4; 3; 2; 1].
Definition F_labels : list Z := [1; 2; 3; 4; 5].
Definition M_labels : list Z := [1; 2; 3; 4; 5].

(** [pd.qcut(rfm["recency"], 5, labels=[5, 4, 3, 2, 1])] *)
Definition R_column (recency_col : list (option Z)) : result (list (option Z)) :=
  qcut (map (option_map inject_Z) recency_col) 5 R_labels.

(** [pd.qcut(rfm["frequency"].rank(method="first"), 5, labels=[1, 2, 3, 4, 5])] *)
Definition F_column (frequency_col : list Z) : result (list (option Z)) :=
  qcut (map (fun z => Some (inject_Z z)) (rank_first frequency_col)) 5 F_labels.

(** [pd.qcut(rfm["monetary"], 5, labels=[1, 2, 3, 4, 5])] *)
Definition M_column (monetary_col : list Q) : result (list (option Z)) :=
  qcut (map (@Some Q) monetary_col) 5 M_labels.

Definition score_row (x : RFMAgg * (option Z * (option Z * option Z)))
  : result RFM :=
  let '(a, (r, (f, m))) := x in
  ri <- astype_int r ;;
  fi <- astype_int f ;;
  mi <- astype_int m ;;
  OK {| rfm_customer_unique_id := agg_customer_unique_id a;
        recency := agg_recency a;
        frequency := agg_frequency a;
        monetary := agg_monetary a;
        R := ri; F := fi; M := mi;
        RFM_SCORE := ri + fi + mi |}.

Definition build_rfm (df : list SilverRow) : result (list RFM) :=
  let rfm := rfm_agg df in
  rs <- R_column (map agg_recency rfm) ;;
  fs <- F_column (map agg_frequency rfm) ;;
  ms <- M_column (map agg_monetary rfm) ;;
  mapM score_row (combine rfm (combine rs (combine fs ms))).

(* ------------------------------------------------------------------ *)
(** ** build_customer_summary *)

Record CustomerSummary : Type := {
  cs_customer_unique_id : string;
  total_orders : Z;
  total_spend : Q;
  avg_order_value : option Q;
  first_order : option Z;
  last_order : option Z;
  days_active : option Z;
  orders_per_month : float
}.

(** [s.replace(0, 1)] on a float column. *)
Definition replace_0_1 (x : option Q) : option Q :=
  match x with
  | Some q => if Qeq_bool q 0 then Some 1%Q else Some q
  | None => None
  end.

(** [(days_active / 30).replace(0, 1)] *)
Definition month_denominator (days : option Z) : option Q :=
  replace_0_1 (option_map (fun d => inject_Z d / 30)%Q days).

Definition orders_per_month_of (orders_n : Z) (days : option Z) : float :=
  fdiv (Fin (inject_Z orders_n)) (of_option (month_denominator days)).

Definition customer_summary_row (k : string) (g : list SilverRow)
  : CustomerSummary :=
  let total := nunique (map s_order_id g) in
  let first := min_skipna (map s_purchase g) in
  let last := max_skipna (map s_purchase g) in
  let active := days_between last first in
  {| cs_customer_unique_id := k;
     total_orders := total;
     total_spend := sum_skipna (map order_value g);
     avg_order_value := mean_skipna (map order_value g);
     first_order := first;
     last_order := last;
     days_active := active;
     orders_per_month := orders_per_month_of total active |}.

Definition build_customer_summary (df : list SilverRow) : list CustomerSummary :=
  map (fun '(k, g) => customer_summary_row k g) (groupby s_customer_unique_id df).

(* ------------------------------------------------------------------ *)
(** ** run *)

Record Silver : Type := {
  orders_silver : list SilverRow;
  rfm_table : list RFM;
  customers_silver : list CustomerSummary
}.

Definition run (b : Bronze) : result Silver :=
  fact_rows <- build_order_level b ;;
  silver_rows <- add_features fact_rows ;;
  rfm <- build_rfm silver_rows ;;
  let summary := build_customer_summary silver_rows in
  OK {| orders_silver := silver_rows;
        rfm_table := rfm;
        customers_silver := summary |}.

(* ------------------------------------------------------------------ *)
(** ** scripts/build_churn_dataset.py *)

Record LastOrder : Type := {
  lo_customer_unique_id : string;
  lo_order_purchase_timestamp : option Z;
  days_since_last_order : option Z;
  churn : Z
}.

(** [(days_since_last_order > 90).astype(int)]: a comparison with a missing
    value is false. *)
Definition churn_of (days : option Z) : Z :=
  match days with
  | Some d => if 90 <? d then 1 else 0
  | None => 0
  end.

Definition dataset_end (silver_orders : list SilverRow) : option Z :=
  max_skipna (map s_purchase silver_orders).

Definition last_order_table (silver_orders : list SilverRow) : list LastOrder :=
  map (fun '(k, g) =>
         let ts := max_skipna (map s_purchase g) in
         let days := days_between (dataset_end silver_orders) ts in
         {| lo_customer_unique_id := k;
            lo_order_purchase_timestamp := ts;
            days_since_last_order := days;
            churn := churn_of days |})
      (groupby s_customer_unique_id silver_orders).

(** The customer-level aggregates after [fillna(0)].  The standard deviation
    of the order value is a square root, which the rationals do not have: the
    column [std_order_value] is left out of the record; no row is added or
    dropped on its account. *)
Record CustFeatures : Type := {
  cf_customer_unique_id : string;
  order_count : Z;
  cf_total_spend : Q;
  cf_avg_order_value : Q;
  total_items : Q;
  avg_items_per_order : Q;
  avg_freight_ratio : float;
  avg_delivery_days : Q;
  avg_review_score : Q;
  single_purchase_customer : Z
}.

Definition fillna_0 (x : option Q) : Q :=
  match x with Some q => q | None => 0%Q end.

Definition fillna_0_float (x : float) : float :=
  match x with NaN => Fin 0 | _ => x end.

Definition cust_features_row (k : string) (g : list SilverRow) : CustFeatures :=
  let n := nunique (map s_order_id g) in
  {| cf_customer_unique_id := k;
     order_count := n;
     cf_total_spend := sum_skipna (map order_value g);
     cf_avg_order_value := fillna_0 (mean_skipna (map order_value g));
     total_items := sum_skipna (map (fun r => col_items_count (fact r)) g);
     avg_items_per_order :=
       fillna_0 (mean_skipna (map (fun r => col_items_count (fact r)) g));
     avg_freight_ratio := fillna_0_float (fmean_skipna (map freight_ratio g));
     avg_delivery_days :=
       fillna_0 (mean_skipna
                   (map (fun r => option_map inject_Z (delivery_days r)) g));
     avg_review_score :=
       fillna_0 (mean_skipna (map (fun r => col_review_score (fact r)) g));
     single_purchase_customer := if n =? 1 then 1 else 0 |}.

Definition cust_features (silver_orders : list SilverRow) : list CustFeatures :=
  map (fun '(k, g) => cust_features_row k g)
      (groupby s_customer_unique_id silver_orders).

(** A row of [customer_churn_features]. *)
Record ChurnRow : Type := {
  cr_features : CustFeatures;
  cr_customer : option CustomerSummary;
  cr_rfm : option RFM;
  cr_churn : Z
}.

Definition cr_customer_unique_id (r : ChurnRow) : string :=
  cf_customer_unique_id (cr_features r).

Definition churn_dataset (silver_orders : list SilverRow)
    (customers_tbl : list CustomerSummary) (rfm : list RFM) : list ChurnRow :=
  let step1 :=
    merge_left (fun f => Some (cf_customer_unique_id f))
      (fun c => Some (cs_customer_unique_id c))
      (fun f c => (f, c))
      (cust_features silver_orders) customers_tbl in
  let step2 :=
    merge_left (fun x => Some (cf_customer_unique_id (fst x)))
      (fun r => Some (rfm_customer_unique_id r))
      (fun x r => (x, r))
      step1 rfm in
  merge_inner (fun x => Some (cf_customer_unique_id (fst (fst x))))
    (fun l => Some (lo_customer_unique_id l))
    (fun x l => {| cr_features := fst (fst x);
                   cr_customer := snd (fst x);
                   cr_rfm := snd x;
                   cr_churn := churn l |})
    step2 (last_order_table silver_orders).

(* ================================================================== *)
(** * Properties *)

Unset Implicit Arguments.

(** ** Lists, results and frames *)

Lemma bind_OK {A B : Type} (m : result A) (k : A -> result B) (b : B) :
  bind m k = OK b -> exists a, m = OK a /\ k a = OK b.
Proof.
  destruct m as [a | e]; simpl; intros H.
  - exists a. split; [reflexivity | exact H].
  - discriminate H.
Qed.

Lemma mapM_OK_In {A B : Type} (f : A -> result B) (l : list A) (out : list B) :
  mapM f l = OK out ->
  forall b, In b out -> exists a, In a l /\ f a = OK b.
Proof.
  revert out. induction l as [| a l IH]; simpl; intros out H b Hb.
  - inversion H; subst. contradiction.
  - apply bind_OK in H. destruct H as [b0 [Hf H]].
    apply bind_OK in H. destruct H as [bs [Hm H]].
    inversion H; subst. destruct Hb as [-> | Hb].
    + exists a. split; [left; reflexivity | exact Hf].
    + destruct (IH bs Hm b Hb) as [a' [Ha' Hfa']].
      exists a'. split; [right; exact Ha' | exact Hfa'].
Qed.

Lemma mapM_OK_map {A B C : Type} (f : A -> result B) (g : B -> C) (h : A -> C)
    (l : list A) (out : list B) :
  (forall a b, f a = OK b -> g b = h a) ->
  mapM f l = OK out -> map g out = map h l.
Proof.
  intros Hgh. revert out. induction l as [| a l IH]; simpl; intros out H.
  - inversion H; reflexivity.
  - apply bind_OK in H. destruct H as [b0 [Hf H]].
    apply bind_OK in H. destruct H as [bs [Hm H]].
    inversion H; subst. simpl. rewrite (Hgh _ _ Hf), (IH _ Hm). reflexivity.
Qed.

Lemma in_dropna {A : Type} (l : list (option A)) (a : A) :
  In a (dropna l) <-> In (Some a) l.
Proof.
  unfold dropna. rewrite in_flat_map. split.
  - intros [[x |] [Hin Hx]]; simpl in Hx; [| contradiction].
    destruct Hx as [-> | []]. exact Hin.
  - intros H. exists (Some a). split; [exact H | left; reflexivity].
Qed.

Lemma key_eqb_eq (a b : option string) : key_eqb a b = true <-> a = b.
Proof.
  destruct a as [s |], b as [t |]; simpl; try (split; congruence).
  rewrite String.eqb_eq. split; congruence.
Qed.

Lemma in_combine_map {A B : Type} (g : A -> B) (l : list A) (a : A) (b : B) :
  In (a, b) (combine l (map g l)) -> b = g a.
Proof.
  induction l as [| x l IH]; simpl; [contradiction |].
  intros [H | H]; [inversion H; reflexivity | exact (IH H)].
Qed.

Lemma in_combine_nested_l {A B C : Type} (l : list A) (l1 : list B) (l2 : list C)
    (a : A) (b : B) (c : C) :
  In (a, (b, c)) (combine l (combine l1 l2)) -> In (a, b) (combine l l1).
Proof.
  revert l1 l2. induction l as [| x l IH]; intros [| y l1] [| z l2]; simpl;
    try contradiction.
  intros [H | H]; [inversion H; left; reflexivity | right; exact (IH _ _ H)].
Qed.

Section FrameFacts.
Variables Row Right Out : Type.
Variable kl : Row -> option string.
Variable kr : Right -> option string.

(** A left merge only produces rows built from a row of the left frame,
    and from a matching row of the right frame when it has one. *)
Lemma merge_left_In (combine : Row -> option Right -> Out)
    (left : list Row) (right : list Right) (o : Out) :
  In o (merge_left kl kr combine left right) ->
  exists a ob, In a left /\ o = combine a ob /\
    match ob with
    | Some b => In b right /\ kl a = kr b
    | None => True
    end.
Proof.
  unfold merge_left. rewrite in_flat_map. intros [a [Ha Ho]].
  destruct (filter (fun b => key_eqb (kl a) (kr b)) right) as [| m ms] eqn:E.
  - destruct Ho as [<- | []]. exists a, None. auto.
  - apply in_map_iff in Ho. destruct Ho as [b [<- Hb]].
    rewrite <- E in Hb. apply filter_In in Hb. destruct Hb as [Hb Hk].
    exists a, (Some b). rewrite key_eqb_eq in Hk. auto.
Qed.

Lemma merge_inner_In (combine : Row -> Right -> Out)
    (left : list Row) (right : list Right) (o : Out) :
  In o (merge_inner kl kr combine left right) ->
  exists a b, In a left /\ In b right /\ kl a = kr b /\ o = combine a b.
Proof.
  unfold merge_inner. rewrite in_flat_map. intros [a [Ha Ho]].
  apply in_map_iff in Ho. destruct Ho as [b [<- Hb]].
  apply filter_In in Hb. destruct Hb as [Hb Hk].
  exists a, b. rewrite key_eqb_eq in Hk. auto.
Qed.

(** When every row of the left frame has at most one match, a left merge
    keeps the rows of the left frame one for one. *)
Lemma merge_left_map {X : Type} (combine : Row -> option Right -> Out)
    (g : Out -> X) (h : Row -> X) (left : list Row) (right : list Right) :
  (forall a ob, g (combine a ob) = h a) ->
  (forall a, In a left ->
     (List.length (filter (fun b => key_eqb (kl a) (kr b)) right) <= 1)%nat) ->
  map g (merge_left kl kr combine left right) = map h left.
Proof.
  intros Hg.
  induction left as [| a left IH]; intros Hone; [reflexivity |].
  unfold merge_left in *. cbn [flat_map]. rewrite map_app.
  change (map h (a :: left)) with ([h a] ++ map h left). f_equal.
  - assert (H1 := Hone a (or_introl eq_refl)).
    destruct (filter (fun b => key_eqb (kl a) (kr b)) right) as [| m [| m' ms]];
      cbn [map List.length] in *; rewrite ?Hg; try reflexivity; lia.
  - apply IH. intros; apply Hone; right; assumption.
Qed.

Lemma merge_inner_map {X : Type} (combine : Row -> Right -> Out)
    (g : Out -> X) (h : Row -> X) (left : list Row) (right : list Right) :
  (forall a b, g (combine a b) = h a) ->
  (forall a, In a left ->
     List.length (filter (fun b => key_eqb (kl a) (kr b)) right) = 1%nat) ->
  map g (merge_inner kl kr combine left right) = map h left.
Proof.
  intros Hg.
  induction left as [| a left IH]; intros Hone; [reflexivity |].
  unfold merge_inner in *. cbn [flat_map]. rewrite map_app.
  change (map h (a :: left)) with ([h a] ++ map h left). f_equal.
  - assert (H1 := Hone a (or_introl eq_refl)).
    destruct (filter (fun b => key_eqb (kl a) (kr b)) right) as [| m [| m' ms]];
      cbn [map List.length] in *; rewrite ?Hg; try reflexivity; lia.
  - apply IH. intros; apply Hone; right; assumption.
Qed.
End FrameFacts.

Section GroupFacts.
Variable Row : Type.
Variable key : Row -> option string.

Lemma group_keys_In (df : list Row) (k : string) :
  In k (group_keys key df) <-> exists r, In r df /\ key r = Some k.
Proof.
  unfold group_keys.
  assert (P := StringSort.Permuted_sort (nodup string_dec (dropna (map key df)))).
  split.
  - intros H. apply (Permutation_in _ (Permutation_sym P)) in H.
    apply nodup_In, in_dropna, in_map_iff in H.
    destruct H as [r [Hk Hr]]. exists r. auto.
  - intros [r [Hr Hk]]. apply (Permutation_in _ P).
    apply nodup_In, in_dropna, in_map_iff. exists r. auto.
Qed.

Lemma group_keys_NoDup (df : list Row) : NoDup (group_keys key df).
Proof.
  unfold group_keys.
  eapply Permutation_NoDup; [apply StringSort.Permuted_sort |].
  apply NoDup_nodup.
Qed.

Lemma groupby_In (df : list Row) (k : string) (g : list Row) :
  In (k, g) (groupby key df) ->
  g = group_rows key df k /\ In k (group_keys key df).
Proof.
  unfold groupby. rewrite in_map_iff. intros [k' [H Hk]].
  inversion H; subst. auto.
Qed.

End GroupFacts.

(* ------------------------------------------------------------------ *)
(** ** A small bronze snapshot

    Five customers; [u1] ordered twice, fifteen days apart; the payment rows
    of [o1] tie between two types; [o7] was never delivered. *)

Definition day0 : Z := 17532.  (* 2018-01-01 *)

Definition at_day (d h : Z) : option Z :=
  Some ((day0 + d) * ns_per_day + h * ns_per_hour).

Definition mk_order (oid cid status : string) (d : Z) : Order :=
  {| order_id := Some oid; customer_id := Some cid; order_status := Some status;
     order_purchase_timestamp := at_day d 10;
     order_delivered_customer_date := at_day (d + 3) 18 |}.

Definition mk_customer (cid uid : string) : Customer :=
  {| c_customer_id := Some cid; customer_unique_id := Some uid;
     customer_attributes := [Some "sao paulo"; Some "SP"]%string |}.

Definition mk_item (oid : string) (n : Z) (p f : Q) : OrderItem :=
  {| i_order_id := Some oid; order_item_id := Some n;
     price := Some p; freight_value := Some f |}.

Definition mk_payment (oid ty : string) (v : Q) : Payment :=
  {| p_order_id := Some oid; p_payment_value := Some v;
     p_payment_type := Some ty |}.

Definition mk_review (oid : string) (score : Q) : Review :=
  {| r_order_id := Some oid; r_review_score := Some score |}.

Definition bronze_ok : Bronze :=
  {| orders :=
       [ mk_order "o1" "k1" "delivered" 0;
         mk_order "o2" "k2" "delivered" 10;
         mk_order "o3" "k3" "delivered" 20;
         mk_order "o4" "k4" "delivered" 30;
         mk_order "o5" "k5" "delivered" 40;
         mk_order "o6" "k6" "delivered" 15;
         mk_order "o7" "k7" "canceled" 100 ]%string;
     customers :=
       [ mk_customer "k1" "u1"; mk_customer "k2" "u2"; mk_customer "k3" "u3";
         mk_customer "k4" "u4"; mk_customer "k5" "u5"; mk_customer "k6" "u1";
         mk_customer "k7" "u5" ]%string;
     order_items :=
       [ mk_item "o1" 1 10 1; mk_item "o2" 1 20 2; mk_item "o3" 1 30 3;
         mk_item "o4" 1 40 4; mk_item "o5" 1 50 5; mk_item "o6" 1 5 1;
         mk_item "o7" 1 99 9 ]%string;
     payments :=
       [ mk_payment "o1" "voucher" 6; mk_payment "o1" "boleto" 5;
         mk_payment "o2" "credit_card" 22; mk_payment "o3" "credit_card" 33;
         mk_payment "o4" "credit_card" 44; mk_payment "o5" "credit_card" 55;
         mk_payment "o6" "credit_card" 6 ]%string;
     reviews :=
       [ mk_review "o1" 5; mk_review "o2" 4; mk_review "o3" 2;
         mk_review "o3" 4; mk_review "o5" 1 ]%string |}.

Definition empty_silver : Silver :=
  {| orders_silver := []; rfm_table := []; customers_silver := [] |}.

Definition silver_ok : Silver :=
  match run bronze_ok with
  | OK s => s
  | Raise _ => empty_silver
  end.

Example run_bronze_ok : run bronze_ok = OK silver_ok.
Proof. vm_compute. reflexivity. Qed.

Example silver_ok_rfm_scores :
  map (fun r => (rfm_customer_unique_id r, recency r, frequency r, R r, F r, M r,
                 RFM_SCORE r)) (rfm_table silver_ok)
  = [ ("u1", Some 26, 2, 2, 5, 1, 8);  ("u2", Some 31, 1, 1, 1, 2, 4);
      ("u3", Some 21, 1, 3, 2, 3, 8);  ("u4", Some 11, 1, 4, 3, 4, 11);
      ("u5", Some 1, 1, 5, 4, 5, 14) ]%string.
Proof. vm_compute. reflexivity. Qed.

(* ------------------------------------------------------------------ *)
(** ** Only delivered orders *)

Lemma is_delivered_status (o : Order) :
  is_delivered o = true -> order_status o = Some "delivered"%string.
Proof. unfold is_delivered. apply key_eqb_eq. Qed.

Lemma build_order_level_rows (b : Bronze) (df : list FactRow) (r : FactRow) :
  build_order_level b = OK df -> In r df ->
  In (fact_order r) (filter is_delivered (orders b)).
Proof.
  unfold build_order_level. intros H Hr.
  apply bind_OK in H. destruct H as [pagg [_ H]]. inversion H; subst; clear H.
  apply merge_left_In in Hr. destruct Hr as [r3 [o3 [Hr3 [-> _]]]].
  apply merge_left_In in Hr3. destruct Hr3 as [r2 [o2 [Hr2 [-> _]]]].
  apply merge_left_In in Hr2. destruct Hr2 as [r1 [o1 [Hr1 [-> _]]]].
  apply merge_left_In in Hr1. destruct Hr1 as [o [c [Ho [-> _]]]].
  exact Ho.
Qed.

Lemma add_features_rows (df : list FactRow) (s : list SilverRow) (r : SilverRow) :
  add_features df = OK s -> In r s ->
  In (fact r) df /\ order_value r = order_value_of (fact r)
  /\ freight_ratio r = freight_ratio_of (fact r).
Proof.
  unfold add_features. intros H Hr.
  apply bind_OK in H. destruct H as [cats [_ H]]. inversion H; subst; clear H.
  apply in_map_iff in Hr. destruct Hr as [[f [cat rev]] [<- Hin]].
  apply in_combine_l in Hin. simpl. auto.
Qed.

(** C5. Every row of the order-level fact table is a bronze order whose
    status is "delivered": the filter runs before the first merge, and the
    merges only extend the rows that passed it.  The same holds for every row
    of the silver orders table, from which the RFM table, the customer summary
    and the churn features are computed. *)
Theorem fact_rows_are_delivered (b : Bronze) (df : list FactRow) :
  build_order_level b = OK df ->
  (forall r, In r df ->
     col_order_status r = Some "delivered"%string /\ In (fact_order r) (orders b))
  /\ (forall s, add_features df = OK s ->
      forall r, In r s ->
        col_order_status (fact r) = Some "delivered"%string
        /\ In (fact_order (fact r)) (orders b)).
Proof.
  intros H.
  assert (Hrow : forall r, In r df ->
            col_order_status r = Some "delivered"%string
            /\ In (fact_order r) (orders b)).
  { intros r Hr. apply (build_order_level_rows _ _ _ H) in Hr.
    apply filter_In in Hr. destruct Hr as [Hin Hd].
    split; [apply is_delivered_status; exact Hd | exact Hin]. }
  split; [exact Hrow |].
  intros s Hs r Hr. apply Hrow. eapply add_features_rows; eassumption.
Qed.

Lemma fact_rows_are_delivered_witness :
  exists df,
    build_order_level bronze_ok = OK df
    /\ List.length df = 6%nat
    /\ (forall r, In r df ->
          col_order_status r = Some "delivered"%string
          /\ In (fact_order r) (orders bronze_ok)).
Proof.
  eexists. split; [vm_compute; reflexivity |].
  split; [reflexivity |].
  apply (fact_rows_are_delivered bronze_ok). vm_compute. reflexivity.
Defined.

(* ------------------------------------------------------------------ *)
(** ** Churn label *)

(** The latest purchase of one customer in the silver orders table. *)
Definition latest_purchase (silver_orders : list SilverRow) (uid : string)
  : option Z :=
  max_skipna (map s_purchase (group_rows s_customer_unique_id silver_orders uid)).

Lemma churn_of_spec (days : option Z) :
  (churn_of days = 1 <-> exists d, days = Some d /\ 90 < d)
  /\ (churn_of days = 0 \/ churn_of days = 1).
Proof.
  destruct days as [d |]; simpl.
  - destruct (Z.ltb_spec 90 d) as [Hlt | Hge]; split; auto.
    + split; [intros _; exists d; auto | reflexivity].
    + split; [discriminate |].
      intros [d' [Hd' Hlt]]. inversion Hd'; subst. lia.
  - split; auto. split; [discriminate | intros [d [Hd _]]; discriminate].
Qed.

Lemma last_order_table_row (silver_orders : list SilverRow) (l : LastOrder) :
  In l (last_order_table silver_orders) ->
  days_since_last_order l
    = days_between (dataset_end silver_orders)
        (latest_purchase silver_orders (lo_customer_unique_id l))
  /\ churn l = churn_of (days_since_last_order l).
Proof.
  unfold last_order_table. rewrite in_map_iff. intros [[k g] [<- Hg]].
  apply groupby_In in Hg. destruct Hg as [-> _]. simpl. split; reflexivity.
Qed.

Lemma churn_dataset_row (silver_orders : list SilverRow)
    (customers_tbl : list CustomerSummary) (rfm : list RFM) (r : ChurnRow) :
  In r (churn_dataset silver_orders customers_tbl rfm) ->
  exists l, In l (last_order_table silver_orders)
    /\ lo_customer_unique_id l = cr_customer_unique_id r
    /\ cr_churn r = churn l.
Proof.
  unfold churn_dataset. intros H.
  apply merge_inner_In in H. destruct H as [x [l [_ [Hl [Hk ->]]]]].
  exists l. split; [exact Hl |]. split; [| reflexivity].
  unfold cr_customer_unique_id. simpl. congruence.
Qed.

(** Customers whose last orders are 91, 90, 41, 11 and 0 days before the end
    of the table. *)
Definition bronze_churn : Bronze :=
  {| orders :=
       [ mk_order "o1" "k1" "delivered" 0;
         mk_order "o2" "k2" "delivered" 1;
         mk_order "o3" "k3" "delivered" 50;
         mk_order "o4" "k4" "delivered" 80;
         mk_order "o5" "k5" "delivered" 91 ]%string;
     customers :=
       [ mk_customer "k1" "uA"; mk_customer "k2" "uB"; mk_customer "k3" "uC";
         mk_customer "k4" "uD"; mk_customer "k5" "uE" ]%string;
     order_items :=
       [ mk_item "o1" 1 10 1; mk_item "o2" 1 20 2; mk_item "o3" 1 30 3;
         mk_item "o4" 1 40 4; mk_item "o5" 1 50 5 ]%string;
     payments :=
       [ mk_payment "o1" "boleto" 11; mk_payment "o2" "credit_card" 22;
         mk_payment "o3" "credit_card" 33; mk_payment "o4" "credit_card" 44;
         mk_payment "o5" "credit_card" 55 ]%string;
     reviews := [ mk_review "o1" 5; mk_review "o2" 4 ]%string |}.

Definition silver_churn : Silver :=
  match run bronze_churn with
  | OK s => s
  | Raise _ => empty_silver
  end.

Definition churn_features_of (s : Silver) : list ChurnRow :=
  churn_dataset (orders_silver s) (customers_silver s) (rfm_table s).

Example churn_boundary_rows :
  run bronze_churn = OK silver_churn
  /\ map (fun r => (cr_customer_unique_id r, cr_churn r))
         (churn_features_of silver_churn)
     = [("uA", 1); ("uB", 0); ("uC", 0); ("uD", 0); ("uE", 0)]%string.
Proof. split; vm_compute; reflexivity. Qed.

(* ------------------------------------------------------------------ *)
(** ** Orders per month *)

(** The formula as the specification words it: the denominator is
    [max(days_active / 30, 1)]. *)
Definition orders_per_month_spec (orders_n days : Z) : Q :=
  (inject_Z orders_n / Qmax (inject_Z days / 30) 1)%Q.

Lemma months_zero_iff (d : Z) : (inject_Z d / 30 == 0)%Q <-> d = 0.
Proof.
  unfold Qeq, Qdiv, Qmult, inject_Z. simpl. lia.
Qed.

Lemma months_nonzero (d : Z) : d <> 0 -> Qeq_bool (inject_Z d / 30) 0 = false.
Proof.
  intros Hd. destruct (Qeq_bool (inject_Z d / 30) 0) eqn:E; [| reflexivity].
  apply Qeq_bool_eq in E. apply (proj1 (months_zero_iff d)) in E. contradiction.
Qed.

Lemma orders_per_month_of_zero (n : Z) :
  orders_per_month_of n (Some 0) = Fin (inject_Z n / 1).
Proof. reflexivity. Qed.

Lemma orders_per_month_of_nonzero (n d : Z) :
  d <> 0 -> orders_per_month_of n (Some d) = Fin (inject_Z n / (inject_Z d / 30)).
Proof.
  intros Hd. unfold orders_per_month_of, month_denominator, replace_0_1. simpl.
  rewrite (months_nonzero d Hd). simpl. rewrite (months_nonzero d Hd).
  reflexivity.
Qed.

Lemma months_lt_1 (d : Z) : d < 30 -> (inject_Z d / 30 < 1)%Q.
Proof. unfold Qlt, Qdiv, Qmult, inject_Z. simpl. lia. Qed.

Lemma months_ge_1 (d : Z) : 30 <= d -> (1 <= inject_Z d / 30)%Q.
Proof. unfold Qle, Qdiv, Qmult, inject_Z. simpl. lia. Qed.

Lemma months_pos (d : Z) : 0 < d -> (0 < inject_Z d / 30)%Q.
Proof. unfold Qlt, Qdiv, Qmult, inject_Z. simpl. lia. Qed.

Lemma nunique_nonneg (l : list (option string)) : 0 <= nunique l.
Proof. unfold nunique. lia. Qed.

Lemma build_customer_summary_row (df : list SilverRow) (row : CustomerSummary) :
  In row (build_customer_summary df) ->
  orders_per_month row
    = orders_per_month_of (total_orders row) (days_active row)
  /\ 0 <= total_orders row.
Proof.
  unfold build_customer_summary. rewrite in_map_iff.
  intros [[k g] [<- _]]. simpl. split; [reflexivity | apply nunique_nonneg].
Qed.

(** C1, as the code has it.  For every row of the customer summary,
    [orders_per_month] is [total_orders] divided by [days_active / 30], where
    only a denominator equal to 0 (a customer active for 0 days) is replaced
    by 1.  The result agrees with the formula [total_orders / max(days_active
    / 30, 1)] when [days_active] is 0 or at least 30; for
    [0 < days_active < 30] the denominator stays below 1 and
    [orders_per_month] is at least [total_orders].  The division never
    meets a zero denominator. *)
Theorem orders_per_month_replaces_zero_only (df : list SilverRow)
    (row : CustomerSummary) :
  In row (build_customer_summary df) ->
  let n := total_orders row in
  (days_active row = Some 0 -> orders_per_month row = Fin (inject_Z n / 1))
  /\ (forall d, days_active row = Some d -> d <> 0 ->
        orders_per_month row = Fin (inject_Z n / (inject_Z d / 30)))
  /\ (days_active row = None -> orders_per_month row = NaN)
  /\ (forall d, days_active row = Some d -> d = 0 \/ 30 <= d ->
        exists q, orders_per_month row = Fin q
                  /\ (q == orders_per_month_spec n d)%Q)
  /\ (forall d, days_active row = Some d -> 0 < d < 30 ->
        exists q, orders_per_month row = Fin q
                  /\ (q == inject_Z n / (inject_Z d / 30))%Q
                  /\ (inject_Z n <= q)%Q)
  /\ (forall d, days_active row = Some d ->
        exists q, orders_per_month row = Fin q).
Proof.
  intros H n. destruct (build_customer_summary_row _ _ H) as [Hopm Hn].
  fold n in Hopm, Hn. rewrite Hopm.
  split; [| split; [| split; [| split; [| split]]]].
  - intros ->. apply orders_per_month_of_zero.
  - intros d -> Hd. apply orders_per_month_of_nonzero. exact Hd.
  - intros ->. reflexivity.
  - intros d -> [-> | Hd].
    + exists (inject_Z n / 1)%Q. split; [reflexivity |].
      unfold orders_per_month_spec. rewrite Q.max_r; [reflexivity |].
      apply Qlt_le_weak, months_lt_1. lia.
    + exists (inject_Z n / (inject_Z d / 30))%Q.
      split; [apply orders_per_month_of_nonzero; lia |].
      unfold orders_per_month_spec. rewrite Q.max_l; [reflexivity |].
      apply months_ge_1. exact Hd.
  - intros d -> [Hpos Hlt].
    exists (inject_Z n / (inject_Z d / 30))%Q.
    split; [apply orders_per_month_of_nonzero; lia |].
    split; [reflexivity |].
    apply Qle_shift_div_l; [apply months_pos; exact Hpos |].
    rewrite <- (Qmult_1_r (inject_Z n)) at 2.
    rewrite (Qmult_comm (inject_Z n) (inject_Z d / 30)),
      (Qmult_comm (inject_Z n) 1).
    apply Qmult_le_compat_r.
    + apply Qlt_le_weak, months_lt_1. exact Hlt.
    + change 0%Q with (inject_Z 0). rewrite <- Zle_Qle. exact Hn.
  - intros d ->. destruct (Z.eq_dec d 0) as [-> | Hd].
    + eexists. apply orders_per_month_of_zero.
    + eexists. apply orders_per_month_of_nonzero. exact Hd.
Qed.

(** Customer [u1] of [bronze_ok] ordered twice, fifteen days apart: the
    denominator is 15/30, not 1, and [orders_per_month] is 4, twice
    [total_orders]. *)
Lemma orders_per_month_exceeds_total_orders :
  exists row q,
    In row (build_customer_summary (orders_silver silver_ok))
    /\ cs_customer_unique_id row = "u1"%string
    /\ total_orders row = 2
    /\ days_active row = Some 15
    /\ orders_per_month row = Fin q
    /\ (q == 4)%Q
    /\ (orders_per_month_spec 2 15 == 2)%Q
    /\ ~ (q == orders_per_month_spec (total_orders row) 15)%Q
    /\ (inject_Z (total_orders row) < q)%Q.
Proof.
  eexists. eexists.
  split; [vm_compute; left; reflexivity |].
  repeat split; try reflexivity; vm_compute; congruence.
Qed.

Lemma orders_per_month_replaces_zero_only_witness :
  exists row,
    In row (build_customer_summary (orders_silver silver_ok))
    /\ days_active row = Some 15
    /\ exists q, orders_per_month row = Fin q
                 /\ (q == inject_Z (total_orders row) / (inject_Z 15 / 30))%Q
                 /\ (inject_Z (total_orders row) <= q)%Q.
Proof.
  destruct (build_customer_summary (orders_silver silver_ok)) as [| row rest] eqn:E;
    [vm_compute in E; discriminate E |].
  exists row.
  assert (Hin : In row (build_customer_summary (orders_silver silver_ok)))
    by (rewrite E; left; reflexivity).
  assert (Hd : days_active row = Some 15)
    by (vm_compute in E; inversion E; reflexivity).
  split; [rewrite <- E; exact Hin |]. split; [exact Hd |].
  apply (orders_per_month_replaces_zero_only _ row Hin); [exact Hd | lia].
Defined.

(* ------------------------------------------------------------------ *)
(** ** Order value and freight ratio *)

Lemma fdiv_zero_zero (x y : Q) :
  (x == 0)%Q -> (y == 0)%Q -> fdiv (Fin x) (Fin y) = NaN.
Proof.
  intros Hx Hy. simpl.
  rewrite (Qeq_eq_bool _ _ Hy), (Qeq_eq_bool _ _ Hx). reflexivity.
Qed.

Lemma fdiv_nonzero_zero (x y : Q) :
  ~ (x == 0)%Q -> (y == 0)%Q ->
  fdiv (Fin x) (Fin y) = PosInf \/ fdiv (Fin x) (Fin y) = NegInf.
Proof.
  intros Hx Hy. simpl. rewrite (Qeq_eq_bool _ _ Hy).
  destruct (Qeq_bool x 0) eqn:E; [apply Qeq_bool_eq in E; contradiction |].
  destruct (Qle_bool 0 x); auto.
Qed.

Lemma fdiv_by_zero_not_finite (a : float) (y q : Q) :
  (y == 0)%Q -> fdiv a (Fin y) <> Fin q.
Proof.
  intros Hy. destruct a as [x | | |]; simpl; try discriminate.
  - rewrite (Qeq_eq_bool _ _ Hy).
    destruct (Qeq_bool x 0); [discriminate |].
    destruct (Qle_bool 0 x); discriminate.
  - destruct (Qle_bool 0 y); discriminate.
  - destruct (Qle_bool 0 y); discriminate.
Qed.

Lemma nonneg_sum_zero (p f : Q) :
  (0 <= p)%Q -> (0 <= f)%Q -> (p + f == 0)%Q -> (f == 0)%Q.
Proof.
  intros Hp Hf H. apply Qle_antisym; [| exact Hf].
  rewrite <- H. rewrite <- (Qplus_0_l f) at 1.
  apply Qplus_le_compat; [exact Hp | apply Qle_refl].
Qed.

(** C8, as the code has it.  For every row of the silver orders table,
    [order_value] is [total_price + total_freight] and [freight_ratio] is the
    float quotient [total_freight / order_value], which never raises.  When
    [order_value] is 0 the quotient is never a finite number (so never 0): it
    is missing when [total_freight] is 0 too, which is the case whenever
    price and freight are not negative, and an infinity when [total_freight]
    is not 0. *)
Theorem freight_ratio_at_zero_order_value (df : list FactRow)
    (s : list SilverRow) (r : SilverRow) :
  add_features df = OK s -> In r s ->
  let tp := col_total_price (fact r) in
  let tf := col_total_freight (fact r) in
  order_value r = add_na tp tf
  /\ freight_ratio r = fdiv (of_option tf) (of_option (order_value r))
  /\ (forall v, order_value r = Some v -> (v == 0)%Q ->
        forall q, freight_ratio r <> Fin q)
  /\ (forall v f, order_value r = Some v -> tf = Some f ->
        (v == 0)%Q -> (f == 0)%Q ->
        freight_ratio r = NaN /\ isna (freight_ratio r) = true)
  /\ (forall p f, tp = Some p -> tf = Some f ->
        (0 <= p)%Q -> (0 <= f)%Q -> (p + f == 0)%Q ->
        freight_ratio r = NaN)
  /\ (forall v f, order_value r = Some v -> tf = Some f ->
        (v == 0)%Q -> ~ (f == 0)%Q ->
        (freight_ratio r = PosInf \/ freight_ratio r = NegInf)
        /\ isna (freight_ratio r) = false).
Proof.
  intros Hs Hr tp tf.
  destruct (add_features_rows _ _ _ Hs Hr) as [_ [Hv Hf]].
  assert (Hratio : freight_ratio r = fdiv (of_option tf) (of_option (order_value r))).
  { rewrite Hf, Hv. reflexivity. }
  split; [exact Hv |]. split; [exact Hratio |].
  rewrite Hratio.
  split; [| split; [| split]].
  - intros v -> Hz q. simpl of_option. apply fdiv_by_zero_not_finite. exact Hz.
  - intros v f -> -> Hv0 Hf0. simpl of_option.
    rewrite (fdiv_zero_zero _ _ Hf0 Hv0). split; reflexivity.
  - intros p f Hp Hf' Hp0 Hf0 Hsum.
    rewrite Hv. unfold order_value_of. fold tp tf. rewrite Hp, Hf'. simpl of_option.
    apply fdiv_zero_zero; [| exact Hsum].
    exact (nonneg_sum_zero _ _ Hp0 Hf0 Hsum).
  - intros v f -> -> Hv0 Hf0. simpl of_option.
    destruct (fdiv_nonzero_zero _ _ Hf0 Hv0) as [-> | ->]; split; auto.
Qed.

(** The order [o1] has one item with price -5 and freight 5. *)
Definition bronze_negative_price : Bronze :=
  {| orders := orders bronze_churn;
     customers := customers bronze_churn;
     order_items :=
       [ mk_item "o1" 1 (-5) 5; mk_item "o2" 1 20 2; mk_item "o3" 1 30 3;
         mk_item "o4" 1 40 4; mk_item "o5" 1 50 5 ]%string;
     payments := payments bronze_churn;
     reviews := reviews bronze_churn |}.

Definition silver_negative_price : Silver :=
  match run bronze_negative_price with
  | OK s => s
  | Raise _ => empty_silver
  end.

(** With a zero order value and a freight that is not zero, the freight
    ratio is an infinity, which pandas does not count as missing. *)
Lemma freight_ratio_infinite_not_missing :
  run bronze_negative_price = OK silver_negative_price
  /\ exists r v,
       In r (orders_silver silver_negative_price)
       /\ s_order_id r = Some "o1"%string
       /\ order_value r = Some v /\ (v == 0)%Q
       /\ freight_ratio r = PosInf
       /\ isna (freight_ratio r) = false.
Proof.
  split; [vm_compute; reflexivity |].
  eexists. eexists.
  split; [vm_compute; left; reflexivity |].
  repeat split; reflexivity.
Qed.

Lemma freight_ratio_at_zero_order_value_witness :
  exists df s r,
    add_features df = OK s /\ In r s
    /\ order_value r
       = add_na (col_total_price (fact r)) (col_total_freight (fact r))
    /\ freight_ratio r
       = fdiv (of_option (col_total_freight (fact r)))
              (of_option (order_value r)).
Proof.
  destruct (build_order_level bronze_negative_price) as [df | e] eqn:Edf;
    [| vm_compute in Edf; discriminate Edf].
  destruct (add_features df) as [s | e] eqn:Es;
    [| vm_compute in Edf; inversion Edf; subst df;
       vm_compute in Es; discriminate Es].
  destruct s as [| r rest] eqn:Er;
    [vm_compute in Edf; inversion Edf; subst df;
     vm_compute in Es; discriminate Es |].
  exists df, (r :: rest), r.
  assert (Hin : In r (r :: rest)) by (left; reflexivity).
  split; [exact Es |]. split; [exact Hin |].
  split; apply (freight_ratio_at_zero_order_value df (r :: rest) r Es Hin).
Defined.

(* ------------------------------------------------------------------ *)
(** ** Modal payment type *)

(** [t] occurs in the column and no value occurs more often. *)
Definition most_frequent (t : string) (x : list (option string)) : Prop :=
  In (Some t) x
  /\ forall u, (count_str u (dropna x) <= count_str t (dropna x))%nat.

(** The tie-break as the specification words it: the first value, in row
    order, that occurs as often as any other. *)
Definition first_encountered_mode (x : list (option string)) : option string :=
  let vals := dropna x in
  hd_error (filter (fun s => Nat.eqb (count_str s vals) (max_count vals)) vals).

Lemma string_leb_refl (s : string) : String.leb s s = true.
Proof.
  unfold String.leb.
  assert (E : String_as_OT.cmp s s = Eq) by (apply String_as_OT.cmp_eq; reflexivity).
  unfold String_as_OT.cmp in E. rewrite E. reflexivity.
Qed.

Lemma string_leb_trans :
  Transitive (fun a b : string => is_true (String.leb a b)).
Proof.
  intros a b c. unfold is_true, String.leb.
  destruct (String.compare a b) eqn:E1; try discriminate;
    destruct (String.compare b c) eqn:E2; try discriminate; intros _ _.
  - apply String.compare_eq_iff in E1. subst b. rewrite E2. reflexivity.
  - apply String.compare_eq_iff in E1. subst b. rewrite E2. reflexivity.
  - apply String.compare_eq_iff in E2. subst c. rewrite E1. reflexivity.
  - apply String_as_OT.cmp_lt in E1. apply String_as_OT.cmp_lt in E2.
    assert (E3 := String_as_OT.lt_trans _ _ _ E1 E2).
    apply String_as_OT.cmp_lt in E3. unfold String_as_OT.cmp in E3.
    rewrite E3. reflexivity.
Qed.

Lemma fold_max_ge {A : Type} (f : A -> nat) (l : list A) (a : A) :
  In a l -> (f a <= fold_right Nat.max 0 (map f l))%nat.
Proof.
  induction l as [| x l IH]; simpl; [contradiction |].
  intros [-> | H]; [lia | specialize (IH H); lia].
Qed.

Lemma fold_max_attained {A : Type} (f : A -> nat) (l : list A) :
  l <> [] -> exists a, In a l /\ fold_right Nat.max 0%nat (map f l) = f a.
Proof.
  induction l as [| x l IH]; [congruence |]. intros _.
  destruct l as [| y l'].
  - exists x. simpl. split; [auto | lia].
  - destruct IH as [a [Ha Hm]]; [discriminate |].
    change (fold_right Nat.max 0%nat (map f (x :: y :: l')))
      with (Nat.max (f x) (fold_right Nat.max 0%nat (map f (y :: l')))).
    rewrite Hm.
    destruct (Nat.max_spec (f x) (f a)) as [[_ ->] | [_ ->]].
    + exists a. split; [right; exact Ha | reflexivity].
    + exists x. split; [left; reflexivity | reflexivity].
Qed.

Lemma count_str_absent (u : string) (l : list string) :
  ~ In u l -> count_str u l = 0%nat.
Proof.
  unfold count_str. induction l as [| x l IH]; simpl; [reflexivity |].
  intros H. destruct (String.eqb_spec u x) as [-> | _].
  - exfalso. apply H. left. reflexivity.
  - apply IH. intros Hin. apply H. right. exact Hin.
Qed.

Lemma count_str_le_max (u : string) (l : list string) :
  (count_str u l <= max_count l)%nat.
Proof.
  destruct (in_dec string_dec u l) as [Hin | Hout].
  - unfold max_count. apply (fold_max_ge (fun s => count_str s l) l u Hin).
  - rewrite (count_str_absent _ _ Hout). lia.
Qed.

Lemma mode_In (x : list (option string)) (u : string) :
  In u (mode x) <-> most_frequent u x.
Proof.
  unfold mode, most_frequent.
  set (vals := dropna x).
  set (tied := filter (fun s => Nat.eqb (count_str s vals) (max_count vals))
                      (nodup string_dec vals)).
  assert (P := StringSort.Permuted_sort tied).
  assert (Htied : In u tied <->
            In u vals /\ count_str u vals = max_count vals).
  { unfold tied. rewrite filter_In, nodup_In, Nat.eqb_eq. reflexivity. }
  split.
  - intros H. apply (Permutation_in _ (Permutation_sym P)) in H.
    apply Htied in H. destruct H as [Hin Hc].
    split; [apply in_dropna; exact Hin |].
    intros w. rewrite Hc. apply count_str_le_max.
  - intros [Hin Hmax]. apply (Permutation_in _ P). apply Htied.
    apply in_dropna in Hin. fold vals in Hin, Hmax.
    split; [exact Hin |].
    apply Nat.le_antisymm; [apply count_str_le_max |].
    destruct (fold_max_attained (fun s => count_str s vals) vals) as [w [_ Hw]].
    { intros E. rewrite E in Hin. contradiction. }
    unfold max_count. rewrite Hw. apply Hmax.
Qed.

Lemma mode_first_smallest (x : list (option string)) (t : string) :
  mode_first x = OK t ->
  most_frequent t x
  /\ forall u, most_frequent u x -> String.leb t u = true.
Proof.
  unfold mode_first. destruct (mode x) as [| s rest] eqn:E; [discriminate |].
  intros H. inversion H; subst s; clear H.
  split; [apply mode_In; rewrite E; left; reflexivity |].
  intros u Hu. apply mode_In in Hu. rewrite E in Hu.
  destruct Hu as [<- | Hu]; [apply string_leb_refl |].
  assert (S : StronglySorted (fun a b => is_true (String.leb a b)) (t :: rest)).
  { rewrite <- E. unfold mode.
    apply StringSort.StronglySorted_sort. exact string_leb_trans. }
  inversion S as [| ? ? _ Hall]; subst.
  rewrite Forall_forall in Hall. exact (Hall u Hu).
Qed.

Lemma payments_agg_row (pays : list Payment) (agg : list PaymentsAgg)
    (a : PaymentsAgg) :
  payments_agg pays = OK agg -> In a agg ->
  mode_first (map p_payment_type (group_rows p_order_id pays (pa_order_id a)))
  = OK (pa_payment_type a).
Proof.
  unfold payments_agg. intros H Ha.
  destruct (mapM_OK_In _ _ _ H a Ha) as [[k g] [Hg Hf]].
  apply groupby_In in Hg. destruct Hg as [-> _].
  apply bind_OK in Hf. destruct Hf as [ty [Hty Hf]].
  inversion Hf; subst; simpl. exact Hty.
Qed.

(** C2, as the code has it.  The modal payment type of an order is one of
    the types that occur most often among the payment rows of the order, and
    among tied types it is the smallest in string order; this determines it,
    so it does not depend on the order of the rows. *)
Theorem modal_payment_type_is_smallest_tied (pays : list Payment)
    (agg : list PaymentsAgg) (a : PaymentsAgg) :
  payments_agg pays = OK agg -> In a agg ->
  let types :=
    map p_payment_type (group_rows p_order_id pays (pa_order_id a)) in
  most_frequent (pa_payment_type a) types
  /\ (forall u, most_frequent u types ->
        String.leb (pa_payment_type a) u = true)
  /\ (forall t, most_frequent t types ->
        (forall u, most_frequent u types -> String.leb t u = true) ->
        t = pa_payment_type a).
Proof.
  intros H Ha types.
  destruct (mode_first_smallest types (pa_payment_type a)
              (payments_agg_row _ _ _ H Ha)) as [Hmost Hleast].
  split; [exact Hmost |]. split; [exact Hleast |].
  intros t Ht Hmin. apply String.leb_antisym.
  - apply Hmin. exact Hmost.
  - apply Hleast. exact Ht.
Qed.

(** The payment rows of order [o1] in [bronze_ok] are a voucher, then a
    boleto: both occur once, the voucher comes first, and the aggregation
    answers boleto. *)
Lemma modal_payment_type_not_first_encountered :
  let types := map p_payment_type
                 (group_rows p_order_id (payments bronze_ok) "o1") in
  types = [Some "voucher"; Some "boleto"]%string
  /\ first_encountered_mode types = Some "voucher"%string
  /\ mode_first types = OK "boleto"%string
  /\ exists agg a,
       payments_agg (payments bronze_ok) = OK agg /\ In a agg
       /\ pa_order_id a = "o1"%string
       /\ pa_payment_type a = "boleto"%string
       /\ Some (pa_payment_type a) <> first_encountered_mode types.
Proof.
  split; [reflexivity |]. split; [reflexivity |]. split; [reflexivity |].
  eexists. eexists.
  split; [vm_compute; reflexivity |].
  split; [left; reflexivity |].
  repeat split. vm_compute. discriminate.
Qed.

Lemma modal_payment_type_is_smallest_tied_witness :
  exists agg a,
    payments_agg (payments bronze_ok) = OK agg /\ In a agg
    /\ pa_order_id a = "o1"%string
    /\ most_frequent (pa_payment_type a)
         (map p_payment_type
            (group_rows p_order_id (payments bronze_ok) (pa_order_id a))).
Proof.
  destruct (payments_agg (payments bronze_ok)) as [agg | e] eqn:E;
    [| vm_compute in E; discriminate E].
  destruct agg as [| a rest];
    [vm_compute in E; discriminate E |].
  exists (a :: rest), a.
  assert (Hin : In a (a :: rest)) by (left; reflexivity).
  split; [reflexivity |]. split; [exact Hin |].
  split; [vm_compute in E; inversion E; reflexivity |].
  destruct (modal_payment_type_is_smallest_tied
              (payments bronze_ok) (a :: rest) a E Hin) as [Hmost _].
  exact Hmost.
Defined.

(* ------------------------------------------------------------------ *)
(** ** Per-row anomalies *)

Lemma mapM_total {A B : Type} (f : A -> result B) (l : list A) :
  (forall a, In a l -> exists b, f a = OK b) -> exists out, mapM f l = OK out.
Proof.
  induction l as [| a l IH]; simpl; intros H.
  - exists []. reflexivity.
  - destruct (H a (or_introl eq_refl)) as [b Hb].
    destruct IH as [out Hout]; [intros; apply H; right; assumption |].
    exists (b :: out). rewrite Hb. simpl. rewrite Hout. reflexivity.
Qed.

Lemma mode_first_total (x : list (option string)) (t : string) :
  In (Some t) x -> exists s, mode_first x = OK s.
Proof.
  intros Hin. unfold mode_first.
  destruct (mode x) as [| s rest] eqn:E; [| exists s; reflexivity].
  exfalso.
  destruct (fold_max_attained (fun s => count_str s (dropna x)) (dropna x))
    as [w [Hw Hmax]].
  { intros E0. apply in_dropna in Hin. rewrite E0 in Hin. contradiction. }
  assert (Hm : In w (mode x)).
  { apply mode_In. split; [apply in_dropna; exact Hw |].
    intros u. rewrite <- Hmax. apply count_str_le_max. }
  rewrite E in Hm. contradiction.
Qed.

(** The payment aggregation is the only step of [build_order_level] that can
    raise, and it does not when every payment group names a payment type:
    missing customers, items, payments and reviews are left missing by the
    left merges. *)
Lemma build_order_level_total (b : Bronze) :
  (forall k, In k (group_keys p_order_id (payments b)) ->
     exists t, In (Some t)
                 (map p_payment_type (group_rows p_order_id (payments b) k))) ->
  exists df, build_order_level b = OK df.
Proof.
  intros H. unfold build_order_level.
  destruct (mapM_total
              (fun '(k, g) =>
                 ty <- mode_first (map p_payment_type g) ;;
                 OK {| pa_order_id := k;
                       pa_payment_value := sum_skipna (map p_payment_value g);
                       pa_payment_type := ty |})
              (groupby p_order_id (payments b))) as [pagg Hp].
  { intros [k g] Hg. apply groupby_In in Hg. destruct Hg as [-> Hk].
    destruct (H k Hk) as [t Ht].
    destruct (mode_first_total _ t Ht) as [s Hs].
    rewrite Hs. simpl. eexists. reflexivity. }
  unfold payments_agg. rewrite Hp. simpl. eexists. reflexivity.
Qed.

(** [bronze_ok] with an eighth delivered order that has no customer, item,
    payment or review row: the run completes, and the order is kept with
    missing values. *)
Definition bronze_sparse : Bronze :=
  {| orders := orders bronze_ok ++ [mk_order "o8" "k8" "delivered" 5]%string;
     customers := customers bronze_ok;
     order_items := order_items bronze_ok;
     payments := payments bronze_ok;
     reviews := reviews bronze_ok |}.

Example run_recovers_missing_joins :
  exists s r,
    run bronze_sparse = OK s /\ In r (orders_silver s)
    /\ s_order_id r = Some "o8"%string
    /\ s_customer_unique_id r = None
    /\ order_value r = None
    /\ freight_ratio r = NaN
    /\ col_payment_type (fact r) = None
    /\ col_review_score (fact r) = None.
Proof.
  eexists. eexists.
  split; [vm_compute; reflexivity |].
  split; [do 6 right; left; reflexivity |].
  repeat split; reflexivity.
Qed.

(** [bronze_ok] where the only payment row of order [o2] has no payment
    type. *)
Definition bronze_missing_payment_type : Bronze :=
  {| orders := orders bronze_ok;
     customers := customers bronze_ok;
     order_items := order_items bronze_ok;
     payments :=
       [ mk_payment "o1" "voucher" 6; mk_payment "o1" "boleto" 5;
         {| p_order_id := Some "o2"; p_payment_value := Some 22%Q;
            p_payment_type := None |};
         mk_payment "o3" "credit_card" 33;
         mk_payment "o4" "credit_card" 44; mk_payment "o5" "credit_card" 55;
         mk_payment "o6" "credit_card" 6 ]%string;
     reviews := reviews bronze_ok |}.

(** C9.  A payment group whose payment types are all missing is not
    recovered as a missing value: its mode is empty, [mode()[0]] raises a
    [KeyError], and the silver build stops in [build_order_level].  With the
    payment type present the same snapshot runs to completion. *)
Theorem all_missing_payment_type_aborts :
  mode_first
    (map p_payment_type
       (group_rows p_order_id (payments bronze_missing_payment_type) "o2"))
  = Raise (KeyError "0")
  /\ build_order_level bronze_missing_payment_type = Raise (KeyError "0")
  /\ run bronze_missing_payment_type = Raise (KeyError "0")
  /\ run bronze_ok = OK silver_ok.
Proof.
  repeat split; vm_compute; reflexivity.
Qed.

(* ------------------------------------------------------------------ *)
(** ** RFM scores *)

Lemma bins_to_cuts_label {L : Type} (lowest : bool) (bins : list Q)
    (labels : list L) (x : option Q) (l : L) :
  bins_to_cuts lowest bins labels x = Some l -> In l labels.
Proof.
  unfold bins_to_cuts. destruct x as [v |]; [| discriminate].
  destruct (_ || _); [discriminate |]. apply nth_error_In.
Qed.

Lemma qcut_OK {L : Type} (x : list (option Q)) (parts : nat) (labels : list L)
    (cs : list (option L)) :
  qcut x parts labels = OK cs ->
  cs = map (bins_to_cuts true (quantile_edges (dropna x) parts) labels) x
  /\ dropna x <> []
  /\ (all_distinct (quantile_edges (dropna x) parts) = true
      \/ List.length (quantile_edges (dropna x) parts) = 2%nat).
Proof.
  unfold qcut. destruct (dropna x) as [| v vals] eqn:E; [discriminate |].
  destruct (all_distinct _ || _) eqn:D; [| discriminate].
  intros H. inversion H. split; [reflexivity |]. split; [discriminate |].
  apply orb_true_iff in D. rewrite Nat.eqb_eq in D. exact D.
Qed.

Lemma qcut_label {L : Type} (x : list (option Q)) (parts : nat) (labels : list L)
    (cs : list (option L)) (l : L) :
  qcut x parts labels = OK cs -> In (Some l) cs -> In l labels.
Proof.
  intros H Hin. apply qcut_OK in H. destruct H as [-> _].
  apply in_map_iff in Hin. destruct Hin as [v [Hv _]].
  exact (bins_to_cuts_label _ _ _ _ _ Hv).
Qed.

Lemma astype_int_OK (c : option Z) (z : Z) : astype_int c = OK z -> c = Some z.
Proof. destruct c; simpl; intros H; inversion H; reflexivity. Qed.

(** What a successful [build_rfm] says about one of its rows: the row comes
    from a row of the grouped frame, and its three scores are the codes the
    three [qcut] calls gave at that position. *)
Lemma build_rfm_row (df : list SilverRow) (rfm : list RFM) (row : RFM) :
  build_rfm df = OK rfm -> In row rfm ->
  exists a rs fs ms,
    R_column (map agg_recency (rfm_agg df)) = OK rs
    /\ F_column (map agg_frequency (rfm_agg df)) = OK fs
    /\ M_column (map agg_monetary (rfm_agg df)) = OK ms
    /\ In (a, (Some (R row), (Some (F row), Some (M row))))
          (combine (rfm_agg df) (combine rs (combine fs ms)))
    /\ rfm_customer_unique_id row = agg_customer_unique_id a
    /\ recency row = agg_recency a
    /\ frequency row = agg_frequency a
    /\ monetary row = agg_monetary a
    /\ RFM_SCORE row = R row + F row + M row.
Proof.
  unfold build_rfm. intros H Hrow.
  apply bind_OK in H. destruct H as [rs [Hrs H]].
  apply bind_OK in H. destruct H as [fs [Hfs H]].
  apply bind_OK in H. destruct H as [ms [Hms H]].
  destruct (mapM_OK_In _ _ _ H row Hrow) as [[a [r [f m]]] [Hin Hscore]].
  unfold score_row in Hscore.
  apply bind_OK in Hscore. destruct Hscore as [ri [Hri Hscore]].
  apply bind_OK in Hscore. destruct Hscore as [fi [Hfi Hscore]].
  apply bind_OK in Hscore. destruct Hscore as [mi [Hmi Hscore]].
  apply astype_int_OK in Hri, Hfi, Hmi. subst r f m.
  inversion Hscore; subst row; clear Hscore. simpl.
  exists a, rs, fs, ms. repeat split; assumption.
Qed.

Lemma labels_1_to_5 (l : Z) :
  In l R_labels \/ In l F_labels \/ In l M_labels -> 1 <= l <= 5.
Proof.
  unfold R_labels, F_labels, M_labels. simpl. intuition lia.
Qed.

(** C4. In every row the RFM calculator produces, R, F and M are integers
    between 1 and 5, and RFM_SCORE is their sum, between 3 and 15. *)
Theorem rfm_score_is_sum_in_3_15 (df : list SilverRow) (rfm : list RFM)
    (row : RFM) :
  build_rfm df = OK rfm -> In row rfm ->
  RFM_SCORE row = R row + F row + M row
  /\ 1 <= R row <= 5 /\ 1 <= F row <= 5 /\ 1 <= M row <= 5
  /\ 3 <= RFM_SCORE row <= 15.
Proof.
  intros H Hrow.
  destruct (build_rfm_row _ _ _ H Hrow)
    as [a [rs [fs [ms [Hrs [Hfs [Hms [Hin [_ [_ [_ [_ Hsum]]]]]]]]]]]].
  assert (HR : In (Some (R row)) rs).
  { apply in_combine_nested_l in Hin. apply in_combine_r in Hin. exact Hin. }
  apply in_combine_r in Hin.
  assert (HF : In (Some (F row)) fs).
  { apply in_combine_r in Hin. apply in_combine_l in Hin. exact Hin. }
  assert (HM : In (Some (M row)) ms).
  { apply in_combine_r in Hin. apply in_combine_r in Hin. exact Hin. }
  apply (qcut_label _ _ _ _ _ Hrs) in HR.
  apply (qcut_label _ _ _ _ _ Hfs) in HF.
  apply (qcut_label _ _ _ _ _ Hms) in HM.
  assert (1 <= R row <= 5) by (apply labels_1_to_5; auto).
  assert (1 <= F row <= 5) by (apply labels_1_to_5; auto).
  assert (1 <= M row <= 5) by (apply labels_1_to_5; auto).
  repeat split; try lia; exact Hsum.
Qed.

Lemma rfm_score_is_sum_in_3_15_witness :
  exists row,
    build_rfm (orders_silver silver_ok) = OK (rfm_table silver_ok)
    /\ In row (rfm_table silver_ok)
    /\ rfm_customer_unique_id row = "u1"%string
    /\ RFM_SCORE row = R row + F row + M row
    /\ 3 <= RFM_SCORE row <= 15.
Proof.
  assert (H : build_rfm (orders_silver silver_ok) = OK (rfm_table silver_ok))
    by (vm_compute; reflexivity).
  destruct (rfm_table silver_ok) as [| row rest] eqn:E;
    [vm_compute in E; discriminate E |].
  exists row.
  assert (Hin : In row (row :: rest)) by (left; reflexivity).
  split; [exact H |]. split; [exact Hin |].
  split; [vm_compute in E; inversion E; reflexivity |].
  split; apply (rfm_score_is_sum_in_3_15 _ _ row H Hin).
Defined.

(* ------------------------------------------------------------------ *)
(** ** One churn row per customer *)

Section UniqueKeys.
Variable B : Type.
Variable f : B -> string.

Definition matches (k : string) (l : list B) : list B :=
  filter (fun b => key_eqb (Some k) (Some (f b))) l.

Lemma matches_cons (k : string) (b : B) (l : list B) :
  matches k (b :: l)
  = if String.eqb k (f b) then b :: matches k l else matches k l.
Proof. reflexivity. Qed.

Lemma matches_absent (k : string) (l : list B) :
  ~ In k (map f l) -> matches k l = [].
Proof.
  induction l as [| b l IH]; [reflexivity |].
  intros H. rewrite matches_cons.
  destruct (String.eqb_spec k (f b)) as [-> | _].
  - exfalso. apply H. left. reflexivity.
  - apply IH. intros Hin. apply H. right. exact Hin.
Qed.

Lemma matches_at_most_one (k : string) (l : list B) :
  NoDup (map f l) -> (List.length (matches k l) <= 1)%nat.
Proof.
  induction l as [| b l IH]; intros H; [simpl; lia |].
  inversion H as [| ? ? Hnotin Hnodup]; subst. rewrite matches_cons.
  destruct (String.eqb_spec k (f b)) as [-> | _].
  - rewrite (matches_absent _ _ Hnotin). simpl. lia.
  - apply IH. exact Hnodup.
Qed.

Lemma matches_exactly_one (k : string) (l : list B) :
  NoDup (map f l) -> In k (map f l) -> List.length (matches k l) = 1%nat.
Proof.
  induction l as [| b l IH]; intros H Hin; [contradiction |].
  inversion H as [| ? ? Hnotin Hnodup]; subst. rewrite matches_cons.
  destruct (String.eqb_spec k (f b)) as [-> | Hne].
  - rewrite (matches_absent _ _ Hnotin). reflexivity.
  - apply IH; [exact Hnodup |].
    destruct Hin as [Heq | Hin]; [congruence | exact Hin].
Qed.
End UniqueKeys.

Lemma cust_features_keys (silver_orders : list SilverRow) :
  map cf_customer_unique_id (cust_features silver_orders)
  = group_keys s_customer_unique_id silver_orders.
Proof.
  unfold cust_features, groupby. rewrite !map_map. simpl. apply map_id.
Qed.

Lemma last_order_table_keys (silver_orders : list SilverRow) :
  map lo_customer_unique_id (last_order_table silver_orders)
  = group_keys s_customer_unique_id silver_orders.
Proof.
  unfold last_order_table, groupby. rewrite !map_map. simpl. apply map_id.
Qed.

(** C10. When the customers table and the RFM table have one row per
    [customer_unique_id], the churn feature table has exactly one row for each
    distinct customer of the silver orders table, in the order of the group
    keys: the two left merges add no row, and the inner merge with the churn
    labels drops none. *)
Theorem churn_features_one_row_per_customer (silver_orders : list SilverRow)
    (customers_tbl : list CustomerSummary) (rfm : list RFM) :
  NoDup (map cs_customer_unique_id customers_tbl) ->
  NoDup (map rfm_customer_unique_id rfm) ->
  let out := churn_dataset silver_orders customers_tbl rfm in
  map cr_customer_unique_id out = group_keys s_customer_unique_id silver_orders
  /\ NoDup (map cr_customer_unique_id out)
  /\ (forall uid, In uid (map cr_customer_unique_id out) <->
        exists r, In r silver_orders /\ s_customer_unique_id r = Some uid)
  /\ List.length out = List.length (cust_features silver_orders).
Proof.
  intros Hc Hr out.
  assert (Hkeys : map cr_customer_unique_id out
                  = group_keys s_customer_unique_id silver_orders).
  { unfold out, churn_dataset.
    set (step1 := merge_left _ _ _ (cust_features silver_orders) customers_tbl).
    set (step2 := merge_left _ _ _ step1 rfm).
    assert (H1 : map (fun x => cf_customer_unique_id (fst x)) step1
                 = group_keys s_customer_unique_id silver_orders).
    { rewrite <- cust_features_keys. unfold step1.
      apply (merge_left_map _ _ _ _ _ _
               (fun x => cf_customer_unique_id (fst x)) cf_customer_unique_id);
        [reflexivity |].
      intros a _. apply (matches_at_most_one _ cs_customer_unique_id). exact Hc. }
    assert (H2 : map (fun x => cf_customer_unique_id (fst (fst x))) step2
                 = group_keys s_customer_unique_id silver_orders).
    { rewrite <- H1. unfold step2.
      apply (merge_left_map _ _ _ _ _ _
               (fun x => cf_customer_unique_id (fst (fst x)))
               (fun x => cf_customer_unique_id (fst x)));
        [reflexivity |].
      intros a _. apply (matches_at_most_one _ rfm_customer_unique_id). exact Hr. }
    rewrite <- H2.
    apply (merge_inner_map _ _ _ _ _ _ cr_customer_unique_id
             (fun x => cf_customer_unique_id (fst (fst x))));
      [reflexivity |].
    intros x Hx.
    apply (matches_exactly_one _ lo_customer_unique_id).
    - rewrite last_order_table_keys. apply group_keys_NoDup.
    - rewrite last_order_table_keys, <- H2.
      apply (in_map (fun x => cf_customer_unique_id (fst (fst x)))). exact Hx. }
  split; [exact Hkeys |]. rewrite Hkeys.
  split; [apply group_keys_NoDup |].
  split; [apply group_keys_In |].
  rewrite <- (length_map cr_customer_unique_id), Hkeys, <- cust_features_keys.
  apply length_map.
Qed.

Lemma NoDup_by_nodup (l : list string) : nodup string_dec l = l -> NoDup l.
Proof. intros <-. apply NoDup_nodup. Qed.

Lemma churn_features_one_row_per_customer_witness :
  NoDup (map cs_customer_unique_id (customers_silver silver_ok))
  /\ NoDup (map rfm_customer_unique_id (rfm_table silver_ok))
  /\ map cr_customer_unique_id (churn_features_of silver_ok)
     = group_keys s_customer_unique_id (orders_silver silver_ok)
  /\ List.length (churn_features_of silver_ok) = 5%nat.
Proof.
  assert (Hc : NoDup (map cs_customer_unique_id (customers_silver silver_ok)))
    by (apply NoDup_by_nodup; vm_compute; reflexivity).
  assert (Hr : NoDup (map rfm_customer_unique_id (rfm_table silver_ok)))
    by (apply NoDup_by_nodup; vm_compute; reflexivity).
  split; [exact Hc |]. split; [exact Hr |].
  split; [| vm_compute; reflexivity].
  destruct (churn_features_one_row_per_customer
              (orders_silver silver_ok) (customers_silver silver_ok)
              (rfm_table silver_ok) Hc Hr) as [Hkeys _].
  exact Hkeys.
Defined.

(* ------------------------------------------------------------------ *)
(** ** Quantile edges and bins *)

Definition Qsorted (s : list Q) : Prop := StronglySorted Qle s.

Lemma Qle_bool_trans :
  Transitive (fun a b : Q => is_true (Qle_bool a b)).
Proof.
  intros a b c. unfold is_true. rewrite !Qle_bool_iff. apply Qle_trans.
Qed.

Lemma sort_Qsorted (vals : list Q) : Qsorted (QSort.sort vals).
Proof.
  assert (H := QSort.StronglySorted_sort vals Qle_bool_trans).
  unfold Qsorted. induction H as [| a l _ IH Hall]; constructor.
  - exact IH.
  - eapply Forall_impl; [| exact Hall].
    intros b Hb. apply Qle_bool_iff. exact Hb.
Qed.

Lemma sort_In (vals : list Q) (v : Q) : In v (QSort.sort vals) <-> In v vals.
Proof.
  assert (P := QSort.Permuted_sort vals). split; intros H.
  - exact (Permutation_in _ (Permutation_sym P) H).
  - exact (Permutation_in _ P H).
Qed.

Lemma sort_length (vals : list Q) :
  List.length (QSort.sort vals) = List.length vals.
Proof. symmetry. apply Permutation_length, QSort.Permuted_sort. Qed.

Lemma Qsorted_nth_le (s : list Q) :
  Qsorted s ->
  forall i j, (i <= j)%nat -> (j < List.length s)%nat ->
  (nth i s 0 <= nth j s 0)%Q.
Proof.
  unfold Qsorted. induction 1 as [| a l _ IH Hall]; simpl; intros i j Hij Hj.
  - lia.
  - destruct i as [| i], j as [| j]; try lia.
    + apply Qle_refl.
    + rewrite Forall_forall in Hall. apply Hall, nth_In. lia.
    + apply IH; lia.
Qed.

Lemma Qsorted_first_le (s : list Q) (v : Q) :
  Qsorted s -> In v s -> (nth 0 s 0 <= v)%Q.
Proof.
  intros Hs Hin. destruct (In_nth _ _ 0%Q Hin) as [j [Hj <-]].
  apply Qsorted_nth_le; [exact Hs | lia | exact Hj].
Qed.

Lemma Qsorted_le_last (s : list Q) (v : Q) :
  Qsorted s -> In v s -> (v <= nth (List.length s - 1) s 0)%Q.
Proof.
  intros Hs Hin. destruct (In_nth _ _ 0%Q Hin) as [j [Hj <-]].
  apply Qsorted_nth_le; [exact Hs | lia | lia].
Qed.

Lemma fraction_bounds (r parts : nat) :
  (r < parts)%nat ->
  (0 <= inject_Z (Z.of_nat r) / inject_Z (Z.of_nat parts) <= 1)%Q.
Proof.
  intros H.
  assert (Hp : (0 < inject_Z (Z.of_nat parts))%Q).
  { change 0%Q with (inject_Z 0). rewrite <- Zlt_Qlt. lia. }
  split.
  - apply Qle_shift_div_l; [exact Hp |]. rewrite Qmult_0_l.
    change 0%Q with (inject_Z 0). rewrite <- Zle_Qle. lia.
  - apply Qle_shift_div_r; [exact Hp |]. rewrite Qmult_1_l.
    rewrite <- Zle_Qle. lia.
Qed.

Lemma quantile_first (s : list Q) (parts : nat) :
  (0 < parts)%nat -> (quantile s 0 parts == nth 0 s 0)%Q.
Proof.
  intros Hp. unfold quantile. rewrite Nat.mul_0_r.
  rewrite Nat.Div0.div_0_l, Nat.Div0.mod_0_l. simpl inject_Z at 1.
  unfold Qdiv. ring.
Qed.

Lemma quantile_last (s : list Q) (parts : nat) :
  (0 < parts)%nat ->
  (quantile s parts parts == nth (List.length s - 1) s 0)%Q.
Proof.
  intros Hp. unfold quantile.
  rewrite Nat.div_mul by lia. rewrite Nat.Div0.mod_mul.
  simpl inject_Z at 1. unfold Qdiv. ring.
Qed.

Lemma quantile_bounds (s : list Q) (k parts : nat) :
  Qsorted s -> s <> [] -> (0 < parts)%nat -> (k <= parts)%nat ->
  (nth 0 s 0 <= quantile s k parts <= nth (List.length s - 1) s 0)%Q.
Proof.
  intros Hs Hne Hp Hk. unfold quantile.
  assert (Hn : (0 < List.length s)%nat)
    by (destruct s; [congruence | simpl; lia]).
  set (n := List.length s) in *.
  set (pos := ((n - 1) * k)%nat).
  set (lo := (pos / parts)%nat).
  set (hi := Nat.min (lo + 1) (n - 1)).
  assert (Hlo : (lo <= n - 1)%nat).
  { unfold lo. apply Nat.Div0.div_le_upper_bound. unfold pos. nia. }
  assert (Hhi : (lo <= hi /\ hi <= n - 1)%nat) by (unfold hi; lia).
  destruct (fraction_bounds (pos mod parts) parts) as [Ht0 Ht1].
  { apply Nat.mod_upper_bound. lia. }
  set (t := (inject_Z (Z.of_nat (pos mod parts)) / inject_Z (Z.of_nat parts))%Q)
    in *.
  assert (Hab : (nth lo s 0 <= nth hi s 0)%Q)
    by (apply Qsorted_nth_le; [exact Hs | lia | fold n; lia]).
  assert (H0a : (nth 0 s 0 <= nth lo s 0)%Q)
    by (apply Qsorted_nth_le; [exact Hs | lia | fold n; lia]).
  assert (Hbm : (nth hi s 0 <= nth (n - 1) s 0)%Q)
    by (apply Qsorted_nth_le; [exact Hs | lia | fold n; lia]).
  assert (Hprod0 : (0 <= t * (nth hi s 0 - nth lo s 0))%Q).
  { apply Qmult_le_0_compat; [exact Ht0 | lra]. }
  assert (Hprod1 : (t * (nth hi s 0 - nth lo s 0)
                    <= 1 * (nth hi s 0 - nth lo s 0))%Q).
  { apply Qmult_le_compat_r; [exact Ht1 | lra]. }
  split; lra.
Qed.

Lemma all_distinct_last (l : list Q) (x y : Q) :
  all_distinct (l ++ [x]) = true -> In y l -> ~ (y == x)%Q.
Proof.
  induction l as [| a l IH]; simpl; [contradiction |].
  intros H Hin. apply andb_true_iff in H. destruct H as [Ha Hl].
  destruct Hin as [-> | Hin]; [| exact (IH Hl Hin)].
  apply negb_true_iff in Ha. rewrite existsb_app in Ha.
  apply orb_false_iff in Ha. destruct Ha as [_ Ha]. simpl in Ha.
  rewrite orb_false_r in Ha. apply Qeq_bool_neq. exact Ha.
Qed.

Lemma searchsorted_left_app (l1 l2 : list Q) (v : Q) :
  searchsorted_left (l1 ++ l2) v
  = (searchsorted_left l1 v + searchsorted_left l2 v)%nat.
Proof. unfold searchsorted_left. rewrite filter_app, length_app. reflexivity. Qed.

Lemma searchsorted_left_le_length (l : list Q) (v : Q) :
  (searchsorted_left l v <= List.length l)%nat.
Proof. unfold searchsorted_left. apply filter_length_le. Qed.

Lemma searchsorted_left_all (l : list Q) (v : Q) :
  (forall b, In b l -> (b < v)%Q) -> searchsorted_left l v = List.length l.
Proof.
  unfold searchsorted_left. intros H. f_equal. apply forallb_filter_id.
  apply forallb_forall. intros b Hb. apply negb_true_iff.
  destruct (Qle_bool v b) eqn:E; [| reflexivity].
  apply Qle_bool_iff in E. specialize (H b Hb). lra.
Qed.

Lemma searchsorted_left_mono (l : list Q) (v w : Q) :
  (v <= w)%Q -> (searchsorted_left l v <= searchsorted_left l w)%nat.
Proof.
  unfold searchsorted_left. intros Hvw.
  induction l as [| b l IH]; simpl; [lia |].
  destruct (Qle_bool v b) eqn:Ev, (Qle_bool w b) eqn:Ew; simpl; try lia.
  apply Qle_bool_iff in Ew.
  assert (Hvb : (v <= b)%Q) by lra.
  apply Qle_bool_iff in Hvb. congruence.
Qed.

Lemma bin_index_include_lowest (b : list Q) (v : Q) :
  bin_index true b v
  = if Qeq_bool v (hd 0%Q b) then 1%nat else searchsorted_left b v.
Proof. reflexivity. Qed.

(** The edges of a successful [qcut] and the bin of a value of the column. *)
Section Bins.
Variable vals : list Q.
Variable parts : nat.
Hypothesis vals_not_empty : vals <> [].
Hypothesis parts_pos : (0 < parts)%nat.
Hypothesis edges_distinct : all_distinct (quantile_edges vals parts) = true.

Let s := QSort.sort vals.
Let bins := quantile_edges vals parts.
Let lowest := nth 0 s 0%Q.
Let highest := nth (List.length s - 1) s 0%Q.

Lemma sorted_not_empty : s <> [].
Proof.
  intros E. apply vals_not_empty. apply length_zero_iff_nil.
  rewrite <- sort_length. fold s. rewrite E. reflexivity.
Qed.

Lemma bins_split :
  bins = map (fun k => quantile s k parts) (seq 0 parts) ++ [quantile s parts parts].
Proof.
  unfold bins, quantile_edges. fold s. rewrite seq_S, map_app. reflexivity.
Qed.

Lemma bins_length : List.length bins = S parts.
Proof. unfold bins, quantile_edges. rewrite length_map, length_seq. reflexivity. Qed.

Lemma bins_head : (hd 0 bins == lowest)%Q.
Proof.
  unfold bins, quantile_edges. fold s. simpl. apply quantile_first. exact parts_pos.
Qed.

Lemma bins_head_In : In (hd 0%Q bins) (map (fun k => quantile s k parts) (seq 0 parts)).
Proof.
  unfold bins, quantile_edges. fold s. simpl.
  apply in_map_iff. exists 0%nat. split; [reflexivity |]. apply in_seq. lia.
Qed.

Lemma value_bounds (v : Q) : In v vals -> (lowest <= v <= highest)%Q.
Proof.
  intros Hin. apply sort_In in Hin. fold s in Hin. split.
  - apply Qsorted_first_le; [apply sort_Qsorted | exact Hin].
  - apply Qsorted_le_last; [apply sort_Qsorted | exact Hin].
Qed.

Lemma lowest_In : In lowest vals.
Proof.
  apply sort_In. fold s. apply nth_In.
  assert (H := sorted_not_empty). destruct s; [congruence | simpl; lia].
Qed.

Lemma highest_In : In highest vals.
Proof.
  apply sort_In. fold s. apply nth_In.
  assert (H := sorted_not_empty). destruct s; [congruence | simpl; lia].
Qed.

Lemma inner_edge_below_highest (b : Q) :
  In b (map (fun k => quantile s k parts) (seq 0 parts)) -> (b < highest)%Q.
Proof.
  intros Hb.
  assert (Hne : ~ (b == quantile s parts parts)%Q).
  { apply (all_distinct_last (map (fun k => quantile s k parts) (seq 0 parts))).
    - rewrite <- bins_split. exact edges_distinct.
    - exact Hb. }
  rewrite (quantile_last s parts parts_pos) in Hne. fold highest in Hne.
  apply in_map_iff in Hb. destruct Hb as [k [<- Hk]]. apply in_seq in Hk.
  destruct (quantile_bounds s k parts (sort_Qsorted vals) sorted_not_empty
              parts_pos) as [_ Hle]; [lia |].
  fold highest in Hle. apply Qle_lteq in Hle. destruct Hle as [Hlt | Heq].
  - exact Hlt.
  - contradiction.
Qed.

Lemma lowest_below_highest : (lowest < highest)%Q.
Proof.
  rewrite <- bins_head. apply inner_edge_below_highest. apply bins_head_In.
Qed.

Lemma searchsorted_left_bins (v : Q) :
  In v vals ->
  searchsorted_left bins v
  = searchsorted_left (map (fun k => quantile s k parts) (seq 0 parts)) v.
Proof.
  intros Hin. rewrite bins_split, searchsorted_left_app.
  unfold searchsorted_left at 2. simpl.
  destruct (Qle_bool v (quantile s parts parts)) eqn:E; simpl; [lia |].
  exfalso. apply not_true_iff_false in E. apply E. apply Qle_bool_iff.
  rewrite (quantile_last s parts parts_pos). apply value_bounds. exact Hin.
Qed.

Lemma bin_index_range (v : Q) :
  In v vals -> (1 <= bin_index true bins v <= parts)%nat.
Proof.
  intros Hin. rewrite bin_index_include_lowest.
  destruct (Qeq_bool v (hd 0%Q bins)) eqn:E; [lia |].
  rewrite (searchsorted_left_bins v Hin). split.
  - apply Qeq_bool_neq in E.
    assert (Hlt : (hd 0 bins < v)%Q).
    { destruct (value_bounds v Hin) as [Hlo _].
      rewrite <- bins_head in Hlo. apply Qle_lteq in Hlo.
      destruct Hlo as [Hlt | Heq]; [exact Hlt |].
      exfalso. apply E. symmetry. exact Heq. }
    assert (Hhd := bins_head_In).
    destruct parts as [| p]; [lia |].
    unfold bins, quantile_edges in *. fold s in Hlt, Hhd |- *.
    change (seq 0 (S p)) with (0%nat :: seq 1 p). simpl map.
    simpl hd in Hlt. unfold searchsorted_left. simpl filter.
    destruct (Qle_bool v (quantile s 0 (S p))) eqn:E0; simpl; [| lia].
    apply Qle_bool_iff in E0. lra.
  - etransitivity; [apply searchsorted_left_le_length |].
    rewrite length_map, length_seq. lia.
Qed.

Lemma bin_index_mono (v w : Q) :
  In v vals -> In w vals -> (v <= w)%Q ->
  (bin_index true bins v <= bin_index true bins w)%nat.
Proof.
  intros Hv Hw Hvw.
  assert (Rv := bin_index_range v Hv). assert (Rw := bin_index_range w Hw).
  rewrite !bin_index_include_lowest in *.
  destruct (Qeq_bool v (hd 0%Q bins)) eqn:Ev; [lia |].
  destruct (Qeq_bool w (hd 0%Q bins)) eqn:Ew.
  - exfalso. apply Qeq_bool_neq in Ev. apply Qeq_bool_eq in Ew. apply Ev.
    apply Qle_antisym; [rewrite <- Ew; exact Hvw |].
    rewrite bins_head. apply value_bounds. exact Hv.
  - apply searchsorted_left_mono. exact Hvw.
Qed.

Lemma bin_index_lowest (v : Q) :
  In v vals -> (forall w, In w vals -> (v <= w)%Q) ->
  bin_index true bins v = 1%nat.
Proof.
  intros Hv Hmin. rewrite bin_index_include_lowest.
  assert (E : (v == hd 0 bins)%Q).
  { rewrite bins_head. apply Qle_antisym.
    - apply Hmin. apply lowest_In.
    - apply value_bounds. exact Hv. }
  rewrite (Qeq_eq_bool _ _ E). reflexivity.
Qed.

Lemma bin_index_highest (v : Q) :
  In v vals -> (forall w, In w vals -> (w <= v)%Q) ->
  bin_index true bins v = parts.
Proof.
  intros Hv Hmax.
  assert (E : (v == highest)%Q).
  { apply Qle_antisym; [apply value_bounds; exact Hv |].
    apply Hmax. apply highest_In. }
  rewrite bin_index_include_lowest.
  destruct (Qeq_bool v (hd 0%Q bins)) eqn:E0.
  - exfalso. apply Qeq_bool_eq in E0. rewrite bins_head in E0.
    assert (H := lowest_below_highest). lra.
  - rewrite (searchsorted_left_bins v Hv).
    rewrite searchsorted_left_all; [rewrite length_map, length_seq; reflexivity |].
    intros b Hb. rewrite E. apply inner_edge_below_highest. exact Hb.
Qed.

Lemma bins_to_cuts_value {L : Type} (labels : list L) (v : Q) :
  In v vals ->
  bins_to_cuts true bins labels (Some v)
  = nth_error labels (bin_index true bins v - 1).
Proof.
  intros Hv. unfold bins_to_cuts.
  assert (R := bin_index_range v Hv). rewrite bins_length.
  destruct (Nat.eqb_spec (bin_index true bins v) 0); [lia |].
  destruct (Nat.eqb_spec (bin_index true bins v) (S parts)); [lia |].
  reflexivity.
Qed.
End Bins.

(* ------------------------------------------------------------------ *)
(** ** Recency and the inverted R score *)

Lemma map_fst_combine {A B : Type} (l : list A) (l' : list B) :
  (List.length l <= List.length l')%nat -> map fst (combine l l') = l.
Proof.
  revert l'. induction l as [| a l IH]; intros [| b l'] H; simpl in *;
    try reflexivity; try lia.
  f_equal. apply IH. lia.
Qed.

Lemma rank_first_length (x : list Z) :
  List.length (rank_first x) = List.length x.
Proof. unfold rank_first. rewrite length_map, length_seq. reflexivity. Qed.

Lemma qcut_length {L : Type} (x : list (option Q)) (parts : nat)
    (labels : list L) (cs : list (option L)) :
  qcut x parts labels = OK cs -> List.length cs = List.length x.
Proof.
  intros H. apply qcut_OK in H. destruct H as [-> _]. apply length_map.
Qed.

(** A successful [build_rfm] keeps the rows of the grouped frame, one for
    one and in order. *)
Lemma build_rfm_columns (df : list SilverRow) (rfm : list RFM) :
  build_rfm df = OK rfm ->
  map recency rfm = map agg_recency (rfm_agg df)
  /\ map frequency rfm = map agg_frequency (rfm_agg df)
  /\ map rfm_customer_unique_id rfm = map agg_customer_unique_id (rfm_agg df).
Proof.
  unfold build_rfm. intros H.
  apply bind_OK in H. destruct H as [rs [Hrs H]].
  apply bind_OK in H. destruct H as [fs [Hfs H]].
  apply bind_OK in H. destruct H as [ms [Hms H]].
  assert (Hfst : map fst (combine (rfm_agg df) (combine rs (combine fs ms)))
                 = rfm_agg df).
  { apply map_fst_combine.
    apply qcut_length in Hrs, Hfs, Hms.
    repeat rewrite length_map in Hrs. repeat rewrite length_map in Hms.
    repeat rewrite length_map in Hfs. rewrite rank_first_length in Hfs.
    rewrite length_map in Hfs.
    rewrite !length_combine. lia. }
  assert (Hcol : forall (X : Type) (g : RFM -> X) (h : RFMAgg -> X),
            (forall x row, score_row x = OK row -> g row = h (fst x)) ->
            map g rfm = map h (rfm_agg df)).
  { intros X g h Hgh.
    rewrite (mapM_OK_map score_row g (fun x => h (fst x)) _ rfm Hgh H).
    rewrite <- (map_map fst h), Hfst. reflexivity. }
  assert (Hrow : forall x row, score_row x = OK row ->
            recency row = agg_recency (fst x)
            /\ frequency row = agg_frequency (fst x)
            /\ rfm_customer_unique_id row = agg_customer_unique_id (fst x)).
  { intros [a [r [f m]]] row Hs. unfold score_row in Hs.
    apply bind_OK in Hs. destruct Hs as [ri [_ Hs]].
    apply bind_OK in Hs. destruct Hs as [fi [_ Hs]].
    apply bind_OK in Hs. destruct Hs as [mi [_ Hs]].
    inversion Hs; subst; simpl. auto. }
  repeat split; apply Hcol; intros x row Hs; apply (Hrow x row Hs).
Qed.

Definition recency_values (df : list SilverRow) : list Q :=
  dropna (map (option_map inject_Z) (map agg_recency (rfm_agg df))).

Definition recency_edges (df : list SilverRow) : list Q :=
  quantile_edges (recency_values df) 5.

(** The quintile of a recency: 1 for the lowest fifth, 5 for the highest. *)
Definition recency_quintile (df : list SilverRow) (d : Z) : nat :=
  bin_index true (recency_edges df) (inject_Z d).

Lemma R_label_of_quintile (i : nat) :
  (1 <= i <= 5)%nat -> nth_error R_labels (i - 1) = Some (6 - Z.of_nat i).
Proof.
  intros H.
  assert (C : i = 1%nat \/ i = 2%nat \/ i = 3%nat \/ i = 4%nat \/ i = 5%nat) by lia.
  destruct C as [-> | [-> | [-> | [-> | ->]]]]; reflexivity.
Qed.

Lemma agg_recency_row (df : list SilverRow) (a : RFMAgg) :
  In a (rfm_agg df) ->
  agg_recency a
  = days_between (snapshot_date df)
      (latest_purchase df (agg_customer_unique_id a)).
Proof.
  unfold rfm_agg. rewrite in_map_iff. intros [[k g] [<- Hg]].
  apply groupby_In in Hg. destruct Hg as [-> _]. reflexivity.
Qed.

Lemma R_column_edges (df : list SilverRow) (rs : list (option Z)) :
  R_column (map agg_recency (rfm_agg df)) = OK rs ->
  rs = map (fun a => bins_to_cuts true (recency_edges df) R_labels
                       (option_map inject_Z (agg_recency a))) (rfm_agg df)
  /\ recency_values df <> []
  /\ all_distinct (recency_edges df) = true.
Proof.
  unfold R_column. intros H. apply qcut_OK in H.
  fold (recency_values df) in H. fold (recency_edges df) in H.
  destruct H as [-> [Hne Hd]]. rewrite !map_map.
  split; [reflexivity |]. split; [exact Hne |].
  destruct Hd as [Hd | Hl]; [exact Hd |].
  unfold recency_edges, quantile_edges in Hl.
  rewrite length_map, length_seq in Hl. discriminate Hl.
Qed.

Lemma build_rfm_R (df : list SilverRow) (rfm : list RFM) (row : RFM) :
  build_rfm df = OK rfm -> In row rfm ->
  recency_values df <> []
  /\ all_distinct (recency_edges df) = true
  /\ exists d,
       recency row = Some d
       /\ recency row
          = days_between (snapshot_date df)
              (latest_purchase df (rfm_customer_unique_id row))
       /\ In (inject_Z d) (recency_values df)
       /\ R row = 6 - Z.of_nat (recency_quintile df d).
Proof.
  intros H Hrow.
  destruct (build_rfm_row _ _ _ H Hrow)
    as [a [rs [fs [ms [Hrs [_ [_ [Hin [Hk [Hrec _]]]]]]]]]].
  apply R_column_edges in Hrs. destruct Hrs as [-> [Hne Hd]].
  split; [exact Hne |]. split; [exact Hd |].
  apply in_combine_nested_l in Hin.
  assert (Ha : In a (rfm_agg df)) by (apply in_combine_l in Hin; exact Hin).
  apply in_combine_map in Hin.
  rewrite Hk, Hrec, (agg_recency_row df a Ha).
  rewrite <- (agg_recency_row df a Ha).
  destruct (agg_recency a) as [d |] eqn:Ed; [| discriminate Hin].
  exists d. split; [reflexivity |]. split; [reflexivity |].
  assert (Hv : In (inject_Z d) (recency_values df)).
  { unfold recency_values. apply in_dropna. rewrite map_map.
    apply in_map_iff. exists a. rewrite Ed. auto. }
  split; [exact Hv |].
  simpl option_map in Hin.
  unfold recency_edges in Hin.
  rewrite (bins_to_cuts_value (recency_values df) 5 (Nat.lt_0_succ 4) Hd
             R_labels (inject_Z d) Hv) in Hin.
  assert (Rg := bin_index_range (recency_values df) 5 (Nat.lt_0_succ 4) Hd
                  (inject_Z d) Hv).
  rewrite (R_label_of_quintile _ Rg) in Hin.
  assert (HR : forall x y : Z, Some x = Some y -> x = y) by (intros x y E; congruence).
  exact (HR _ _ Hin).
Qed.

Lemma days_between_snapshot (df : list SilverRow) (latest : option Z) (d : Z) :
  days_between (snapshot_date df) latest = Some d ->
  exists top t,
    max_skipna (map s_purchase df) = Some top /\ latest = Some t
    /\ d = timedelta_days (top + ns_per_day - t).
Proof.
  unfold snapshot_date.
  destruct (max_skipna (map s_purchase df)) as [top |]; [| discriminate].
  destruct latest as [t |]; [| discriminate].
  simpl. intros H. inversion H. exists top, t.
  split; [reflexivity |]. split; [reflexivity |]. reflexivity.
Qed.

Example silver_ok_recency :
  map (fun r => (rfm_customer_unique_id r, recency r, R r)) (rfm_table silver_ok)
  = [ ("u1", Some 26, 2); ("u2", Some 31, 1); ("u3", Some 21, 3);
      ("u4", Some 11, 4); ("u5", Some 1, 5) ]%string
  /\ max_skipna (map s_purchase (orders_silver silver_ok)) = at_day 40 10
  /\ latest_purchase (orders_silver silver_ok) "u1" = at_day 15 10.
Proof. repeat split; vm_compute; reflexivity. Qed.

(* ------------------------------------------------------------------ *)
(** ** Ranking the frequencies *)

Definition count_lt (v : Z) (x : list Z) : nat :=
  List.length (filter (fun w => w <? v) x).

Definition count_eq (v : Z) (x : list Z) : nat :=
  List.length (filter (fun w => w =? v) x).

Lemma rank_first_nth (x : list Z) (i : nat) :
  (i < List.length x)%nat ->
  nth i (rank_first x) 0
  = Z.of_nat (count_lt (nth i x 0) x + count_eq (nth i x 0) (firstn (S i) x)).
Proof.
  intros Hi. unfold rank_first.
  set (f := fun i : nat =>
              let v := nth i x 0 in
              Z.of_nat (List.length (filter (fun w => w <? v) x)
                        + List.length (filter (fun w => w =? v) (firstn (S i) x)))).
  rewrite (nth_indep _ 0 (f 0%nat)) by (rewrite length_map, length_seq; exact Hi).
  rewrite map_nth, seq_nth by exact Hi. reflexivity.
Qed.

Lemma count_eq_firstn_le (v : Z) (x : list Z) (k : nat) :
  (count_eq v (firstn k x) <= count_eq v x)%nat.
Proof.
  unfold count_eq. revert k. induction x as [| a x IH]; intros [| k]; simpl;
    try lia.
  specialize (IH k). destruct (a =? v); simpl; lia.
Qed.

Lemma count_eq_cons (v a : Z) (x : list Z) :
  count_eq v (a :: x) = if a =? v then S (count_eq v x) else count_eq v x.
Proof. unfold count_eq. simpl. destruct (a =? v); reflexivity. Qed.

Lemma count_eq_firstn_self (x : list Z) (i : nat) :
  (i < List.length x)%nat ->
  (1 <= count_eq (nth i x 0%Z) (firstn (S i) x))%nat.
Proof.
  revert i. induction x as [| a x IH]; intros i Hi; [simpl in Hi; lia |].
  change (firstn (S i) (a :: x)) with (a :: firstn i x).
  rewrite count_eq_cons.
  destruct i as [| i].
  - change (nth 0 (a :: x) 0) with a. rewrite Z.eqb_refl. lia.
  - simpl in Hi. assert (Hi' : (i < List.length x)%nat) by lia.
    specialize (IH i Hi').
    change (nth (S i) (a :: x) 0) with (nth i x 0).
    destruct (a =? nth i x 0); lia.
Qed.

Lemma count_eq_firstn_tie (x : list Z) (i j : nat) :
  (i < j)%nat -> (j < List.length x)%nat -> nth i x 0 = nth j x 0 ->
  (count_eq (nth j x 0%Z) (firstn (S i) x)
   < count_eq (nth j x 0%Z) (firstn (S j) x))%nat.
Proof.
  revert i j. induction x as [| a x IH]; intros i j Hij Hj Heq;
    [simpl in Hj; lia |].
  destruct j as [| j]; [lia |].
  simpl in Hj. assert (Hj' : (j < List.length x)%nat) by lia.
  change (nth (S j) (a :: x) 0) with (nth j x 0) in *.
  change (firstn (S (S j)) (a :: x)) with (a :: firstn (S j) x).
  change (firstn (S i) (a :: x)) with (a :: firstn i x).
  rewrite !count_eq_cons.
  destruct i as [| i].
  - change (nth 0 (a :: x) 0) with a in Heq. subst a.
    rewrite Z.eqb_refl. change (firstn 0 x) with (@nil Z).
    assert (H1 := count_eq_firstn_self x j Hj').
    change (count_eq (nth j x 0) []) with 0%nat. lia.
  - change (nth (S i) (a :: x) 0) with (nth i x 0) in Heq.
    assert (H1 : (i < j)%nat) by lia.
    specialize (IH i j H1 Hj' Heq).
    destruct (a =? nth j x 0); lia.
Qed.

Lemma count_lt_eq_le (v w : Z) (x : list Z) :
  v < w -> (count_lt v x + count_eq v x <= count_lt w x)%nat.
Proof.
  unfold count_lt, count_eq. intros Hvw.
  induction x as [| a x IH]; simpl; [lia |].
  destruct (Z.ltb_spec a v), (Z.eqb_spec a v), (Z.ltb_spec a w); simpl; lia.
Qed.

Lemma count_lt_eq_length (v : Z) (x : list Z) :
  (count_lt v x + count_eq v x <= List.length x)%nat.
Proof.
  unfold count_lt, count_eq.
  induction x as [| a x IH]; simpl; [lia |].
  destruct (Z.ltb_spec a v), (Z.eqb_spec a v); simpl; lia.
Qed.

Section Ranks.
Variable x : list Z.
Let n := List.length x.

(** A lower frequency has a lower rank. *)
Lemma rank_first_lt (i j : nat) :
  (i < n)%nat -> (j < n)%nat -> nth i x 0 < nth j x 0 ->
  nth i (rank_first x) 0 < nth j (rank_first x) 0.
Proof.
  intros Hi Hj Hlt. rewrite !rank_first_nth by assumption.
  assert (H1 := count_eq_firstn_le (nth i x 0) x (S i)).
  assert (H2 := count_lt_eq_le _ _ x Hlt).
  assert (H3 := count_eq_firstn_self x j Hj).
  lia.
Qed.

(** Equal frequencies are ranked in row order. *)
Lemma rank_first_tie (i j : nat) :
  (i < j)%nat -> (j < n)%nat -> nth i x 0 = nth j x 0 ->
  nth i (rank_first x) 0 < nth j (rank_first x) 0.
Proof.
  intros Hij Hj Heq.
  rewrite !rank_first_nth by (fold n; lia).
  assert (H := count_eq_firstn_tie x i j Hij Hj Heq). rewrite Heq. lia.
Qed.

Lemma rank_first_range (i : nat) :
  (i < n)%nat -> 1 <= nth i (rank_first x) 0 <= Z.of_nat n.
Proof.
  intros Hi. rewrite rank_first_nth by assumption.
  assert (H1 := count_eq_firstn_le (nth i x 0) x (S i)).
  assert (H2 := count_lt_eq_length (nth i x 0) x).
  assert (H3 := count_eq_firstn_self x i Hi).
  fold n in H2. lia.
Qed.

Lemma rank_first_injective (i j : nat) :
  (i < n)%nat -> (j < n)%nat ->
  nth i (rank_first x) 0 = nth j (rank_first x) 0 -> i = j.
Proof.
  intros Hi Hj Heq.
  destruct (Z.lt_total (nth i x 0) (nth j x 0)) as [Hlt | [Hxe | Hgt]].
  - assert (H := rank_first_lt i j Hi Hj Hlt). lia.
  - destruct (Nat.lt_total i j) as [Hij | [Hij | Hij]]; [| exact Hij |].
    + assert (H := rank_first_tie i j Hij Hj Hxe). lia.
    + assert (H := rank_first_tie j i Hij Hi (eq_sym Hxe)). lia.
  - assert (H := rank_first_lt j i Hj Hi Hgt). lia.
Qed.

Lemma rank_first_NoDup : NoDup (rank_first x).
Proof.
  apply (NoDup_nth (rank_first x) 0). rewrite rank_first_length.
  intros i j Hi Hj Heq. apply rank_first_injective; assumption.
Qed.

(** The ranks are the integers 1, ..., n, each once. *)
Lemma rank_first_Permutation :
  Permutation (rank_first x) (map Z.of_nat (seq 1 n)).
Proof.
  apply NoDup_Permutation_bis.
  - apply rank_first_NoDup.
  - rewrite length_map, length_seq, rank_first_length. fold n. lia.
  - intros z Hz. destruct (In_nth _ _ 0 Hz) as [i [Hi <-]].
    rewrite rank_first_length in Hi.
    assert (R := rank_first_range i Hi).
    apply in_map_iff. exists (Z.to_nat (nth i (rank_first x) 0)).
    split; [lia |]. apply in_seq. lia.
Qed.
End Ranks.

(* ------------------------------------------------------------------ *)
(** ** Quintiles of the ranks 1, ..., n *)

Lemma Qsorted_unique (l1 l2 : list Q) :
  Qsorted l1 -> Qsorted l2 -> Permutation l1 l2 ->
  (forall a b, In a l1 -> In b l1 -> (a == b)%Q -> a = b) ->
  l1 = l2.
Proof.
  unfold Qsorted. revert l2.
  induction l1 as [| a l1 IH]; intros l2 S1 S2 P Heq.
  - apply Permutation_nil in P. subst. reflexivity.
  - destruct l2 as [| b l2];
      [apply Permutation_sym, Permutation_nil in P; discriminate P |].
    inversion S1 as [| ? ? S1' F1]; subst.
    inversion S2 as [| ? ? S2' F2]; subst.
    rewrite Forall_forall in F1, F2.
    assert (Hb : In b (a :: l1))
      by (apply (Permutation_in _ (Permutation_sym P)); left; reflexivity).
    assert (Ha : In a (b :: l2))
      by (apply (Permutation_in _ P); left; reflexivity).
    assert (Hab : (a <= b)%Q)
      by (destruct Hb as [<- | Hb]; [apply Qle_refl | exact (F1 b Hb)]).
    assert (Hba : (b <= a)%Q)
      by (destruct Ha as [<- | Ha]; [apply Qle_refl | exact (F2 a Ha)]).
    assert (E : a = b).
    { apply Heq; [left; reflexivity | exact Hb | apply Qle_antisym; assumption]. }
    subst b. f_equal. apply IH.
    + exact S1'.
    + exact S2'.
    + exact (Permutation_cons_inv P).
    + intros x y Hx Hy. apply Heq; right; assumption.
Qed.

(** The ranks 1, ..., n as floats. *)
Definition rank_values (n : nat) : list Q :=
  map (fun i => inject_Z (Z.of_nat i)) (seq 1 n).

Lemma rank_values_sorted_from (a len : nat) :
  Qsorted (map (fun i => inject_Z (Z.of_nat i)) (seq a len)).
Proof.
  unfold Qsorted. revert a. induction len as [| len IH]; intros a; simpl.
  - constructor.
  - constructor; [apply IH |].
    apply Forall_forall. intros q Hq. apply in_map_iff in Hq.
    destruct Hq as [i [<- Hi]]. apply in_seq in Hi.
    rewrite <- Zle_Qle. lia.
Qed.

Lemma rank_values_nth (n i : nat) :
  (i < n)%nat -> nth i (rank_values n) 0%Q = inject_Z (Z.of_nat (S i)).
Proof.
  intros Hi. unfold rank_values.
  rewrite (nth_indep _ 0%Q (inject_Z (Z.of_nat 0)))
    by (rewrite length_map, length_seq; exact Hi).
  rewrite (map_nth (fun i => inject_Z (Z.of_nat i))), seq_nth by exact Hi.
  reflexivity.
Qed.

Lemma rank_values_length (n : nat) : List.length (rank_values n) = n.
Proof. unfold rank_values. rewrite length_map, length_seq. reflexivity. Qed.

(** Sorting the ranks of a column gives 1, ..., n. *)
Lemma sort_rank_first (x : list Z) :
  QSort.sort (map inject_Z (rank_first x)) = rank_values (List.length x).
Proof.
  apply Qsorted_unique.
  - apply sort_Qsorted.
  - apply rank_values_sorted_from.
  - eapply Permutation_trans;
      [apply Permutation_sym, QSort.Permuted_sort |].
    unfold rank_values. rewrite <- (map_map Z.of_nat inject_Z).
    apply Permutation_map, rank_first_Permutation.
  - intros a b Ha Hb Hab.
    apply sort_In, in_map_iff in Ha. apply sort_In, in_map_iff in Hb.
    destruct Ha as [za [<- _]]. destruct Hb as [zb [<- _]].
    apply (proj1 (inject_Z_injective za zb)) in Hab. rewrite Hab. reflexivity.
Qed.

Lemma Qle_fifths (r m : Z) : (inject_Z r <= inject_Z m / 5)%Q <-> 5 * r <= m.
Proof.
  assert (H : (inject_Z r <= inject_Z m / 5)%Q <-> r * 5 <= m * 1 * 1)
    by (unfold Qle, Qdiv, Qmult, inject_Z; simpl; reflexivity).
  rewrite H. lia.
Qed.

Lemma Qeq_fifths (r m : Z) : (inject_Z r == inject_Z m / 5)%Q <-> 5 * r = m.
Proof.
  assert (H : (inject_Z r == inject_Z m / 5)%Q <-> r * 5 = m * 1 * 1)
    by (unfold Qeq, Qdiv, Qmult, inject_Z; simpl; reflexivity).
  rewrite H. lia.
Qed.

(** The quantile [k / 5] of the ranks 1, ..., n is [1 + (n - 1) * k / 5]. *)
Lemma quantile_rank_values (n k : nat) :
  (1 <= n)%nat -> (k <= 5)%nat ->
  (quantile (rank_values n) k 5
   == inject_Z (5 + Z.of_nat ((n - 1) * k)) / 5)%Q.
Proof.
  intros Hn Hk. unfold quantile. rewrite rank_values_length.
  set (pos := ((n - 1) * k)%nat).
  assert (Hdm := Nat.div_mod_eq pos 5).
  assert (Hr : (pos mod 5 < 5)%nat) by (apply Nat.mod_upper_bound; lia).
  set (lo := (pos / 5)%nat) in *. set (r := (pos mod 5)%nat) in *.
  assert (Hlo : (lo <= n - 1)%nat) by (unfold pos in Hdm; nia).
  rewrite (rank_values_nth n lo) by lia.
  rewrite (rank_values_nth n (Nat.min (lo + 1) (n - 1))) by lia.
  assert (Hpos : Z.of_nat pos = 5 * Z.of_nat lo + Z.of_nat r) by lia.
  rewrite Hpos.
  destruct (Nat.le_gt_cases (lo + 1) (n - 1)) as [Hin | Hout].
  - rewrite Nat.min_l by exact Hin.
    replace (Z.of_nat (S (lo + 1))) with (Z.of_nat lo + 2) by lia.
    replace (Z.of_nat (S lo)) with (Z.of_nat lo + 1) by lia.
    rewrite !inject_Z_plus, inject_Z_mult. simpl inject_Z. field.
  - rewrite Nat.min_r by lia.
    assert (Hr0 : r = 0%nat) by (unfold pos in Hdm; nia).
    replace (S (n - 1)) with (S lo) by lia.
    rewrite Hr0.
    replace (Z.of_nat (S lo)) with (Z.of_nat lo + 1) by lia.
    rewrite !inject_Z_plus, inject_Z_mult. simpl inject_Z. field.
Qed.

Lemma Qlt_fifths (m m' : Z) :
  (inject_Z m / 5 < inject_Z m' / 5)%Q <-> m < m'.
Proof.
  assert (H : (inject_Z m / 5 < inject_Z m' / 5)%Q <-> m * 1 * 5 < m' * 1 * 5)
    by (unfold Qlt, Qdiv, Qmult, inject_Z; simpl; reflexivity).
  rewrite H. lia.
Qed.

Lemma all_distinct_increasing (l : list Q) :
  StronglySorted Qlt l -> all_distinct l = true.
Proof.
  induction 1 as [| a l _ IH Hall]; simpl; [reflexivity |].
  rewrite IH, andb_true_r. apply negb_true_iff.
  destruct (existsb (Qeq_bool a) l) eqn:E; [| reflexivity].
  apply existsb_exists in E. destruct E as [b [Hb Hab]].
  rewrite Forall_forall in Hall. specialize (Hall b Hb).
  apply Qeq_bool_eq in Hab. lra.
Qed.

Lemma increasing_map_seq (f : nat -> Q) (a len : nat) :
  (forall i j, (a <= i)%nat -> (i < j)%nat -> (j < a + len)%nat ->
               (f i < f j)%Q) ->
  StronglySorted Qlt (map f (seq a len)).
Proof.
  revert a. induction len as [| len IH]; intros a H; simpl; constructor.
  - apply IH. intros i j Hi Hij Hj. apply H; lia.
  - apply Forall_forall. intros q Hq. apply in_map_iff in Hq.
    destruct Hq as [j [<- Hj]]. apply in_seq in Hj. apply H; lia.
Qed.

(** The quintile edges of the ranks 1, ..., n. *)
Definition rank_edges (n : nat) : list Q :=
  map (fun k => quantile (rank_values n) k 5) (seq 0 6).

Lemma dropna_map_Some {A B : Type} (f : A -> B) (l : list A) :
  dropna (map (fun a => Some (f a)) l) = map f l.
Proof. induction l as [| a l IH]; simpl; [| rewrite IH]; reflexivity. Qed.

Lemma quantile_edges_rank_first (x : list Z) :
  quantile_edges (map inject_Z (rank_first x)) 5 = rank_edges (List.length x).
Proof. unfold quantile_edges, rank_edges. rewrite sort_rank_first. reflexivity. Qed.

Lemma rank_edges_distinct (n : nat) :
  (2 <= n)%nat -> all_distinct (rank_edges n) = true.
Proof.
  intros Hn. apply all_distinct_increasing. unfold rank_edges.
  apply increasing_map_seq. intros i j _ Hij Hj.
  rewrite !quantile_rank_values by lia. apply Qlt_fifths. nia.
Qed.

(** The bin of rank [r] among the quintile edges of 1, ..., n, in integer
    arithmetic: the number of edges [1 + (n - 1) * k / 5] below [r]. *)
Definition quintile_of_rank (n : nat) (r : Z) : nat :=
  if r =? 1 then 1%nat
  else List.length
         (filter (fun k => 5 + Z.of_nat ((n - 1) * k) <? 5 * r) (seq 0 6)).

Lemma filter_map_length {A B : Type} (p : B -> bool) (f : A -> B) (l : list A) :
  List.length (filter p (map f l))
  = List.length (filter (fun a => p (f a)) l).
Proof.
  induction l as [| a l IH]; simpl; [reflexivity |].
  destruct (p (f a)); simpl; rewrite IH; reflexivity.
Qed.

Lemma bin_index_rank (n : nat) (r : Z) :
  (1 <= n)%nat ->
  bin_index true (rank_edges n) (inject_Z r) = quintile_of_rank n r.
Proof.
  intros Hn. rewrite bin_index_include_lowest. unfold quintile_of_rank.
  assert (Hhd : Qeq_bool (inject_Z r) (hd 0%Q (rank_edges n)) = (r =? 1)).
  { unfold rank_edges. simpl hd.
    destruct (Z.eqb_spec r 1) as [-> | Hne].
    - apply Qeq_eq_bool. rewrite quantile_rank_values by lia.
      apply Qeq_fifths. lia.
    - destruct (Qeq_bool _ _) eqn:E; [| reflexivity].
      apply Qeq_bool_eq in E. rewrite quantile_rank_values in E by lia.
      apply Qeq_fifths in E. lia. }
  rewrite Hhd. destruct (r =? 1); [reflexivity |].
  unfold searchsorted_left, rank_edges. rewrite filter_map_length.
  f_equal. apply filter_ext_in. intros k Hk. apply in_seq in Hk.
  destruct (Z.ltb_spec (5 + Z.of_nat ((n - 1) * k)) (5 * r)) as [Hlt | Hge].
  - apply negb_true_iff.
    destruct (Qle_bool _ _) eqn:E; [| reflexivity].
    apply Qle_bool_iff in E. rewrite quantile_rank_values in E by lia.
    apply Qle_fifths in E. lia.
  - apply negb_false_iff. apply Qle_bool_iff.
    rewrite quantile_rank_values by lia. apply Qle_fifths. lia.
Qed.

Lemma F_label_of_quintile (i : nat) :
  (1 <= i <= 5)%nat -> nth_error F_labels (i - 1) = Some (Z.of_nat i).
Proof.
  intros H.
  assert (C : i = 1%nat \/ i = 2%nat \/ i = 3%nat \/ i = 4%nat \/ i = 5%nat) by lia.
  destruct C as [-> | [-> | [-> | [-> | ->]]]]; reflexivity.
Qed.

(** The F column of a frequency column with at least two rows: the quintile
    of the rank of each row. *)
Lemma F_column_OK (x : list Z) :
  (2 <= List.length x)%nat ->
  F_column x
  = OK (map (fun r => Some (Z.of_nat (quintile_of_rank (List.length x) r)))
            (rank_first x)).
Proof.
  intros Hn. unfold F_column, qcut.
  rewrite (dropna_map_Some inject_Z).
  assert (Hne : map inject_Z (rank_first x) <> []).
  { intros E. apply (f_equal (@List.length Q)) in E.
    rewrite length_map, rank_first_length in E. simpl in E. lia. }
  destruct (map inject_Z (rank_first x)) as [| q qs] eqn:Evals; [congruence |].
  rewrite <- Evals. rewrite quantile_edges_rank_first.
  assert (Hd := rank_edges_distinct _ Hn). rewrite Hd. simpl orb. cbv iota.
  rewrite map_map. apply f_equal. apply map_ext_in. intros r Hr.
  assert (Hv : In (inject_Z r) (map inject_Z (rank_first x)))
    by (apply in_map; exact Hr).
  rewrite <- quantile_edges_rank_first in Hd |- *.
  rewrite (bins_to_cuts_value (map inject_Z (rank_first x)) 5 (Nat.lt_0_succ 4)
             Hd F_labels (inject_Z r) Hv).
  assert (Rg := bin_index_range (map inject_Z (rank_first x)) 5
                  (Nat.lt_0_succ 4) Hd (inject_Z r) Hv).
  rewrite (F_label_of_quintile _ Rg).
  rewrite quantile_edges_rank_first, bin_index_rank by lia. reflexivity.
Qed.

(* ------------------------------------------------------------------ *)
(** ** Sizes of the five frequency groups *)

(** The ranks that fall in quintile [j] are those in [(lo, hi]]. *)
Definition quintile_hi (n j : nat) : nat := ((n - 1) * j / 5 + 1)%nat.

Definition quintile_lo (n j : nat) : nat :=
  if Nat.eqb j 1 then 0%nat else ((n - 1) * (j - 1) / 5 + 1)%nat.

Lemma quintile_of_rank_interval (n i j : nat) :
  (2 <= n)%nat -> (1 <= i <= n)%nat -> (1 <= j <= 5)%nat ->
  quintile_of_rank n (Z.of_nat i) = j
  <-> (quintile_lo n j < i <= quintile_hi n j)%nat.
Proof.
  intros Hn Hi Hj. unfold quintile_of_rank, quintile_lo, quintile_hi.
  assert (J : j = 1%nat \/ j = 2%nat \/ j = 3%nat \/ j = 4%nat \/ j = 5%nat)
    by lia.
  cbn [seq filter].
  destruct (Z.eqb_spec (Z.of_nat i) 1) as [Hi1 | Hi1].
  - destruct J as [-> | [-> | [-> | [-> | ->]]]]; simpl Nat.eqb; cbv iota; lia.
  - repeat match goal with
           | |- context [?a <? ?b] => destruct (Z.ltb_spec a b)
           end;
      cbn [List.length];
      destruct J as [-> | [-> | [-> | [-> | ->]]]]; simpl Nat.eqb; cbv iota; lia.
Qed.

Lemma filter_none {A : Type} (f : A -> bool) (l : list A) :
  (forall a, In a l -> f a = false) -> filter f l = [].
Proof.
  induction l as [| a l IH]; simpl; intros H; [reflexivity |].
  rewrite (H a (or_introl eq_refl)). apply IH. intros b Hb. apply H. right. exact Hb.
Qed.

Lemma filter_all {A : Type} (f : A -> bool) (l : list A) :
  (forall a, In a l -> f a = true) -> filter f l = l.
Proof.
  intros H. apply forallb_filter_id. apply forallb_forall. exact H.
Qed.

(** Among 1, ..., n there are [hi - lo] integers in [(lo, hi]]. *)
Lemma count_interval (lo hi n : nat) :
  (lo <= hi)%nat -> (hi <= n)%nat ->
  List.length (filter (fun i => Nat.ltb lo i && Nat.leb i hi) (seq 1 n))
  = (hi - lo)%nat.
Proof.
  intros Hlo Hhi.
  replace n with (lo + ((hi - lo) + (n - hi)))%nat at 1 by lia.
  rewrite !seq_app, !filter_app, !length_app.
  rewrite (filter_none _ (seq 1 lo)).
  - rewrite (filter_all _ (seq (1 + lo) (hi - lo))).
    + rewrite (filter_none _ (seq (1 + lo + (hi - lo)) (n - hi))).
      * rewrite length_seq. simpl. lia.
      * intros i Hi. apply in_seq in Hi. apply andb_false_iff. right.
        apply Nat.leb_gt. lia.
    + intros i Hi. apply in_seq in Hi. apply andb_true_iff. split.
      * apply Nat.ltb_lt. lia.
      * apply Nat.leb_le. lia.
  - intros i Hi. apply in_seq in Hi. apply andb_false_iff. left.
    apply Nat.ltb_ge. lia.
Qed.

Lemma count_occ_map_filter (f : nat -> Z) (l : list nat) (j : Z) :
  count_occ Z.eq_dec (map f l) j = List.length (filter (fun i => f i =? j) l).
Proof.
  induction l as [| a l IH]; simpl; [reflexivity |].
  destruct (Z.eq_dec (f a) j) as [E | E].
  - rewrite (proj2 (Z.eqb_eq _ _) E). simpl. rewrite IH. reflexivity.
  - rewrite (proj2 (Z.eqb_neq _ _) E). exact IH.
Qed.

(** The F score of a rank. *)
Definition F_of_rank (n : nat) (r : Z) : Z := Z.of_nat (quintile_of_rank n r).

(** The number of rows that get the score [j]. *)
Lemma F_group_size (x : list Z) (j : nat) :
  (2 <= List.length x)%nat -> (1 <= j <= 5)%nat ->
  count_occ Z.eq_dec (map (F_of_rank (List.length x)) (rank_first x))
    (Z.of_nat j)
  = (quintile_hi (List.length x) j - quintile_lo (List.length x) j)%nat.
Proof.
  intros Hn Hj. set (n := List.length x) in *.
  assert (P : Permutation (map (F_of_rank n) (rank_first x))
                (map (F_of_rank n) (map Z.of_nat (seq 1 n))))
    by (apply Permutation_map, rank_first_Permutation).
  rewrite (proj1 (Permutation_count_occ Z.eq_dec _ _) P (Z.of_nat j)).
  rewrite map_map, count_occ_map_filter.
  rewrite <- (count_interval (quintile_lo n j) (quintile_hi n j) n).
  - f_equal. apply filter_ext_in. intros i Hi. apply in_seq in Hi.
    assert (Hiff := quintile_of_rank_interval n i j Hn).
    unfold F_of_rank.
    destruct (Z.eqb_spec (Z.of_nat (quintile_of_rank n (Z.of_nat i)))
                (Z.of_nat j)) as [E | E].
    + symmetry. apply andb_true_iff.
      rewrite Nat.ltb_lt, Nat.leb_le. apply Hiff; lia.
    + symmetry. apply not_true_iff_false. intros Hb.
      apply andb_true_iff in Hb. rewrite Nat.ltb_lt, Nat.leb_le in Hb.
      apply Hiff in Hb; lia.
  - unfold quintile_lo, quintile_hi.
    assert (Hm : ((n - 1) * (j - 1) <= (n - 1) * j)%nat) by nia.
    destruct (Nat.eqb_spec j 1); lia.
  - unfold quintile_hi.
    assert (Hm : ((n - 1) * j <= (n - 1) * 5)%nat) by nia. lia.
Qed.

Lemma F_group_sizes_balanced (n j j' : nat) :
  (5 <= n)%nat -> (1 <= j <= 5)%nat -> (1 <= j' <= 5)%nat ->
  (1 <= quintile_hi n j - quintile_lo n j)%nat
  /\ (quintile_hi n j - quintile_lo n j
      <= quintile_hi n j' - quintile_lo n j' + 1)%nat.
Proof.
  intros Hn Hj Hj'. unfold quintile_hi, quintile_lo.
  assert (J : j = 1%nat \/ j = 2%nat \/ j = 3%nat \/ j = 4%nat \/ j = 5%nat)
    by lia.
  assert (J' : j' = 1%nat \/ j' = 2%nat \/ j' = 3%nat \/ j' = 4%nat \/ j' = 5%nat)
    by lia.
  destruct J as [-> | [-> | [-> | [-> | ->]]]];
    destruct J' as [-> | [-> | [-> | [-> | ->]]]];
    simpl Nat.eqb; cbv iota; lia.
Qed.

Lemma filter_length_mono {A : Type} (p q : A -> bool) (l : list A) :
  (forall a, In a l -> p a = true -> q a = true) ->
  (List.length (filter p l) <= List.length (filter q l))%nat.
Proof.
  induction l as [| a l IH]; simpl; intros H; [lia |].
  assert (IH' := IH (fun b Hb => H b (or_intror Hb))).
  assert (Ha := H a (or_introl eq_refl)).
  destruct (p a); [rewrite (Ha eq_refl) |]; simpl; [lia |].
  destruct (q a); simpl; lia.
Qed.

Lemma quintile_of_rank_mono (n : nat) (r r' : Z) :
  1 <= r <= r' -> (quintile_of_rank n r <= quintile_of_rank n r')%nat.
Proof.
  intros Hr. unfold quintile_of_rank.
  destruct (Z.eqb_spec r 1) as [E | E], (Z.eqb_spec r' 1) as [E' | E'];
    try lia.
  - cbn [seq filter].
    destruct (Z.ltb_spec (5 + Z.of_nat ((n - 1) * 0)) (5 * r')); [| lia].
    cbn [List.length]. lia.
  - apply filter_length_mono. intros k _ Hk.
    apply Z.ltb_lt in Hk. apply Z.ltb_lt. lia.
Qed.

Lemma quintile_of_rank_first (n : nat) : quintile_of_rank n 1 = 1%nat.
Proof. reflexivity. Qed.

Lemma quintile_of_rank_last (n : nat) :
  (2 <= n)%nat -> quintile_of_rank n (Z.of_nat n) = 5%nat.
Proof.
  intros Hn. apply quintile_of_rank_interval; try lia.
  unfold quintile_lo, quintile_hi. simpl Nat.eqb. cbv iota. lia.
Qed.

Lemma nth_map_F (n : nat) (ranks : list Z) (i : nat) :
  (i < List.length ranks)%nat ->
  nth i (map (F_of_rank n) ranks) 0 = F_of_rank n (nth i ranks 0).
Proof.
  intros Hi.
  rewrite (nth_indep _ 0 (F_of_rank n 0)) by (rewrite length_map; exact Hi).
  apply map_nth.
Qed.

(** The ranks of a frequency column are stable: among equal frequencies the
    earlier row has the lower rank, so the ranks of n rows are the n distinct
    integers 1, ..., n.  For n >= 5 their quintile binning never fails and
    yields five groups, none empty, whose sizes differ by at most one (edges
    in exact arithmetic); a higher frequency never gets a lower score, rank 1
    gets score 1 and rank n gets score 5. *)
Lemma F_column_ranks_then_quintiles (frequency_col : list Z) :
  (5 <= List.length frequency_col)%nat ->
  let n := List.length frequency_col in
  let ranks := rank_first frequency_col in
  Permutation ranks (map Z.of_nat (seq 1 n))
  /\ NoDup ranks
  /\ (forall i j, (i < j)%nat -> (j < n)%nat ->
        nth i frequency_col 0 = nth j frequency_col 0 ->
        nth i ranks 0 < nth j ranks 0)
  /\ (forall i j, (i < n)%nat -> (j < n)%nat ->
        nth i frequency_col 0 < nth j frequency_col 0 ->
        nth i ranks 0 < nth j ranks 0)
  /\ exists scores : list Z,
       F_column frequency_col = OK (map (@Some Z) scores)
       /\ List.length scores = n
       /\ (forall j, 1 <= j <= 5 -> (1 <= count_occ Z.eq_dec scores j)%nat)
       /\ (forall j j', 1 <= j <= 5 -> 1 <= j' <= 5 ->
             (count_occ Z.eq_dec scores j
              <= count_occ Z.eq_dec scores j' + 1)%nat)
       /\ (forall i j, (i < n)%nat -> (j < n)%nat ->
             nth i frequency_col 0 < nth j frequency_col 0 ->
             nth i scores 0 <= nth j scores 0)
       /\ (forall i, (i < n)%nat ->
             (nth i ranks 0 = 1 -> nth i scores 0 = 1)
             /\ (nth i ranks 0 = Z.of_nat n -> nth i scores 0 = 5)).
Proof.
  intros Hn n ranks.
  assert (Hn2 : (2 <= n)%nat) by (unfold n; lia).
  split; [apply rank_first_Permutation |].
  split; [apply rank_first_NoDup |].
  split; [intros i j Hij Hj Heq; apply rank_first_tie; assumption |].
  split; [intros i j Hi Hj Hlt; apply rank_first_lt; assumption |].
  exists (map (F_of_rank n) ranks).
  assert (Hlen : List.length ranks = n) by apply rank_first_length.
  assert (Hsize : forall j, 1 <= j <= 5 ->
            count_occ Z.eq_dec (map (F_of_rank n) ranks) j
            = (quintile_hi n (Z.to_nat j) - quintile_lo n (Z.to_nat j))%nat).
  { intros j Hj. rewrite <- (Z2Nat.id j) at 1 by lia.
    apply F_group_size; [exact Hn2 | lia]. }
  split; [| split; [| split; [| split; [| split]]]].
  - rewrite map_map. apply F_column_OK. exact Hn2.
  - rewrite length_map. exact Hlen.
  - intros j Hj. rewrite (Hsize j Hj).
    apply (F_group_sizes_balanced n (Z.to_nat j) (Z.to_nat j)); unfold n; lia.
  - intros j j' Hj Hj'. rewrite (Hsize j Hj), (Hsize j' Hj').
    apply (F_group_sizes_balanced n (Z.to_nat j) (Z.to_nat j')); unfold n; lia.
  - intros i j Hi Hj Hlt.
    rewrite !nth_map_F by (rewrite Hlen; assumption).
    assert (Hr := rank_first_lt frequency_col i j Hi Hj Hlt).
    assert (Ri := rank_first_range frequency_col i Hi).
    unfold F_of_rank. apply inj_le. apply quintile_of_rank_mono.
    fold ranks in Hr, Ri. lia.
  - intros i Hi. rewrite nth_map_F by (rewrite Hlen; exact Hi).
    unfold F_of_rank. split; intros ->.
    + rewrite quintile_of_rank_first. reflexivity.
    + rewrite quintile_of_rank_last by exact Hn2. reflexivity.
Qed.

Example F_scores_of_tied_frequencies :
  rank_first [1; 1; 2; 1; 1; 1; 3] = [1; 2; 6; 3; 4; 5; 7]
  /\ F_column [1; 1; 2; 1; 1; 1; 3]
     = OK [Some 1; Some 1; Some 5; Some 2; Some 3; Some 4; Some 5]
  /\ qcut (map (fun z => Some (inject_Z z)) [1; 1; 2; 1; 1; 1; 3]) 5 F_labels
     = Raise bin_edges_error.
Proof. repeat split; vm_compute; reflexivity. Qed.

(* ================================================================== *)
(** * Churn label, recency and F score, customer by customer *)

(** ** The latest purchase of a table and of a customer *)

Lemma fold_left_max_spec (l : list Z) (a : Z) :
  In (fold_left Z.max l a) (a :: l)
  /\ forall x, In x (a :: l) -> x <= fold_left Z.max l a.
Proof.
  revert a. induction l as [| b l IH]; intros a; simpl.
  - split; [left; reflexivity | intros x [<- | []]; lia].
  - destruct (IH (Z.max a b)) as [Hin Hle]. split.
    + destruct Hin as [Hin | Hin]; [| right; right; exact Hin].
      rewrite <- Hin. destruct (Z.max_spec a b) as [[_ ->] | [_ ->]]; auto.
    + intros x [Hx | [Hx | Hx]].
      * subst x. specialize (Hle (Z.max a b) (or_introl eq_refl)). lia.
      * subst x. specialize (Hle (Z.max a b) (or_introl eq_refl)). lia.
      * apply Hle. right. exact Hx.
Qed.

Lemma max_skipna_spec (l : list (option Z)) (m : Z) :
  max_skipna l = Some m ->
  In (Some m) l /\ forall x, In (Some x) l -> x <= m.
Proof.
  unfold max_skipna, zmax_list.
  destruct (dropna l) as [| a vals] eqn:E; [discriminate |].
  intros H. inversion H; subst m; clear H.
  destruct (fold_left_max_spec vals a) as [Hin Hle].
  rewrite <- E in Hin, Hle. split.
  - apply in_dropna. exact Hin.
  - intros x Hx. apply Hle. apply in_dropna. exact Hx.
Qed.

Lemma max_skipna_None (l : list (option Z)) (x : Z) :
  max_skipna l = None -> ~ In (Some x) l.
Proof.
  unfold max_skipna, zmax_list. intros H Hin. apply in_dropna in Hin.
  destruct (dropna l); [contradiction | discriminate].
Qed.

Lemma max_skipna_complete (l : list (option Z)) (m : Z) :
  In (Some m) l -> (forall x, In (Some x) l -> x <= m) -> max_skipna l = Some m.
Proof.
  intros Hin Hle. destruct (max_skipna l) as [m' |] eqn:E.
  - destruct (max_skipna_spec _ _ E) as [Hin' Hle'].
    f_equal. specialize (Hle m' Hin'). specialize (Hle' m Hin). lia.
  - exfalso. exact (max_skipna_None _ m E Hin).
Qed.

(** [t] is the latest purchase timestamp among the rows of [df] that
    satisfy [P]: some such row has it, and none has a later one. *)
Definition latest_among (df : list SilverRow) (P : SilverRow -> Prop) (t : Z)
  : Prop :=
  (exists o, In o df /\ P o /\ s_purchase o = Some t)
  /\ forall o t', In o df -> P o -> s_purchase o = Some t' -> t' <= t.

(** The latest purchase timestamp of the whole table. *)
Definition table_latest (df : list SilverRow) (e : Z) : Prop :=
  latest_among df (fun _ => True) e.

(** The latest purchase timestamp of the customer [uid]. *)
Definition customer_latest (df : list SilverRow) (uid : string) (t : Z)
  : Prop :=
  latest_among df (fun o => s_customer_unique_id o = Some uid) t.

(** [d] is the number of whole days in a duration of [delta] nanoseconds. *)
Definition whole_days (delta d : Z) : Prop :=
  d * ns_per_day <= delta < (d + 1) * ns_per_day.

Lemma latest_among_unique (df : list SilverRow) (P : SilverRow -> Prop)
    (t t' : Z) :
  latest_among df P t -> latest_among df P t' -> t = t'.
Proof.
  intros [[o [Ho [HP Ht]]] Hle] [[o' [Ho' [HP' Ht']]] Hle'].
  specialize (Hle o' t' Ho' HP' Ht'). specialize (Hle' o t Ho HP Ht). lia.
Qed.

Lemma table_latest_iff (df : list SilverRow) (e : Z) :
  max_skipna (map s_purchase df) = Some e <-> table_latest df e.
Proof.
  unfold table_latest, latest_among. split.
  - intros H. destruct (max_skipna_spec _ _ H) as [Hin Hle]. split.
    + apply in_map_iff in Hin. destruct Hin as [o [Ht Ho]]. exists o. auto.
    + intros o t' Ho _ Ht'. apply Hle. rewrite <- Ht'. apply in_map. exact Ho.
  - intros [[o [Ho [_ Ht]]] Hle]. apply max_skipna_complete.
    + rewrite <- Ht. apply in_map. exact Ho.
    + intros x Hx. apply in_map_iff in Hx. destruct Hx as [o' [Ht' Ho']].
      exact (Hle o' x Ho' I Ht').
Qed.

Lemma group_rows_In {Row : Type} (key : Row -> option string) (df : list Row)
    (k : string) (r : Row) :
  In r (group_rows key df k) <-> In r df /\ key r = Some k.
Proof.
  unfold group_rows. rewrite filter_In, key_eqb_eq. reflexivity.
Qed.

Lemma customer_latest_iff (df : list SilverRow) (uid : string) (t : Z) :
  latest_purchase df uid = Some t <-> customer_latest df uid t.
Proof.
  unfold latest_purchase, customer_latest, latest_among. split.
  - intros H. destruct (max_skipna_spec _ _ H) as [Hin Hle]. split.
    + apply in_map_iff in Hin. destruct Hin as [o [Ht Ho]].
      apply group_rows_In in Ho. exists o. tauto.
    + intros o t' Ho Hk Ht'. apply Hle. rewrite <- Ht'. apply in_map.
      apply group_rows_In. auto.
  - intros [[o [Ho [Hk Ht]]] Hle]. apply max_skipna_complete.
    + rewrite <- Ht. apply in_map. apply group_rows_In. auto.
    + intros x Hx. apply in_map_iff in Hx. destruct Hx as [o' [Ht' Ho']].
      apply group_rows_In in Ho'. destruct Ho' as [Ho' Hk'].
      exact (Hle o' x Ho' Hk' Ht').
Qed.

Lemma div_floor_iff (n delta d : Z) :
  0 < n -> (delta / n = d <-> d * n <= delta < (d + 1) * n).
Proof.
  intros Hn. split.
  - intros <-.
    assert (H1 := Z.mul_div_le delta n Hn).
    assert (H2 := Z.mul_succ_div_gt delta n Hn).
    rewrite (Z.mul_comm n) in H1. rewrite (Z.mul_comm n) in H2.
    unfold Z.succ in H2. lia.
  - intros H. symmetry.
    apply (Z.div_unique delta n d (delta - d * n)); lia.
Qed.

Lemma ns_per_day_pos : 0 < ns_per_day.
Proof. reflexivity. Qed.

Lemma whole_days_iff (delta d : Z) :
  whole_days delta d <-> timedelta_days delta = d.
Proof.
  unfold whole_days, timedelta_days. symmetry.
  apply div_floor_iff. exact ns_per_day_pos.
Qed.

Lemma whole_days_unique (delta d d' : Z) :
  whole_days delta d -> whole_days delta d' -> d = d'.
Proof. rewrite !whole_days_iff. congruence. Qed.

(* ------------------------------------------------------------------ *)
(** ** Rows kept by the merges *)

Section MergeKeeps.
Variables Row Right Out : Type.
Variable kl : Row -> option string.
Variable kr : Right -> option string.

(** A left merge keeps every row of the left frame at least once. *)
Lemma merge_left_keeps (combine : Row -> option Right -> Out)
    (left : list Row) (right : list Right) (a : Row) :
  In a left ->
  exists ob, In (combine a ob) (merge_left kl kr combine left right).
Proof.
  intros Ha. unfold merge_left.
  destruct (filter (fun b => key_eqb (kl a) (kr b)) right) as [| m ms] eqn:E.
  - exists None. apply in_flat_map. exists a. split; [exact Ha |].
    rewrite E. left. reflexivity.
  - exists (Some m). apply in_flat_map. exists a. split; [exact Ha |].
    rewrite E. left. reflexivity.
Qed.

(** An inner merge keeps every pair of rows with the same key. *)
Lemma merge_inner_keeps (combine : Row -> Right -> Out)
    (left : list Row) (right : list Right) (a : Row) (b : Right) :
  In a left -> In b right -> kl a = kr b ->
  In (combine a b) (merge_inner kl kr combine left right).
Proof.
  intros Ha Hb Hk. unfold merge_inner. apply in_flat_map.
  exists a. split; [exact Ha |]. apply in_map. apply filter_In.
  split; [exact Hb | apply key_eqb_eq; exact Hk].
Qed.
End MergeKeeps.

(** The churn feature table has a row for a customer exactly when the
    silver orders table has a row with that customer. *)
Lemma churn_dataset_customers (silver_orders : list SilverRow)
    (customers_tbl : list CustomerSummary) (rfm : list RFM) (uid : string) :
  (exists o, In o silver_orders /\ s_customer_unique_id o = Some uid)
  <-> exists r, In r (churn_dataset silver_orders customers_tbl rfm)
                /\ cr_customer_unique_id r = uid.
Proof.
  rewrite <- group_keys_In. split.
  - intros Hk.
    assert (Hf : In uid (map cf_customer_unique_id
                           (cust_features silver_orders)))
      by (rewrite cust_features_keys; exact Hk).
    assert (Hl : In uid (map lo_customer_unique_id
                           (last_order_table silver_orders)))
      by (rewrite last_order_table_keys; exact Hk).
    apply in_map_iff in Hf. destruct Hf as [f [Hfk Hf]].
    apply in_map_iff in Hl. destruct Hl as [l [Hlk Hl]].
    unfold churn_dataset.
    destruct (merge_left_keeps _ _ _
                (fun f => Some (cf_customer_unique_id f))
                (fun c => Some (cs_customer_unique_id c))
                (fun f c => (f, c))
                (cust_features silver_orders) customers_tbl f Hf) as [c H1].
    destruct (merge_left_keeps _ _ _
                (fun x => Some (cf_customer_unique_id (fst x)))
                (fun r => Some (rfm_customer_unique_id r))
                (fun x r => (x, r)) _ rfm (f, c) H1) as [m H2].
    eexists. split.
    + apply (merge_inner_keeps _ _ _
               (fun x => Some (cf_customer_unique_id (fst (fst x))))
               (fun l => Some (lo_customer_unique_id l)) _ _ _ (f, c, m) l
               H2 Hl).
      simpl. congruence.
    + exact Hfk.
  - intros [r [Hr Hid]].
    destruct (churn_dataset_row _ _ _ _ Hr) as [l [Hl [Hk _]]].
    rewrite <- last_order_table_keys. apply in_map_iff.
    exists l. split; [congruence | exact Hl].
Qed.

Lemma churn_dataset_label (silver_orders : list SilverRow)
    (customers_tbl : list CustomerSummary) (rfm : list RFM) (r : ChurnRow) :
  In r (churn_dataset silver_orders customers_tbl rfm) ->
  cr_churn r
  = churn_of (days_between (max_skipna (map s_purchase silver_orders))
                (latest_purchase silver_orders (cr_customer_unique_id r))).
Proof.
  intros H.
  destruct (churn_dataset_row _ _ _ _ H) as [l [Hl [Hk Hc]]].
  destruct (last_order_table_row _ _ Hl) as [Hd Hch].
  rewrite Hc, Hch, Hd, Hk. reflexivity.
Qed.

Lemma churn_of_days (e t : Z) :
  churn_of (days_between (Some e) (Some t)) = 1 <-> 91 * ns_per_day <= e - t.
Proof.
  unfold days_between, churn_of.
  assert (Hf := proj2 (whole_days_iff (e - t) _) eq_refl).
  unfold whole_days in Hf. assert (Hp := ns_per_day_pos).
  generalize dependent (timedelta_days (e - t)). intros d Hf.
  generalize dependent ns_per_day. intros n Hp Hf.
  destruct (Z.ltb_spec 90 d) as [Hlt | Hge].
  - split; [intros _ | reflexivity]. nia.
  - split; [discriminate |]. intros H. exfalso. nia.
Qed.

(** C3. The churn feature table has a row for every customer of the silver
    orders table, and only for them.  In the row of a customer, [churn] is 0
    or 1, and it is 1 exactly when the customer has a purchase timestamp and
    the whole days from the latest of them to the latest purchase timestamp
    of the whole table (whichever customer it belongs to) are more than 90:
    that is, when the two lie at least 91 times 24 hours apart.  A last order
    exactly 90 days before the end of the table gives 0, and so does one 90
    days and 23 hours before it; exactly 91 days gives 1. *)
Theorem churn_iff_more_than_90_days (silver_orders : list SilverRow)
    (customers_tbl : list CustomerSummary) (rfm : list RFM) :
  let table := churn_dataset silver_orders customers_tbl rfm in
  (forall uid,
     (exists o, In o silver_orders /\ s_customer_unique_id o = Some uid)
     <-> exists r, In r table /\ cr_customer_unique_id r = uid)
  /\ forall r, In r table ->
       (cr_churn r = 0 \/ cr_churn r = 1)
       /\ (cr_churn r = 1 <->
           exists e t d,
             table_latest silver_orders e
             /\ customer_latest silver_orders (cr_customer_unique_id r) t
             /\ whole_days (e - t) d /\ 90 < d)
       /\ forall e t,
            table_latest silver_orders e ->
            customer_latest silver_orders (cr_customer_unique_id r) t ->
            (cr_churn r = 1 <-> 91 * ns_per_day <= e - t)
            /\ (e - t = 90 * ns_per_day -> cr_churn r = 0)
            /\ (e - t = 91 * ns_per_day -> cr_churn r = 1).
Proof.
  intros table. split; [apply churn_dataset_customers |].
  intros r Hr. unfold table in Hr.
  rewrite (churn_dataset_label _ _ _ _ Hr).
  set (uid := cr_customer_unique_id r).
  assert (Hpin : forall e t,
            table_latest silver_orders e ->
            customer_latest silver_orders uid t ->
            max_skipna (map s_purchase silver_orders) = Some e
            /\ latest_purchase silver_orders uid = Some t).
  { intros e t He Ht. split;
      [apply table_latest_iff; exact He
      | apply customer_latest_iff; exact Ht]. }
  split; [| split].
  - destruct (churn_of_spec
                (days_between (max_skipna (map s_purchase silver_orders))
                   (latest_purchase silver_orders uid))) as [_ [H | H]]; auto.
  - split.
    + intros H.
      destruct (max_skipna (map s_purchase silver_orders)) as [e |] eqn:Ee;
        [| discriminate H].
      destruct (latest_purchase silver_orders uid) as [t |] eqn:Et;
        [| discriminate H].
      exists e, t, (timedelta_days (e - t)).
      split; [apply table_latest_iff; exact Ee |].
      split; [apply customer_latest_iff; exact Et |].
      split; [apply whole_days_iff; reflexivity |].
      apply churn_of_days in H. unfold timedelta_days.
      apply Z.div_le_lower_bound with (b := ns_per_day) (q := 91) in H;
        [lia | exact ns_per_day_pos].
    + intros [e [t [d [He [Ht [Hd Hlt]]]]]].
      destruct (Hpin e t He Ht) as [-> ->].
      apply churn_of_days. unfold whole_days in Hd.
      assert (Hp := ns_per_day_pos). nia.
  - intros e t He Ht. destruct (Hpin e t He Ht) as [-> ->].
    split; [apply churn_of_days |].
    assert (Hp := ns_per_day_pos).
    split; intros Hdiff.
    + destruct (churn_of_spec (days_between (Some e) (Some t)))
        as [_ [H | H]]; [exact H |].
      apply churn_of_days in H. lia.
    + apply churn_of_days. lia.
Qed.

(** Seven customers whose purchases fall at different hours of the day.  The
    latest delivered purchase is that of [uE], on day 91 at 10:00; [uD]
    ordered twice; the order of day 200 was canceled and is in no silver
    row. *)
Definition mk_order_at (oid cid status : string) (d h : Z) : Order :=
  {| order_id := Some oid; customer_id := Some cid; order_status := Some status;
     order_purchase_timestamp := at_day d h;
     order_delivered_customer_date := at_day (d + 3) 18 |}.

Definition bronze_clock : Bronze :=
  {| orders :=
       [ mk_order_at "o1" "k1" "delivered" 0 9;
         mk_order_at "o2" "k2" "delivered" 0 11;
         mk_order_at "o3" "k3" "delivered" 1 10;
         mk_order_at "o4" "k4" "delivered" (-20) 10;
         mk_order_at "o5" "k5" "delivered" 40 15;
         mk_order_at "o6" "k6" "delivered" 91 10;
         mk_order_at "o7" "k7" "delivered" 0 10;
         mk_order_at "o8" "k8" "delivered" 72 22;
         mk_order_at "o9" "k9" "canceled" 200 10 ]%string;
     customers :=
       [ mk_customer "k1" "uA"; mk_customer "k2" "uB"; mk_customer "k3" "uC";
         mk_customer "k4" "uD"; mk_customer "k5" "uD"; mk_customer "k6" "uE";
         mk_customer "k7" "uF"; mk_customer "k8" "uG";
         mk_customer "k9" "uA" ]%string;
     order_items :=
       [ mk_item "o1" 1 10 1; mk_item "o2" 1 20 2; mk_item "o3" 1 30 3;
         mk_item "o4" 1 40 4; mk_item "o5" 1 5 1; mk_item "o6" 1 50 5;
         mk_item "o7" 1 60 6; mk_item "o8" 1 70 7; mk_item "o9" 1 99 9 ]%string;
     payments :=
       [ mk_payment "o1" "boleto" 11; mk_payment "o2" "credit_card" 22;
         mk_payment "o3" "credit_card" 33; mk_payment "o4" "credit_card" 44;
         mk_payment "o5" "voucher" 6; mk_payment "o6" "credit_card" 55;
         mk_payment "o7" "credit_card" 66;
         mk_payment "o8" "credit_card" 77 ]%string;
     reviews :=
       [ mk_review "o1" 5; mk_review "o2" 4; mk_review "o6" 3 ]%string |}.

Definition silver_clock : Silver :=
  match run bronze_clock with
  | OK s => s
  | Raise _ => empty_silver
  end.

Example run_bronze_clock : run bronze_clock = OK silver_clock.
Proof. vm_compute. reflexivity. Qed.

Example silver_clock_latest_purchases :
  max_skipna (map s_purchase (orders_silver silver_clock)) = at_day 91 10
  /\ map (fun uid => (uid, latest_purchase (orders_silver silver_clock) uid))
         (group_keys s_customer_unique_id (orders_silver silver_clock))
     = [ ("uA", at_day 0 9); ("uB", at_day 0 11); ("uC", at_day 1 10);
         ("uD", at_day 40 15); ("uE", at_day 91 10); ("uF", at_day 0 10);
         ("uG", at_day 72 22) ]%string.
Proof. split; vm_compute; reflexivity. Qed.

Example churn_clock_rows :
  map (fun r => (cr_customer_unique_id r, cr_churn r))
      (churn_features_of silver_clock)
  = [ ("uA", 1); ("uB", 0); ("uC", 0); ("uD", 0); ("uE", 0); ("uF", 1);
      ("uG", 0) ]%string.
Proof. vm_compute. reflexivity. Qed.

Lemma in_group_keys_clock (uid : string) :
  In uid ["uA"; "uB"; "uC"; "uD"; "uE"; "uF"; "uG"]%string ->
  exists o, In o (orders_silver silver_clock)
            /\ s_customer_unique_id o = Some uid.
Proof.
  intros H. apply group_keys_In.
  assert (E : group_keys s_customer_unique_id (orders_silver silver_clock)
              = ["uA"; "uB"; "uC"; "uD"; "uE"; "uF"; "uG"]%string)
    by (vm_compute; reflexivity).
  rewrite E. exact H.
Qed.

Lemma table_latest_clock (e : Z) :
  at_day 91 10 = Some e -> table_latest (orders_silver silver_clock) e.
Proof.
  intros H. apply table_latest_iff. rewrite <- H. vm_compute. reflexivity.
Qed.

Lemma customer_latest_clock (uid : string) (d h t : Z) :
  latest_purchase (orders_silver silver_clock) uid = at_day d h ->
  at_day d h = Some t ->
  customer_latest (orders_silver silver_clock) uid t.
Proof. intros H Ht. apply customer_latest_iff. rewrite H. exact Ht. Qed.

Lemma churn_iff_more_than_90_days_witness :
  (* 91 days and one hour before the end of the table *)
  (exists r, In r (churn_features_of silver_clock)
     /\ cr_customer_unique_id r = "uA"%string /\ cr_churn r = 1)
  (* 90 days and 23 hours *)
  /\ (exists r, In r (churn_features_of silver_clock)
        /\ cr_customer_unique_id r = "uB"%string /\ cr_churn r = 0)
  (* exactly 90 days *)
  /\ (exists r, In r (churn_features_of silver_clock)
        /\ cr_customer_unique_id r = "uC"%string /\ cr_churn r = 0)
  (* two orders, the earlier 111 days before the end, the later 50 days *)
  /\ (exists r, In r (churn_features_of silver_clock)
        /\ cr_customer_unique_id r = "uD"%string /\ cr_churn r = 0)
  (* exactly 91 days *)
  /\ (exists r, In r (churn_features_of silver_clock)
        /\ cr_customer_unique_id r = "uF"%string /\ cr_churn r = 1).
Proof.
  unfold churn_features_of.
  destruct (churn_iff_more_than_90_days (orders_silver silver_clock)
              (customers_silver silver_clock) (rfm_table silver_clock))
    as [Hrows Hlabel].
  set (table := churn_dataset (orders_silver silver_clock)
                  (customers_silver silver_clock) (rfm_table silver_clock))
    in *.
  assert (Hrow : forall uid d h t,
            In uid ["uA"; "uB"; "uC"; "uD"; "uE"; "uF"; "uG"]%string ->
            latest_purchase (orders_silver silver_clock) uid = at_day d h ->
            at_day d h = Some t ->
            exists r e, In r table /\ cr_customer_unique_id r = uid
              /\ at_day 91 10 = Some e
              /\ (cr_churn r = 0 \/ cr_churn r = 1)
              /\ (cr_churn r = 1 <-> 91 * ns_per_day <= e - t)).
  { intros uid d h t Hin Hl Ht.
    destruct (proj1 (Hrows uid) (in_group_keys_clock uid Hin)) as [r [Hr Hid]].
    exists r. eexists. split; [exact Hr |]. split; [exact Hid |].
    split; [reflexivity |].
    destruct (Hlabel r Hr) as [Hbool [_ Hpin]].
    split; [exact Hbool |]. rewrite Hid in Hpin.
    apply (Hpin _ t (table_latest_clock _ eq_refl)
             (customer_latest_clock uid d h t Hl Ht)). }
  assert (Hin : forall uid,
            existsb (String.eqb uid)
              ["uA"; "uB"; "uC"; "uD"; "uE"; "uF"; "uG"]%string = true ->
            In uid ["uA"; "uB"; "uC"; "uD"; "uE"; "uF"; "uG"]%string).
  { intros uid H. apply existsb_exists in H. destruct H as [x [Hx E]].
    apply String.eqb_eq in E. subst x. exact Hx. }
  repeat split.
  - destruct (Hrow "uA"%string 0 9 _ (Hin "uA"%string eq_refl)
                ltac:(vm_compute; reflexivity) eq_refl)
      as [r [e [Hr [Hid [He [_ Hiff]]]]]].
    exists r. split; [exact Hr |]. split; [exact Hid |].
    apply Hiff. inversion He. vm_compute. discriminate.
  - destruct (Hrow "uB"%string 0 11 _ (Hin "uB"%string eq_refl)
                ltac:(vm_compute; reflexivity) eq_refl)
      as [r [e [Hr [Hid [He [[H0 | H1] Hiff]]]]]];
      exists r; (split; [exact Hr |]); (split; [exact Hid |]);
      [exact H0 |].
    exfalso. apply Hiff in H1. inversion He; subst e. vm_compute in H1.
    apply H1. reflexivity.
  - destruct (Hrow "uC"%string 1 10 _ (Hin "uC"%string eq_refl)
                ltac:(vm_compute; reflexivity) eq_refl)
      as [r [e [Hr [Hid [He [[H0 | H1] Hiff]]]]]];
      exists r; (split; [exact Hr |]); (split; [exact Hid |]);
      [exact H0 |].
    exfalso. apply Hiff in H1. inversion He; subst e. vm_compute in H1.
    apply H1. reflexivity.
  - destruct (Hrow "uD"%string 40 15 _ (Hin "uD"%string eq_refl)
                ltac:(vm_compute; reflexivity) eq_refl)
      as [r [e [Hr [Hid [He [[H0 | H1] Hiff]]]]]];
      exists r; (split; [exact Hr |]); (split; [exact Hid |]);
      [exact H0 |].
    exfalso. apply Hiff in H1. inversion He; subst e. vm_compute in H1.
    apply H1. reflexivity.
  - destruct (Hrow "uF"%string 0 10 _ (Hin "uF"%string eq_refl)
                ltac:(vm_compute; reflexivity) eq_refl)
      as [r [e [Hr [Hid [He [_ Hiff]]]]]].
    exists r. split; [exact Hr |]. split; [exact Hid |].
    apply Hiff. inversion He. vm_compute. discriminate.
Defined.

(* ------------------------------------------------------------------ *)
(** ** Recency and the inverted R score, customer by customer *)

Lemma rfm_agg_keys (df : list SilverRow) :
  map agg_customer_unique_id (rfm_agg df) = group_keys s_customer_unique_id df.
Proof.
  unfold rfm_agg, groupby. rewrite !map_map. simpl. apply map_id.
Qed.

(** A successful [build_rfm] has one row per customer of the silver orders
    table, in the order of the group keys. *)
Lemma build_rfm_keys (df : list SilverRow) (rfm : list RFM) :
  build_rfm df = OK rfm ->
  map rfm_customer_unique_id rfm = group_keys s_customer_unique_id df.
Proof.
  intros H. destruct (build_rfm_columns _ _ H) as [_ [_ Hk]].
  rewrite Hk. apply rfm_agg_keys.
Qed.

Lemma build_rfm_customers (df : list SilverRow) (rfm : list RFM)
    (uid : string) :
  build_rfm df = OK rfm ->
  ((exists o, In o df /\ s_customer_unique_id o = Some uid)
   <-> exists row, In row rfm /\ rfm_customer_unique_id row = uid).
Proof.
  intros H. rewrite <- group_keys_In, <- (build_rfm_keys _ _ H), in_map_iff.
  split; intros [row [H1 H2]]; exists row; auto.
Qed.

(** The recencies of the RFM table, as the numbers that [qcut] bins. *)
Definition recency_column (rfm : list RFM) : list Q :=
  dropna (map (option_map inject_Z) (map recency rfm)).

(** The quintile of a recency among the recencies of the table: 1 for the
    lowest fifth, 5 for the highest. *)
Definition recency_quintile_of (rfm : list RFM) (d : Z) : nat :=
  bin_index true (quantile_edges (recency_column rfm) 5) (inject_Z d).

Lemma recency_column_values (df : list SilverRow) (rfm : list RFM) :
  build_rfm df = OK rfm -> recency_column rfm = recency_values df.
Proof.
  intros H. destruct (build_rfm_columns _ _ H) as [Hc _].
  unfold recency_column, recency_values. rewrite Hc. reflexivity.
Qed.

(** C6. The RFM table has a row for every customer of the silver orders
    table, and only for them, in the order of the group keys.  In the row of
    a customer the recency is the number of whole days (a started day does
    not count) from the customer's latest purchase to the snapshot date, which
    is 24 hours after the latest purchase of the whole table; it is at
    least 1.  The R score is 6 minus the quintile of the recency among the
    recencies of the table (quantile edges in exact arithmetic), so it is
    inverted: it never grows with the recency, the customers with the lowest
    recency get 5 and those with the highest get 1. *)
Theorem recency_from_snapshot_and_inverted_R (df : list SilverRow)
    (rfm : list RFM) :
  build_rfm df = OK rfm ->
  map rfm_customer_unique_id rfm = group_keys s_customer_unique_id df
  /\ (forall uid,
        (exists o, In o df /\ s_customer_unique_id o = Some uid)
        <-> exists row, In row rfm /\ rfm_customer_unique_id row = uid)
  /\ (forall row, In row rfm ->
        exists top latest d,
          table_latest df top
          /\ customer_latest df (rfm_customer_unique_id row) latest
          /\ whole_days (top + ns_per_day - latest) d
          /\ recency row = Some d
          /\ 1 <= d
          /\ R row = 6 - Z.of_nat (recency_quintile_of rfm d)
          /\ 1 <= R row <= 5)
  /\ (forall r1 r2 d1 d2, In r1 rfm -> In r2 rfm ->
        recency r1 = Some d1 -> recency r2 = Some d2 ->
        d1 <= d2 -> R r2 <= R r1)
  /\ (forall r d, In r rfm -> recency r = Some d ->
        (forall r' d', In r' rfm -> recency r' = Some d' -> d <= d') ->
        R r = 5)
  /\ (forall r d, In r rfm -> recency r = Some d ->
        (forall r' d', In r' rfm -> recency r' = Some d' -> d' <= d) ->
        R r = 1).
Proof.
  intros H.
  assert (Hvals : forall w, In w (recency_values df) ->
            exists r' d', In r' rfm /\ recency r' = Some d' /\ w = inject_Z d').
  { intros w Hw. unfold recency_values in Hw. apply in_dropna in Hw.
    apply in_map_iff in Hw. destruct Hw as [[d' |] [Hd' Hin]];
      [| discriminate Hd'].
    simpl in Hd'. inversion Hd'; subst w.
    destruct (build_rfm_columns _ _ H) as [Hcol _]. rewrite <- Hcol in Hin.
    apply in_map_iff in Hin. destruct Hin as [r' [Hr' Hin]].
    exists r', d'. auto. }
  split; [exact (build_rfm_keys _ _ H) |].
  split; [intros uid; exact (build_rfm_customers _ _ uid H) |].
  split; [| split; [| split]].
  - intros row Hrow.
    destruct (build_rfm_R _ _ _ H Hrow) as [_ [Hdist [d [Hd [Hsnap [Hv HR]]]]]].
    assert (Hs := Hsnap). rewrite Hd in Hs. symmetry in Hs.
    destruct (days_between_snapshot _ _ _ Hs) as [top [t [Htop [Ht Hdt]]]].
    exists top, t, d.
    split; [apply table_latest_iff; exact Htop |].
    split; [apply customer_latest_iff; exact Ht |].
    assert (Hw : whole_days (top + ns_per_day - t) d)
      by (apply whole_days_iff; symmetry; exact Hdt).
    split; [exact Hw |]. split; [exact Hd |].
    assert (Hle : t <= top).
    { destruct (max_skipna_spec _ _ Htop) as [_ Hmax].
      unfold latest_purchase in Ht.
      destruct (max_skipna_spec _ _ Ht) as [Hin _].
      apply Hmax. apply in_map_iff in Hin. destruct Hin as [o [Ho Hg]].
      apply in_map_iff. exists o. split; [exact Ho |].
      apply group_rows_In in Hg. apply Hg. }
    split.
    { unfold whole_days in Hw. assert (Hp := ns_per_day_pos).
      generalize dependent ns_per_day. intros n _ Hw Hp. nia. }
    unfold recency_quintile_of. rewrite (recency_column_values _ _ H).
    split; [exact HR |].
    assert (Rg := bin_index_range (recency_values df) 5 (Nat.lt_0_succ 4) Hdist
                    (inject_Z d) Hv).
    rewrite HR. unfold recency_quintile, recency_edges. lia.
  - intros r1 r2 d1 d2 Hr1 Hr2 Hd1 Hd2 Hle.
    destruct (build_rfm_R _ _ _ H Hr1) as [_ [Hd [e1 [He1 [_ [Hv1 HR1]]]]]].
    destruct (build_rfm_R _ _ _ H Hr2) as [_ [_ [e2 [He2 [_ [Hv2 HR2]]]]]].
    rewrite Hd1 in He1. rewrite Hd2 in He2.
    inversion He1; inversion He2; subst e1 e2.
    assert (Hm := bin_index_mono (recency_values df) 5 (Nat.lt_0_succ 4) Hd
                    (inject_Z d1) (inject_Z d2) Hv1 Hv2).
    rewrite <- Zle_Qle in Hm. specialize (Hm Hle).
    rewrite HR1, HR2. unfold recency_quintile, recency_edges. lia.
  - intros r d Hr Hd Hmin.
    destruct (build_rfm_R _ _ _ H Hr) as [Hne [_ [e [He [_ [Hv HR]]]]]].
    rewrite Hd in He. inversion He; subst e.
    rewrite HR. unfold recency_quintile, recency_edges.
    rewrite (bin_index_lowest (recency_values df) 5 Hne (Nat.lt_0_succ 4)
               (inject_Z d) Hv); [reflexivity |].
    intros w Hw. destruct (Hvals w Hw) as [r' [d' [Hr' [Hd' ->]]]].
    rewrite <- Zle_Qle. exact (Hmin r' d' Hr' Hd').
  - intros r d Hr Hd Hmax.
    destruct (build_rfm_R _ _ _ H Hr) as [Hne [Hdist [e [He [_ [Hv HR]]]]]].
    rewrite Hd in He. inversion He; subst e.
    rewrite HR. unfold recency_quintile, recency_edges.
    rewrite (bin_index_highest (recency_values df) 5 Hne (Nat.lt_0_succ 4) Hdist
               (inject_Z d) Hv); [reflexivity |].
    intros w Hw. destruct (Hvals w Hw) as [r' [d' [Hr' [Hd' ->]]]].
    rewrite <- Zle_Qle. exact (Hmax r' d' Hr' Hd').
Qed.

Example silver_clock_recency :
  map (fun r => (rfm_customer_unique_id r, recency r, R r))
      (rfm_table silver_clock)
  = [ ("uA", Some 92, 1); ("uB", Some 91, 3); ("uC", Some 91, 3);
      ("uD", Some 51, 4); ("uE", Some 1, 5); ("uF", Some 92, 1);
      ("uG", Some 19, 5) ]%string.
Proof. vm_compute. reflexivity. Qed.

Lemma recency_from_snapshot_and_inverted_R_witness :
  build_rfm (orders_silver silver_clock) = OK (rfm_table silver_clock)
  /\ map rfm_customer_unique_id (rfm_table silver_clock)
     = ["uA"; "uB"; "uC"; "uD"; "uE"; "uF"; "uG"]%string
  (* 92 days and one hour before the snapshot date *)
  /\ (exists row, In row (rfm_table silver_clock)
        /\ rfm_customer_unique_id row = "uA"%string
        /\ recency row = Some 92 /\ R row = 1)
  (* 91 days and 23 hours *)
  /\ (exists row, In row (rfm_table silver_clock)
        /\ rfm_customer_unique_id row = "uB"%string
        /\ recency row = Some 91 /\ R row = 3)
  (* the latest purchase of the table: one day *)
  /\ (exists row, In row (rfm_table silver_clock)
        /\ rfm_customer_unique_id row = "uE"%string
        /\ recency row = Some 1 /\ R row = 5).
Proof.
  assert (H : build_rfm (orders_silver silver_clock)
              = OK (rfm_table silver_clock)) by (vm_compute; reflexivity).
  split; [exact H |].
  destruct (recency_from_snapshot_and_inverted_R _ _ H)
    as [Hkeys [Hrows [Hrec _]]].
  split; [rewrite Hkeys; vm_compute; reflexivity |].
  assert (Hrow : forall uid dy h t d,
            existsb (String.eqb uid)
              ["uA"; "uB"; "uC"; "uD"; "uE"; "uF"; "uG"]%string = true ->
            latest_purchase (orders_silver silver_clock) uid = at_day dy h ->
            at_day dy h = Some t ->
            (forall e, at_day 91 10 = Some e ->
               whole_days (e + ns_per_day - t) d) ->
            exists row, In row (rfm_table silver_clock)
              /\ rfm_customer_unique_id row = uid
              /\ recency row = Some d
              /\ R row = 6 - Z.of_nat
                             (recency_quintile_of (rfm_table silver_clock) d)).
  { intros uid dy h t d Hin Hl Ht Hd.
    apply existsb_exists in Hin. destruct Hin as [x [Hx E]].
    apply String.eqb_eq in E. subst x.
    destruct (proj1 (Hrows uid) (in_group_keys_clock uid Hx))
      as [row [Hr Hid]].
    exists row. split; [exact Hr |]. split; [exact Hid |].
    destruct (Hrec row Hr)
      as [top [latest [d' [Htop [Hlat [Hw [Hd' [_ [HR _]]]]]]]]].
    rewrite Hid in Hlat.
    assert (Et : latest = t)
      by exact (latest_among_unique _ _ _ _ Hlat
                  (customer_latest_clock uid dy h t Hl Ht)).
    assert (Ee : at_day 91 10 = Some top).
    { apply table_latest_iff in Htop. rewrite <- Htop.
      vm_compute. reflexivity. }
    subst latest.
    assert (Ed : d' = d) by exact (whole_days_unique _ _ _ Hw (Hd top Ee)).
    subst d'. split; [exact Hd' | exact HR]. }
  split; [| split].
  - destruct (Hrow "uA"%string 0 9 _ 92 eq_refl
                ltac:(vm_compute; reflexivity) eq_refl)
      as [row [Hr [Hid [Hd HR]]]].
    + intros e He. inversion He.
      split; vm_compute; [discriminate | reflexivity].
    + exists row. split; [exact Hr |]. split; [exact Hid |].
      split; [exact Hd |]. rewrite HR. vm_compute. reflexivity.
  - destruct (Hrow "uB"%string 0 11 _ 91 eq_refl
                ltac:(vm_compute; reflexivity) eq_refl)
      as [row [Hr [Hid [Hd HR]]]].
    + intros e He. inversion He.
      split; vm_compute; [discriminate | reflexivity].
    + exists row. split; [exact Hr |]. split; [exact Hid |].
      split; [exact Hd |]. rewrite HR. vm_compute. reflexivity.
  - destruct (Hrow "uE"%string 91 10 _ 1 eq_refl
                ltac:(vm_compute; reflexivity) eq_refl)
      as [row [Hr [Hid [Hd HR]]]].
    + intros e He. inversion He.
      split; vm_compute; [discriminate | reflexivity].
    + exists row. split; [exact Hr |]. split; [exact Hid |].
      split; [exact Hd |]. rewrite HR. vm_compute. reflexivity.
Defined.

(* ------------------------------------------------------------------ *)
(** ** The F score, customer by customer *)

(** [ids] are the distinct order ids of the customer [uid], each once. *)
Definition order_ids_of (df : list SilverRow) (uid : string)
    (ids : list string) : Prop :=
  NoDup ids
  /\ forall oid, In oid ids <->
       exists o, In o df /\ s_customer_unique_id o = Some uid
                 /\ s_order_id o = Some oid.

(** The quintile of a rank among the ranks of the table. *)
Definition rank_quintile_of (ranks : list Z) (r : Z) : nat :=
  bin_index true (quantile_edges (map inject_Z ranks) 5) (inject_Z r).

Lemma order_ids_of_group (df : list SilverRow) (uid : string) :
  order_ids_of df uid
    (nodup string_dec
       (dropna (map s_order_id (group_rows s_customer_unique_id df uid)))).
Proof.
  split; [apply NoDup_nodup |]. intros oid.
  rewrite nodup_In, in_dropna, in_map_iff. split.
  - intros [o [Ho Hg]]. apply group_rows_In in Hg. exists o. tauto.
  - intros [o [Ho [Hk Hid]]]. exists o. split; [exact Hid |].
    apply group_rows_In. auto.
Qed.

Lemma order_ids_of_length (df : list SilverRow) (uid : string)
    (ids ids' : list string) :
  order_ids_of df uid ids -> order_ids_of df uid ids' ->
  List.length ids = List.length ids'.
Proof.
  intros [N H] [N' H']. apply Permutation_length.
  apply NoDup_Permutation; [exact N | exact N' |].
  intros oid. rewrite H, H'. reflexivity.
Qed.

Lemma agg_frequency_row (df : list SilverRow) (a : RFMAgg) :
  In a (rfm_agg df) ->
  agg_frequency a
  = nunique (map s_order_id
               (group_rows s_customer_unique_id df (agg_customer_unique_id a))).
Proof.
  unfold rfm_agg. rewrite in_map_iff. intros [[k g] [<- Hg]].
  apply groupby_In in Hg. destruct Hg as [-> _]. reflexivity.
Qed.

Lemma build_rfm_frequency (df : list SilverRow) (rfm : list RFM) (row : RFM) :
  build_rfm df = OK rfm -> In row rfm ->
  exists ids, order_ids_of df (rfm_customer_unique_id row) ids
              /\ frequency row = Z.of_nat (List.length ids).
Proof.
  intros H Hrow.
  destruct (build_rfm_row _ _ _ H Hrow)
    as [a [rs [fs [ms [_ [_ [_ [Hin [Hk [_ [Hf _]]]]]]]]]]].
  apply in_combine_l in Hin.
  eexists. split; [apply order_ids_of_group |].
  rewrite Hf, Hk. apply agg_frequency_row. exact Hin.
Qed.

Lemma map_snd_combine {A B : Type} (l : list A) (l' : list B) :
  (List.length l' <= List.length l)%nat -> map snd (combine l l') = l'.
Proof.
  revert l'. induction l as [| a l IH]; intros [| b l'] H; simpl in *;
    try reflexivity; try lia.
  f_equal. apply IH. lia.
Qed.

(** The F column of a successful [build_rfm] is the F column computed from
    its own frequency column. *)
Lemma build_rfm_F_column (df : list SilverRow) (rfm : list RFM) :
  build_rfm df = OK rfm ->
  F_column (map frequency rfm) = OK (map (@Some Z) (map F rfm)).
Proof.
  intros H. destruct (build_rfm_columns _ _ H) as [_ [Hfreq _]].
  rewrite Hfreq. unfold build_rfm in H.
  apply bind_OK in H. destruct H as [rs [Hrs H]].
  apply bind_OK in H. destruct H as [fs [Hfs H]].
  apply bind_OK in H. destruct H as [ms [Hms H]].
  rewrite Hfs. f_equal. rewrite map_map.
  rewrite (mapM_OK_map score_row (fun row => Some (F row))
             (fun x => fst (snd (snd x)))
             (combine (rfm_agg df) (combine rs (combine fs ms))) rfm);
    [| | exact H].
  - apply qcut_length in Hrs, Hfs, Hms.
    repeat rewrite length_map in Hrs. repeat rewrite length_map in Hms.
    repeat rewrite length_map in Hfs. rewrite rank_first_length in Hfs.
    rewrite length_map in Hfs.
    rewrite <- (map_map (fun x => snd (snd x)) fst).
    rewrite <- (map_map snd snd).
    rewrite map_snd_combine by (rewrite !length_combine; lia).
    rewrite map_snd_combine by (rewrite !length_combine; lia).
    symmetry. apply map_fst_combine. lia.
  - intros [a [r [f m]]] row Hs. unfold score_row in Hs.
    apply bind_OK in Hs. destruct Hs as [ri [_ Hs]].
    apply bind_OK in Hs. destruct Hs as [fi [Hfi Hs]].
    apply bind_OK in Hs. destruct Hs as [mi [_ Hs]].
    apply astype_int_OK in Hfi. inversion Hs; subst; reflexivity.
Qed.

Lemma map_Some_injective {A : Type} (l l' : list A) :
  map (@Some A) l = map (@Some A) l' -> l = l'.
Proof.
  revert l'. induction l as [| a l IH]; intros [| b l'] H; simpl in H;
    try reflexivity; try discriminate H.
  inversion H. f_equal. apply IH. assumption.
Qed.

(** C7. With at least five customers the F column never fails, whichever
    ties the frequencies have.  In a successful run the RFM table has one row
    per customer, the frequency of a row is the number of distinct order ids
    of the customer, and the F score is computed from the ranks of the
    frequencies, not from the frequencies.  The rank is stable: among equal
    frequencies the earlier row has the lower rank, so the ranks of n rows
    are the n distinct integers 1, ..., n and their quintile edges are
    distinct.  The F score of a row is the quintile of its rank among the
    ranks: the five groups are not empty and their sizes differ by at most
    one (edges in exact arithmetic); a higher frequency never gets a lower
    score, rank 1 gets score 1 and rank n gets score 5. *)
Theorem F_score_ranks_then_quintiles (df : list SilverRow) :
  (5 <= List.length (group_keys s_customer_unique_id df))%nat ->
  (exists fs, F_column (map agg_frequency (rfm_agg df)) = OK fs)
  /\ forall rfm, build_rfm df = OK rfm ->
       let n := List.length rfm in
       let frequency_col := map frequency rfm in
       let ranks := rank_first frequency_col in
       let scores := map F rfm in
       map rfm_customer_unique_id rfm = group_keys s_customer_unique_id df
       /\ (forall row, In row rfm ->
             exists ids, order_ids_of df (rfm_customer_unique_id row) ids
                         /\ frequency row = Z.of_nat (List.length ids))
       /\ Permutation ranks (map Z.of_nat (seq 1 n))
       /\ NoDup ranks
       /\ (forall i j, (i < j)%nat -> (j < n)%nat ->
             nth i frequency_col 0 = nth j frequency_col 0 ->
             nth i ranks 0 < nth j ranks 0)
       /\ (forall i j, (i < n)%nat -> (j < n)%nat ->
             nth i frequency_col 0 < nth j frequency_col 0 ->
             nth i ranks 0 < nth j ranks 0)
       /\ all_distinct (quantile_edges (map inject_Z ranks) 5) = true
       /\ scores = map (fun r => Z.of_nat (rank_quintile_of ranks r)) ranks
       /\ (forall j, 1 <= j <= 5 -> (1 <= count_occ Z.eq_dec scores j)%nat)
       /\ (forall j j', 1 <= j <= 5 -> 1 <= j' <= 5 ->
             (count_occ Z.eq_dec scores j
              <= count_occ Z.eq_dec scores j' + 1)%nat)
       /\ (forall i j, (i < n)%nat -> (j < n)%nat ->
             nth i frequency_col 0 < nth j frequency_col 0 ->
             nth i scores 0 <= nth j scores 0)
       /\ (forall i, (i < n)%nat ->
             (nth i ranks 0 = 1 -> nth i scores 0 = 1)
             /\ (nth i ranks 0 = Z.of_nat n -> nth i scores 0 = 5)).
Proof.
  intros Hn. split.
  - eexists. apply F_column_OK.
    rewrite length_map, <- (length_map agg_customer_unique_id), rfm_agg_keys.
    lia.
  - intros rfm H n frequency_col ranks scores.
    assert (Hkeys := build_rfm_keys _ _ H).
    assert (Hlen : List.length frequency_col = n)
      by (unfold frequency_col; apply length_map).
    assert (Hn5 : (5 <= List.length frequency_col)%nat).
    { rewrite Hlen. unfold n.
      rewrite <- (length_map rfm_customer_unique_id), Hkeys. exact Hn. }
    destruct (F_column_ranks_then_quintiles frequency_col Hn5)
      as [HP [HN [Htie [Hlt [scores0 [Hok [_ [Hocc [Hbal [Hmono Hends]]]]]]]]]].
    rewrite Hlen in HP, Htie, Hlt, Hmono, Hends.
    fold ranks in HP, HN, Htie, Hlt, Hends.
    assert (Es : scores0 = scores).
    { apply map_Some_injective.
      assert (Hc := build_rfm_F_column _ _ H).
      fold frequency_col in Hc. fold scores in Hc. congruence. }
    subst scores0.
    split; [exact Hkeys |].
    split; [intros row Hrow; exact (build_rfm_frequency _ _ _ H Hrow) |].
    split; [exact HP |]. split; [exact HN |].
    split; [exact Htie |]. split; [exact Hlt |].
    assert (Hn2 : (2 <= List.length frequency_col)%nat) by lia.
    split.
    { unfold ranks. rewrite quantile_edges_rank_first.
      apply rank_edges_distinct. exact Hn2. }
    split.
    { assert (Hc := F_column_OK frequency_col Hn2). rewrite Hok in Hc.
      assert (Hc' : map (@Some Z) scores
                    = map (fun r => Some (Z.of_nat
                             (quintile_of_rank (List.length frequency_col) r)))
                        (rank_first frequency_col)) by congruence.
      apply map_Some_injective. rewrite Hc', map_map.
      apply map_ext. intros r. unfold rank_quintile_of, ranks.
      rewrite quantile_edges_rank_first, bin_index_rank by lia. reflexivity. }
    split; [exact Hocc |]. split; [exact Hbal |].
    split; [exact Hmono | exact Hends].
Qed.

Example silver_clock_frequency :
  map (fun r => (rfm_customer_unique_id r, frequency r, F r))
      (rfm_table silver_clock)
  = [ ("uA", 1, 1); ("uB", 1, 1); ("uC", 1, 2); ("uD", 2, 5); ("uE", 1, 3);
      ("uF", 1, 4); ("uG", 1, 5) ]%string
  /\ rank_first (map frequency (rfm_table silver_clock))
     = [1; 2; 3; 7; 4; 5; 6].
Proof. split; vm_compute; reflexivity. Qed.

Lemma F_score_ranks_then_quintiles_witness :
  (5 <= List.length
          (group_keys s_customer_unique_id (orders_silver silver_clock)))%nat
  /\ build_rfm (orders_silver silver_clock) = OK (rfm_table silver_clock)
  /\ map rfm_customer_unique_id (rfm_table silver_clock)
     = ["uA"; "uB"; "uC"; "uD"; "uE"; "uF"; "uG"]%string
  (* the customer with two orders *)
  /\ (exists row, In row (rfm_table silver_clock)
        /\ rfm_customer_unique_id row = "uD"%string /\ frequency row = 2)
  (* six customers tie at one order: their scores follow the row order *)
  /\ map frequency (rfm_table silver_clock) = [1; 1; 1; 2; 1; 1; 1]
  /\ map F (rfm_table silver_clock) = [1; 1; 2; 5; 3; 4; 5]
  /\ (forall j, 1 <= j <= 5 ->
        (1 <= count_occ Z.eq_dec (map F (rfm_table silver_clock)) j)%nat).
Proof.
  assert (Hn : (5 <= List.length
                      (group_keys s_customer_unique_id
                         (orders_silver silver_clock)))%nat)
    by (vm_compute; lia).
  assert (H : build_rfm (orders_silver silver_clock)
              = OK (rfm_table silver_clock)) by (vm_compute; reflexivity).
  split; [exact Hn |]. split; [exact H |].
  destruct (F_score_ranks_then_quintiles (orders_silver silver_clock) Hn)
    as [_ Hrfm].
  destruct (Hrfm (rfm_table silver_clock) H)
    as [Hkeys [Hfreq [_ [_ [_ [_ [_ [Hscores [Hocc _]]]]]]]]].
  split; [rewrite Hkeys; vm_compute; reflexivity |].
  split.
  { assert (Hin : In "uD"%string
                    (map rfm_customer_unique_id (rfm_table silver_clock))).
    { rewrite Hkeys.
      apply (proj2 (group_keys_In SilverRow s_customer_unique_id
                      (orders_silver silver_clock) "uD"%string)).
      apply in_group_keys_clock. simpl. tauto. }
    destruct (proj1 (in_map_iff rfm_customer_unique_id
                       (rfm_table silver_clock) "uD"%string) Hin)
      as [row [Hid Hrow]].
    exists row. split; [exact Hrow |]. split; [exact Hid |].
    destruct (Hfreq row Hrow) as [ids [Hids ->]].
    rewrite Hid in Hids.
    rewrite (order_ids_of_length _ _ _ _ Hids
               (order_ids_of_group (orders_silver silver_clock) "uD"%string)).
    vm_compute. reflexivity. }
  split; [vm_compute; reflexivity |].
  split; [rewrite Hscores; vm_compute; reflexivity | exact Hocc].
Defined.

(* ================================================================== *)
(** * Further properties of the silver build *)

(** ** Lookups through the left merges *)

Section MergeLookup.
Variables Row Right Out : Type.
Variable kl : Row -> option string.
Variable kr : Right -> option string.

(** A row of a left merge carries a row of the right frame exactly when one
    has its key; otherwise no row of the right frame has it. *)
Lemma merge_left_In_full (combine : Row -> option Right -> Out)
    (left : list Row) (right : list Right) (o : Out) :
  In o (merge_left kl kr combine left right) ->
  exists a ob, In a left /\ o = combine a ob /\
    match ob with
    | Some b => In b right /\ kl a = kr b
    | None => forall b, In b right -> kl a <> kr b
    end.
Proof.
  unfold merge_left. rewrite in_flat_map. intros [a [Ha Ho]].
  destruct (filter (fun b => key_eqb (kl a) (kr b)) right) as [| m ms] eqn:E.
  - destruct Ho as [<- | []]. exists a, None.
    split; [exact Ha |]. split; [reflexivity |].
    intros b Hb Hk.
    assert (Hin : In b (filter (fun b => key_eqb (kl a) (kr b)) right))
      by (apply filter_In; split; [exact Hb | apply key_eqb_eq; exact Hk]).
    rewrite E in Hin. contradiction.
  - apply in_map_iff in Ho. destruct Ho as [b [<- Hb]].
    rewrite <- E in Hb. apply filter_In in Hb. destruct Hb as [Hb Hk].
    exists a, (Some b). rewrite key_eqb_eq in Hk. auto.
Qed.

Lemma key_matches_at_most_one (k : option string) (l : list Right) :
  NoDup (map kr l) ->
  (List.length (filter (fun b => key_eqb k (kr b)) l) <= 1)%nat.
Proof.
  induction l as [| b l IH]; intros H; [simpl; lia |].
  inversion H as [| ? ? Hnotin Hnodup]; subst.
  cbn [filter]. destruct (key_eqb k (kr b)) eqn:E; [| apply IH; exact Hnodup].
  apply key_eqb_eq in E. subst k.
  rewrite (filter_none (fun b0 => key_eqb (kr b) (kr b0)) l); [simpl; lia |].
  intros c Hc. destruct (key_eqb (kr b) (kr c)) eqn:E'; [| reflexivity].
  apply key_eqb_eq in E'. exfalso. apply Hnotin. rewrite E'.
  apply in_map. exact Hc.
Qed.
End MergeLookup.

Lemma NoDup_map_Some {A : Type} (f : A -> string) (l : list A) :
  NoDup (map f l) -> NoDup (map (fun a => Some (f a)) l).
Proof.
  induction l as [| a l IH]; simpl; intros H; [constructor |].
  inversion H as [| ? ? Hnotin Hnodup]; subst. constructor; [| apply IH; exact Hnodup].
  intros Hin. apply in_map_iff in Hin. destruct Hin as [b [Hb Hin]].
  inversion Hb as [Hfb]. apply Hnotin. rewrite <- Hfb. apply in_map. exact Hin.
Qed.

Lemma items_agg_keys (items : list OrderItem) :
  map ia_order_id (items_agg items) = group_keys i_order_id items.
Proof. unfold items_agg, groupby. rewrite !map_map. simpl. apply map_id. Qed.

Lemma reviews_agg_keys (revs : list Review) :
  map ra_order_id (reviews_agg revs) = group_keys r_order_id revs.
Proof. unfold reviews_agg, groupby. rewrite !map_map. simpl. apply map_id. Qed.

Lemma payments_agg_keys (pays : list Payment) (pagg : list PaymentsAgg) :
  payments_agg pays = OK pagg ->
  map pa_order_id pagg = group_keys p_order_id pays.
Proof.
  unfold payments_agg. intros H.
  transitivity (map fst (groupby p_order_id pays)).
  - eapply mapM_OK_map; [| exact H].
    intros [k g] a Ha. apply bind_OK in Ha. destruct Ha as [ty [_ Ha]].
    inversion Ha. reflexivity.
  - unfold groupby. rewrite map_map. simpl. apply map_id.
Qed.

(** Every group of a grouped frame has a row, and a key that heads no group
    has none. *)
Lemma group_rows_nil_iff {Row : Type} (key : Row -> option string)
    (df : list Row) (k : string) :
  group_rows key df k = [] <-> ~ In k (group_keys key df).
Proof.
  rewrite group_keys_In. unfold group_rows. split.
  - intros E [r [Hr Hk]].
    assert (Hin : In r (filter (fun r => key_eqb (key r) (Some k)) df))
      by (apply filter_In; split; [exact Hr | apply key_eqb_eq; exact Hk]).
    rewrite E in Hin. contradiction.
  - intros H. apply filter_none. intros r Hr.
    destruct (key_eqb (key r) (Some k)) eqn:E; [| reflexivity].
    exfalso. apply H. exists r. apply key_eqb_eq in E. auto.
Qed.

(** What [build_order_level] puts in one of its rows. *)
Lemma build_order_level_row (b : Bronze) (df : list FactRow) (r : FactRow) :
  build_order_level b = OK df -> In r df ->
  exists pagg,
    payments_agg (payments b) = OK pagg
    /\ match fact_customer r with
       | Some c => In c (customers b)
                   /\ customer_id (fact_order r) = c_customer_id c
       | None => forall c, In c (customers b) ->
                   customer_id (fact_order r) <> c_customer_id c
       end
    /\ match fact_items r with
       | Some a => In a (items_agg (order_items b))
                   /\ col_order_id r = Some (ia_order_id a)
       | None => forall a, In a (items_agg (order_items b)) ->
                   col_order_id r <> Some (ia_order_id a)
       end
    /\ match fact_payments r with
       | Some a => In a pagg /\ col_order_id r = Some (pa_order_id a)
       | None => forall a, In a pagg -> col_order_id r <> Some (pa_order_id a)
       end
    /\ match fact_reviews r with
       | Some a => In a (reviews_agg (reviews b))
                   /\ col_order_id r = Some (ra_order_id a)
       | None => forall a, In a (reviews_agg (reviews b)) ->
                   col_order_id r <> Some (ra_order_id a)
       end.
Proof.
  unfold build_order_level. intros H Hr.
  apply bind_OK in H. destruct H as [pagg [Hp H]]. inversion H; subst; clear H.
  exists pagg. split; [exact Hp |].
  apply merge_left_In_full in Hr. destruct Hr as [r3 [o3 [Hr3 [-> H3]]]].
  apply merge_left_In_full in Hr3. destruct Hr3 as [r2 [o2 [Hr2 [-> H2]]]].
  apply merge_left_In_full in Hr2. destruct Hr2 as [r1 [o1 [Hr1 [-> H1]]]].
  apply merge_left_In_full in Hr1. destruct Hr1 as [o [c [Ho [-> H0]]]].
  simpl. repeat split; assumption.
Qed.

(* ------------------------------------------------------------------ *)
(** ** One fact row per delivered order *)

Lemma items_agg_NoDup (items : list OrderItem) :
  NoDup (map (fun a => Some (ia_order_id a)) (items_agg items)).
Proof.
  apply NoDup_map_Some. rewrite items_agg_keys. apply group_keys_NoDup.
Qed.

Lemma reviews_agg_NoDup (revs : list Review) :
  NoDup (map (fun a => Some (ra_order_id a)) (reviews_agg revs)).
Proof.
  apply NoDup_map_Some. rewrite reviews_agg_keys. apply group_keys_NoDup.
Qed.

Lemma payments_agg_NoDup (pays : list Payment) (pagg : list PaymentsAgg) :
  payments_agg pays = OK pagg ->
  NoDup (map (fun a => Some (pa_order_id a)) pagg).
Proof.
  intros H. apply NoDup_map_Some. rewrite (payments_agg_keys _ _ H).
  apply group_keys_NoDup.
Qed.

(** When no two rows of the customers table share a [customer_id], the
    order-level table has exactly one row for each delivered order, in the
    order of the orders table: the aggregated frames are keyed by order, so
    the left merges neither drop nor repeat an order. *)
Theorem order_level_one_row_per_delivered_order (b : Bronze)
    (df : list FactRow) :
  NoDup (map c_customer_id (customers b)) ->
  build_order_level b = OK df ->
  map fact_order df = filter is_delivered (orders b)
  /\ List.length df = List.length (filter is_delivered (orders b)).
Proof.
  intros Hc H.
  assert (Hmap : map fact_order df = filter is_delivered (orders b)).
  { unfold build_order_level in H.
    apply bind_OK in H. destruct H as [pagg [Hp H]].
    inversion H; subst; clear H.
    rewrite (merge_left_map _ _ _ _ _ _ fact_order fact_order);
      [| reflexivity
       | intros a _; apply key_matches_at_most_one, reviews_agg_NoDup].
    rewrite (merge_left_map _ _ _ _ _ _ fact_order fact_order);
      [| reflexivity
       | intros a _; apply key_matches_at_most_one;
         apply (payments_agg_NoDup _ _ Hp)].
    rewrite (merge_left_map _ _ _ _ _ _ fact_order fact_order);
      [| reflexivity
       | intros a _; apply key_matches_at_most_one, items_agg_NoDup].
    rewrite (merge_left_map _ _ _ _ _ _ fact_order (fun o => o));
      [| reflexivity
       | intros a _; apply key_matches_at_most_one; exact Hc].
    apply map_id. }
  split; [exact Hmap |].
  rewrite <- Hmap. symmetry. apply length_map.
Qed.

Lemma order_level_one_row_per_delivered_order_witness :
  exists df,
    NoDup (map c_customer_id (customers bronze_ok))
    /\ build_order_level bronze_ok = OK df
    /\ map fact_order df = filter is_delivered (orders bronze_ok).
Proof.
  assert (Hc : NoDup (map c_customer_id (customers bronze_ok))).
  { simpl. repeat (constructor; [simpl; intuition discriminate |]). constructor. }
  destruct (build_order_level bronze_ok) as [df | e] eqn:E;
    [| vm_compute in E; discriminate E].
  exists df. split; [exact Hc |]. split; [reflexivity |].
  destruct (order_level_one_row_per_delivered_order bronze_ok df Hc E)
    as [Hmap _].
  exact Hmap.
Defined.

(* ------------------------------------------------------------------ *)
(** ** Aggregates of the order-level table *)

Lemma items_agg_In (items : list OrderItem) (a : ItemsAgg) :
  In a (items_agg items) ->
  let g := group_rows i_order_id items (ia_order_id a) in
  ia_items_count a = count_notna (map order_item_id g)
  /\ ia_total_price a = sum_skipna (map price g)
  /\ ia_total_freight a = sum_skipna (map freight_value g)
  /\ ia_avg_item_price a = mean_skipna (map price g).
Proof.
  unfold items_agg. rewrite in_map_iff. intros [[k g] [<- Hg]].
  apply groupby_In in Hg. destruct Hg as [-> _]. simpl. auto.
Qed.

Lemma reviews_agg_In (revs : list Review) (a : ReviewsAgg) :
  In a (reviews_agg revs) ->
  ra_review_score a
  = mean_skipna (map r_review_score (group_rows r_order_id revs (ra_order_id a))).
Proof.
  unfold reviews_agg. rewrite in_map_iff. intros [[k g] [<- Hg]].
  apply groupby_In in Hg. destruct Hg as [-> _]. reflexivity.
Qed.

Lemma payments_agg_In (pays : list Payment) (pagg : list PaymentsAgg)
    (a : PaymentsAgg) :
  payments_agg pays = OK pagg -> In a pagg ->
  pa_payment_value a
  = sum_skipna (map p_payment_value (group_rows p_order_id pays (pa_order_id a))).
Proof.
  unfold payments_agg. intros H Ha.
  destruct (mapM_OK_In _ _ _ H a Ha) as [[k g] [Hg Hf]].
  apply groupby_In in Hg. destruct Hg as [-> _].
  apply bind_OK in Hf. destruct Hf as [ty [_ Hf]].
  inversion Hf; subst; reflexivity.
Qed.

(** The item columns of a fact row are the aggregates of the item rows of
    its order: their count, the sums of price and freight, and the mean
    price.  An order without item rows gets no aggregate at all, so its
    order value is missing, not 0, and its freight ratio is NaN. *)
Theorem fact_row_item_aggregates (b : Bronze) (df : list FactRow)
    (r : FactRow) (k : string) :
  build_order_level b = OK df -> In r df -> col_order_id r = Some k ->
  let rows := group_rows i_order_id (order_items b) k in
  (rows = [] ->
     fact_items r = None /\ order_value_of r = None
     /\ freight_ratio_of r = NaN)
  /\ (rows <> [] ->
        col_items_count r
        = Some (inject_Z (count_notna (map order_item_id rows)))
        /\ col_total_price r = Some (sum_skipna (map price rows))
        /\ col_total_freight r = Some (sum_skipna (map freight_value rows))
        /\ col_avg_item_price r = mean_skipna (map price rows)
        /\ order_value_of r
           = Some (sum_skipna (map price rows)
                   + sum_skipna (map freight_value rows))%Q).
Proof.
  intros H Hr Hk rows.
  destruct (build_order_level_row _ _ _ H Hr) as [pagg [_ [_ [Hi _]]]].
  assert (Hkeys : forall a, In a (items_agg (order_items b)) ->
            In (ia_order_id a) (group_keys i_order_id (order_items b))).
  { intros a Ha. rewrite <- items_agg_keys. apply in_map. exact Ha. }
  split.
  - intros Hnil. apply group_rows_nil_iff in Hnil.
    assert (Hnone : fact_items r = None).
    { destruct (fact_items r) as [a |]; [| reflexivity].
      destruct Hi as [Ha Hka]. exfalso. apply Hnil.
      rewrite Hk in Hka. inversion Hka. apply Hkeys. exact Ha. }
    unfold freight_ratio_of, order_value_of, col_total_price, col_total_freight.
    rewrite Hnone. auto.
  - intros Hrows.
    destruct (fact_items r) as [a |] eqn:Ea.
    + destruct Hi as [Ha Hka]. rewrite Hk in Hka. inversion Hka as [Hka'].
      destruct (items_agg_In _ _ Ha) as [Hc [Hp [Hf Hm]]].
      rewrite <- Hka' in Hc, Hp, Hf, Hm. fold rows in Hc, Hp, Hf, Hm.
      unfold order_value_of, col_items_count, col_total_price,
        col_total_freight, col_avg_item_price.
      rewrite Ea. simpl. rewrite Hc, Hp, Hf, Hm. auto.
    + exfalso.
      assert (Hin : In k (group_keys i_order_id (order_items b))).
      { destruct (in_dec string_dec k (group_keys i_order_id (order_items b)))
          as [Hin | Hout]; [exact Hin |].
        apply group_rows_nil_iff in Hout. contradiction. }
      rewrite <- items_agg_keys in Hin. apply in_map_iff in Hin.
      destruct Hin as [a [Hak Ha]]. apply (Hi a Ha). rewrite Hk, Hak. reflexivity.
Qed.

Lemma fact_row_item_aggregates_witness :
  exists df r,
    build_order_level bronze_sparse = OK df /\ In r df
    /\ col_order_id r = Some "o8"%string
    /\ fact_items r = None /\ order_value_of r = None
    /\ freight_ratio_of r = NaN.
Proof.
  destruct (build_order_level bronze_sparse) as [df | e] eqn:E;
    [| vm_compute in E; discriminate E].
  assert (Hlast : exists r, In r df /\ col_order_id r = Some "o8"%string).
  { vm_compute in E. inversion E. eexists. split; [do 6 right; left; reflexivity |].
    reflexivity. }
  destruct Hlast as [r [Hr Hk]]. exists df, r.
  split; [reflexivity |]. split; [exact Hr |]. split; [exact Hk |].
  destruct (fact_row_item_aggregates bronze_sparse df r "o8" E Hr Hk)
    as [Hnil _].
  apply Hnil. reflexivity.
Defined.

Lemma fact_row_payment_In (b : Bronze) (pagg : list PaymentsAgg) (k : string) :
  payments_agg (payments b) = OK pagg ->
  group_rows p_order_id (payments b) k <> [] ->
  exists a, In a pagg /\ pa_order_id a = k.
Proof.
  intros Hp Hrows.
  assert (Hin : In k (group_keys p_order_id (payments b))).
  { destruct (in_dec string_dec k (group_keys p_order_id (payments b)))
      as [Hin | Hout]; [exact Hin |].
    apply group_rows_nil_iff in Hout. contradiction. }
  rewrite <- (payments_agg_keys _ _ Hp) in Hin. apply in_map_iff in Hin.
  destruct Hin as [a [Hak Ha]]. exists a. auto.
Qed.

(** The review score of a fact row is the mean of the review scores of its
    order, missing when the order has no review with a score; its payment
    value is the sum of the payment values of its order, missing when the
    order has no payment row.  A fact row whose order id is missing matches
    no aggregate at all. *)
Theorem fact_row_payment_review_aggregates (b : Bronze) (df : list FactRow)
    (r : FactRow) :
  build_order_level b = OK df -> In r df ->
  (forall k, col_order_id r = Some k ->
     col_review_score r
     = mean_skipna (map r_review_score (group_rows r_order_id (reviews b) k))
     /\ (group_rows p_order_id (payments b) k = [] ->
           col_payment_value r = None /\ col_payment_type r = None)
     /\ (group_rows p_order_id (payments b) k <> [] ->
           col_payment_value r
           = Some (sum_skipna
                     (map p_payment_value
                        (group_rows p_order_id (payments b) k)))))
  /\ (col_order_id r = None ->
        fact_items r = None /\ fact_payments r = None /\ fact_reviews r = None).
Proof.
  intros H Hr.
  destruct (build_order_level_row _ _ _ H Hr) as [pagg [Hp [_ [Hi [Hpay Hrev]]]]].
  split.
  - intros k Hk. split; [| split].
    + unfold col_review_score.
      destruct (fact_reviews r) as [a |] eqn:Ea.
      * destruct Hrev as [Ha Hka]. rewrite Hk in Hka. inversion Hka as [Hka'].
        simpl. rewrite (reviews_agg_In _ _ Ha). reflexivity.
      * simpl.
        assert (Hnil : group_rows r_order_id (reviews b) k = []).
        { apply group_rows_nil_iff. intros Hin.
          rewrite <- reviews_agg_keys in Hin. apply in_map_iff in Hin.
          destruct Hin as [a [Hak Ha]]. apply (Hrev a Ha).
          rewrite Hk, Hak. reflexivity. }
        rewrite Hnil. reflexivity.
    + intros Hnil. apply group_rows_nil_iff in Hnil.
      unfold col_payment_value, col_payment_type.
      destruct (fact_payments r) as [a |]; [| auto].
      destruct Hpay as [Ha Hka]. exfalso. apply Hnil.
      rewrite Hk in Hka. inversion Hka.
      rewrite <- (payments_agg_keys _ _ Hp). apply in_map. exact Ha.
    + intros Hrows. unfold col_payment_value.
      destruct (fact_payments r) as [a |] eqn:Ea.
      * destruct Hpay as [Ha Hka]. rewrite Hk in Hka. inversion Hka as [Hka'].
        simpl. rewrite (payments_agg_In _ _ _ Hp Ha). reflexivity.
      * exfalso. destruct (fact_row_payment_In b pagg k Hp Hrows) as [a [Ha Hak]].
        apply (Hpay a Ha). rewrite Hk, Hak. reflexivity.
  - intros Hnone. rewrite Hnone in Hi, Hpay, Hrev.
    destruct (fact_items r); [destruct Hi; discriminate |].
    destruct (fact_payments r); [destruct Hpay; discriminate |].
    destruct (fact_reviews r); [destruct Hrev; discriminate |].
    auto.
Qed.

Definition fact_ok : list FactRow :=
  match build_order_level bronze_ok with
  | OK df => df
  | Raise _ => []
  end.

Example build_order_level_bronze_ok :
  build_order_level bronze_ok = OK fact_ok
  /\ add_features fact_ok = OK (orders_silver silver_ok).
Proof. split; vm_compute; reflexivity. Qed.

(** Order [o3] of [bronze_ok] has two reviews, scored 2 and 4: its review
    score is 3. *)
Lemma fact_row_payment_review_aggregates_witness :
  exists r,
    build_order_level bronze_ok = OK fact_ok /\ In r fact_ok
    /\ col_order_id r = Some "o3"%string
    /\ col_review_score r
       = mean_skipna
           (map r_review_score
              (group_rows r_order_id (reviews bronze_ok) "o3"))
    /\ exists q, col_review_score r = Some q /\ (q == 3)%Q.
Proof.
  assert (H : build_order_level bronze_ok = OK fact_ok)
    by (vm_compute; reflexivity).
  assert (Hrow : exists r, In r fact_ok /\ col_order_id r = Some "o3"%string).
  { eexists. split; [vm_compute; do 2 right; left; reflexivity | reflexivity]. }
  destruct Hrow as [r [Hr Hk]]. exists r.
  split; [exact H |]. split; [exact Hr |]. split; [exact Hk |].
  destruct (fact_row_payment_review_aggregates bronze_ok fact_ok r H Hr)
    as [Hk3 _].
  destruct (Hk3 "o3"%string Hk) as [Hrev _].
  split; [exact Hrev |].
  eexists. split; [rewrite Hrev; reflexivity | reflexivity].
Defined.

(* ------------------------------------------------------------------ *)
(** ** Feature columns *)

Lemma in_combine_nested_r {A B C : Type} (l : list A) (l1 : list B) (l2 : list C)
    (a : A) (b : B) (c : C) :
  In (a, (b, c)) (combine l (combine l1 l2)) -> In (a, c) (combine l l2).
Proof.
  revert l1 l2. induction l as [| x l IH]; intros [| y l1] [| z l2]; simpl;
    try contradiction.
  intros [H | H]; [inversion H; left; reflexivity | right; exact (IH _ _ H)].
Qed.

Definition order_value_labels : list string :=
  ["Low"; "Medium"; "High"; "Premium"]%string.

Definition review_labels : list string :=
  ["Poor"; "Fair"; "Good"; "Excellent"]%string.

Definition order_value_edges (df : list FactRow) : list Q :=
  quantile_edges (dropna (map order_value_of df)) 4.

(** The columns [add_features] computes for one row. *)
Lemma add_features_row (df : list FactRow) (s : list SilverRow) (r : SilverRow) :
  add_features df = OK s -> In r s ->
  let ts := col_purchase (fact r) in
  In (fact r) df
  /\ year r = option_map dt_year ts
  /\ month r = option_map dt_month ts
  /\ day r = option_map dt_day ts
  /\ day_of_week r = option_map dt_dayofweek ts
  /\ hour r = option_map dt_hour ts
  /\ quarter r = option_map dt_quarter ts
  /\ is_weekend r = isin_weekend (option_map dt_dayofweek ts)
  /\ delivery_days r = days_between (col_delivered (fact r)) ts
  /\ order_value r = order_value_of (fact r)
  /\ order_value_category r
     = bins_to_cuts true (order_value_edges df) order_value_labels
         (order_value_of (fact r))
  /\ review_category r
     = bins_to_cuts false [0; 2; 3; 4; 5]%Q review_labels
         (col_review_score (fact r)).
Proof.
  unfold add_features. intros H Hr.
  apply bind_OK in H. destruct H as [cats [Hq H]]. inversion H; subst; clear H.
  apply qcut_OK in Hq. destruct Hq as [-> _].
  apply in_map_iff in Hr. destruct Hr as [[f [cat rev]] [<- Hin]].
  assert (Hf : In f df) by (apply in_combine_l in Hin; exact Hin).
  assert (Hcat := in_combine_nested_l _ _ _ _ _ _ Hin).
  assert (Hrev := in_combine_nested_r _ _ _ _ _ _ Hin).
  rewrite map_map in Hcat. apply in_combine_map in Hcat.
  unfold cut in Hrev. rewrite map_map in Hrev. apply in_combine_map in Hrev.
  simpl. subst cat rev. repeat split; try reflexivity. exact Hf.
Qed.

Lemma map_fst_combine_map {A B C : Type} (F : A * B -> C) (g : C -> A)
    (l : list A) (l' : list B) :
  (forall x, g (F x) = fst x) ->
  (List.length l <= List.length l')%nat ->
  map g (map F (combine l l')) = l.
Proof.
  intros Hg Hlen. rewrite map_map.
  rewrite (map_ext _ fst) by exact Hg. apply map_fst_combine. exact Hlen.
Qed.

Lemma add_features_map_fact (df : list FactRow) (s : list SilverRow) :
  add_features df = OK s -> map fact s = df.
Proof.
  unfold add_features. intros H.
  apply bind_OK in H. destruct H as [cats [Hq H]]. inversion H; subst; clear H.
  apply qcut_length in Hq. rewrite length_map in Hq.
  apply map_fst_combine_map.
  - intros [f [cat rev]]. reflexivity.
  - rewrite length_combine. unfold cut. rewrite !length_map. lia.
Qed.

(** [add_features] only adds columns: it returns one row for each row of the
    order-level table, in the same order and with the columns of that table
    unchanged. *)
Theorem add_features_keeps_rows (df : list FactRow) (s : list SilverRow) :
  add_features df = OK s ->
  map fact s = df
  /\ List.length s = List.length df
  /\ map s_order_id s = map col_order_id df
  /\ map s_customer_unique_id s = map col_customer_unique_id df.
Proof.
  intros H. assert (Hf := add_features_map_fact _ _ H).
  split; [exact Hf |]. split; [| split].
  - rewrite <- Hf. symmetry. apply length_map.
  - rewrite <- Hf, map_map. reflexivity.
  - rewrite <- Hf, map_map. reflexivity.
Qed.

Lemma add_features_keeps_rows_witness :
  add_features fact_ok = OK (orders_silver silver_ok)
  /\ map fact (orders_silver silver_ok) = fact_ok
  /\ List.length (orders_silver silver_ok) = 6%nat.
Proof.
  assert (H : add_features fact_ok = OK (orders_silver silver_ok))
    by (vm_compute; reflexivity).
  destruct (add_features_keeps_rows fact_ok (orders_silver silver_ok) H)
    as [Hf [Hlen _]].
  split; [exact H |]. split; [exact Hf |]. rewrite Hlen. reflexivity.
Defined.

Lemma civil_from_days_ranges (d : Z) :
  let '(y, m, dd) := civil_from_days d in
  1 <= m <= 12 /\ 1 <= dd <= 31.
Proof.
  unfold civil_from_days.
  set (z := d + 719468).
  set (era := z / 146097).
  set (doe := z - era * 146097).
  assert (Hdoe : 0 <= doe <= 146096) by (unfold doe, era; lia).
  clearbody doe.
  set (yoe := (doe - doe / 1460 + doe / 36524 - doe / 146096) / 365).
  assert (Hyoe : 0 <= yoe <= 399) by (unfold yoe; lia).
  set (doy := doe - (365 * yoe + yoe / 4 - yoe / 100)).
  assert (Hdoy : 0 <= doy <= 365) by (unfold doy, yoe; lia).
  clearbody doy.
  set (mp := (5 * doy + 2) / 153).
  assert (Hmp : 0 <= mp <= 11) by (unfold mp; lia).
  split.
  - destruct (mp <? 10) eqn:E; [apply Z.ltb_lt in E | apply Z.ltb_ge in E]; lia.
  - unfold mp. lia.
Qed.

Lemma dt_month_range (t : Z) : 1 <= dt_month t <= 12.
Proof.
  unfold dt_month. assert (H := civil_from_days_ranges (t / ns_per_day)).
  destruct (civil_from_days (t / ns_per_day)) as [[y m] dd]. simpl. lia.
Qed.

Lemma dt_day_range (t : Z) : 1 <= dt_day t <= 31.
Proof.
  unfold dt_day. assert (H := civil_from_days_ranges (t / ns_per_day)).
  destruct (civil_from_days (t / ns_per_day)) as [[y m] dd]. simpl. lia.
Qed.

Lemma dt_dayofweek_range (t : Z) : 0 <= dt_dayofweek t <= 6.
Proof. unfold dt_dayofweek. lia. Qed.

Lemma dt_hour_range (t : Z) : 0 <= dt_hour t <= 23.
Proof. unfold dt_hour, ns_per_day, ns_per_hour. lia. Qed.

Lemma dt_quarter_range (t : Z) : 1 <= dt_quarter t <= 4.
Proof. unfold dt_quarter. assert (H := dt_month_range t). lia. Qed.

(** The calendar columns of a silver row.  With a purchase timestamp, the
    month is in 1..12, the day in 1..31, the day of the week in 0..6, the hour
    in 0..23 and the quarter, [(month - 1) / 3 + 1], in 1..4; [is_weekend] is
    1 exactly on days 5 and 6 and 0 otherwise.  Without one, the calendar
    columns are missing and [is_weekend] is 0. *)
Theorem calendar_features_ranges (df : list FactRow) (s : list SilverRow)
    (r : SilverRow) :
  add_features df = OK s -> In r s ->
  match col_purchase (fact r) with
  | Some t =>
      exists m d w h q,
        month r = Some m /\ day r = Some d /\ day_of_week r = Some w
        /\ hour r = Some h /\ quarter r = Some q
        /\ 1 <= m <= 12 /\ 1 <= d <= 31 /\ 0 <= w <= 6 /\ 0 <= h <= 23
        /\ q = (m - 1) / 3 + 1 /\ 1 <= q <= 4
        /\ (is_weekend r = 1 <-> w = 5 \/ w = 6)
        /\ (is_weekend r = 0 <-> w <> 5 /\ w <> 6)
  | None =>
      year r = None /\ month r = None /\ day r = None /\ day_of_week r = None
      /\ hour r = None /\ quarter r = None /\ is_weekend r = 0
  end.
Proof.
  intros H Hr.
  destruct (add_features_row _ _ _ H Hr)
    as [_ [Hy [Hm [Hd [Hw [Hh [Hq [Hwe _]]]]]]]].
  destruct (col_purchase (fact r)) as [t |]; simpl in *.
  - exists (dt_month t), (dt_day t), (dt_dayofweek t), (dt_hour t), (dt_quarter t).
    assert (Rm := dt_month_range t). assert (Rd := dt_day_range t).
    assert (Rw := dt_dayofweek_range t). assert (Rh := dt_hour_range t).
    assert (Rq := dt_quarter_range t).
    repeat (split; [assumption || reflexivity || lia |]).
    rewrite Hwe.
    destruct (Z.eqb_spec (dt_dayofweek t) 5), (Z.eqb_spec (dt_dayofweek t) 6);
      simpl; split; lia.
  - repeat split; assumption.
Qed.

Example calendar_of_first_order :
  map (fun r => (s_order_id r, year r, month r, day r, day_of_week r, hour r,
                 quarter r, is_weekend r))
      (firstn 2 (orders_silver silver_ok))
  = [ (Some "o1", Some 2018, Some 1, Some 1, Some 0, Some 10, Some 1, 0);
      (Some "o2", Some 2018, Some 1, Some 11, Some 3, Some 10, Some 1, 0)
    ]%string.
Proof. vm_compute. reflexivity. Qed.

Lemma calendar_features_ranges_witness :
  exists r,
    add_features fact_ok = OK (orders_silver silver_ok)
    /\ In r (orders_silver silver_ok)
    /\ exists t w,
         col_purchase (fact r) = Some t /\ day_of_week r = Some w
         /\ 0 <= w <= 6.
Proof.
  assert (H : add_features fact_ok = OK (orders_silver silver_ok))
    by (vm_compute; reflexivity).
  destruct (orders_silver silver_ok) as [| r rest] eqn:E;
    [vm_compute in E; discriminate E |].
  exists r. assert (Hr : In r (r :: rest)) by (left; reflexivity).
  split; [exact H |]. split; [exact Hr |].
  assert (C := calendar_features_ranges fact_ok (r :: rest) r H Hr).
  destruct (col_purchase (fact r)) as [t |] eqn:Et.
  - destruct C as [m [d [w [h [q [_ [_ [Hw [_ [_ [_ [_ [Rw _]]]]]]]]]]]]].
    exists t, w. auto.
  - exfalso. vm_compute in E. inversion E as [[Er Erest]].
    rewrite <- Er in Et. discriminate Et.
Defined.

(** [delivery_days] is the floor of the difference in days and is not
    clamped: it is negative exactly when the delivery timestamp precedes the
    purchase, 0 for a delivery within the first 24 hours, and missing exactly
    when one of the two timestamps is. *)
Theorem delivery_days_not_clamped (df : list FactRow) (s : list SilverRow)
    (r : SilverRow) :
  add_features df = OK s -> In r s ->
  (forall dl p, col_delivered (fact r) = Some dl ->
     col_purchase (fact r) = Some p ->
     exists d, delivery_days r = Some d
       /\ d * ns_per_day <= dl - p < (d + 1) * ns_per_day
       /\ (d < 0 <-> dl < p)
       /\ (d = 0 <-> p <= dl < p + ns_per_day))
  /\ (delivery_days r = None <->
        col_delivered (fact r) = None \/ col_purchase (fact r) = None).
Proof.
  intros H Hr.
  destruct (add_features_row _ _ _ H Hr)
    as [_ [_ [_ [_ [_ [_ [_ [_ [Hd _]]]]]]]]].
  cbv zeta in Hd. rewrite Hd. split.
  - intros dl p -> ->. simpl. eexists. split; [reflexivity |].
    unfold timedelta_days, ns_per_day, ns_per_hour. lia.
  - destruct (col_delivered (fact r)), (col_purchase (fact r)); simpl;
      split; try discriminate; auto; intros [E | E]; discriminate E.
Qed.

(** [bronze_ok] where order [o1] is recorded as delivered two days before it
    was bought. *)
Definition bronze_early_delivery : Bronze :=
  {| orders :=
       {| order_id := Some "o1"%string; customer_id := Some "k1"%string;
          order_status := Some "delivered"%string;
          order_purchase_timestamp := at_day 0 10;
          order_delivered_customer_date := at_day (-2) 18 |}
       :: tl (orders bronze_ok);
     customers := customers bronze_ok;
     order_items := order_items bronze_ok;
     payments := payments bronze_ok;
     reviews := reviews bronze_ok |}.

Definition silver_early_delivery : Silver :=
  match run bronze_early_delivery with
  | OK s => s
  | Raise _ => empty_silver
  end.

Definition fact_early_delivery : list FactRow :=
  match build_order_level bronze_early_delivery with
  | OK df => df
  | Raise _ => []
  end.

Example early_delivery_is_negative :
  run bronze_early_delivery = OK silver_early_delivery
  /\ map (fun r => (s_order_id r, delivery_days r))
         (firstn 2 (orders_silver silver_early_delivery))
     = [(Some "o1", Some (-2)); (Some "o2", Some 3)]%string.
Proof. split; vm_compute; reflexivity. Qed.

Lemma delivery_days_not_clamped_witness :
  exists r d,
    add_features fact_early_delivery
    = OK (orders_silver silver_early_delivery)
    /\ In r (orders_silver silver_early_delivery)
    /\ s_order_id r = Some "o1"%string
    /\ delivery_days r = Some d /\ d < 0.
Proof.
  assert (H : add_features fact_early_delivery
              = OK (orders_silver silver_early_delivery))
    by (vm_compute; reflexivity).
  destruct (orders_silver silver_early_delivery) as [| r rest] eqn:E;
    [vm_compute in E; discriminate E |].
  assert (Hr : In r (r :: rest)) by (left; reflexivity).
  assert (Hfields : s_order_id r = Some "o1"%string
                    /\ col_delivered (fact r) = at_day (-2) 18
                    /\ col_purchase (fact r) = at_day 0 10).
  { vm_compute in E. inversion E as [[Er Erest]]. repeat split. }
  destruct Hfields as [Hid [Hdl Hp]].
  destruct (delivery_days_not_clamped fact_early_delivery (r :: rest) r H Hr)
    as [Hsome _].
  destruct (Hsome _ _ Hdl Hp) as [d [Hd [_ [Hneg _]]]].
  exists r, d. split; [exact H |]. split; [exact Hr |].
  split; [exact Hid |]. split; [exact Hd |].
  apply Hneg. unfold ns_per_day, ns_per_hour, day0. lia.
Defined.

Lemma searchsorted_review_bins (v : Q) :
  searchsorted_left [0; 2; 3; 4; 5]%Q v
  = ((if Qle_bool v 0 then 0 else 1) + (if Qle_bool v 2 then 0 else 1)
     + (if Qle_bool v 3 then 0 else 1) + (if Qle_bool v 4 then 0 else 1)
     + (if Qle_bool v 5 then 0 else 1))%nat.
Proof.
  unfold searchsorted_left. cbn [filter].
  destruct (Qle_bool v 0), (Qle_bool v 2), (Qle_bool v 3), (Qle_bool v 4),
    (Qle_bool v 5); reflexivity.
Qed.

Lemma review_bin (v : Q) :
  let cat := bins_to_cuts false [0; 2; 3; 4; 5]%Q review_labels (Some v) in
  ((v <= 0)%Q -> cat = None)
  /\ ((0 < v)%Q -> (v <= 2)%Q -> cat = Some "Poor"%string)
  /\ ((2 < v)%Q -> (v <= 3)%Q -> cat = Some "Fair"%string)
  /\ ((3 < v)%Q -> (v <= 4)%Q -> cat = Some "Good"%string)
  /\ ((4 < v)%Q -> (v <= 5)%Q -> cat = Some "Excellent"%string)
  /\ ((5 < v)%Q -> cat = None).
Proof.
  unfold bins_to_cuts, bin_index. cbn [andb]. rewrite searchsorted_review_bins.
  destruct (Qle_bool v 0) eqn:E0, (Qle_bool v 2) eqn:E2, (Qle_bool v 3) eqn:E3,
    (Qle_bool v 4) eqn:E4, (Qle_bool v 5) eqn:E5;
    repeat match goal with
           | H : Qle_bool _ _ = true |- _ => apply Qle_bool_iff in H
           | H : Qle_bool _ _ = false |- _ =>
               apply not_true_iff_false in H; rewrite Qle_bool_iff in H
           end;
    cbn; repeat split; intros; try reflexivity; exfalso; lra.
Qed.

(** The review category has right-closed bins with fixed edges: a score in
    (0, 2] is Poor, in (2, 3] Fair, in (3, 4] Good, in (4, 5] Excellent.  A
    score of 0 or less, a score above 5 and a missing score get no
    category. *)
Theorem review_category_bins (df : list FactRow) (s : list SilverRow)
    (r : SilverRow) :
  add_features df = OK s -> In r s ->
  (col_review_score (fact r) = None -> review_category r = None)
  /\ (forall v, col_review_score (fact r) = Some v ->
        ((v <= 0)%Q -> review_category r = None)
        /\ ((0 < v)%Q -> (v <= 2)%Q -> review_category r = Some "Poor"%string)
        /\ ((2 < v)%Q -> (v <= 3)%Q -> review_category r = Some "Fair"%string)
        /\ ((3 < v)%Q -> (v <= 4)%Q -> review_category r = Some "Good"%string)
        /\ ((4 < v)%Q -> (v <= 5)%Q ->
            review_category r = Some "Excellent"%string)
        /\ ((5 < v)%Q -> review_category r = None)).
Proof.
  intros H Hr.
  destruct (add_features_row _ _ _ H Hr)
    as [_ [_ [_ [_ [_ [_ [_ [_ [_ [_ [_ Hrev]]]]]]]]]]].
  rewrite Hrev. split.
  - intros ->. reflexivity.
  - intros v ->. apply review_bin.
Qed.

(** Order [o3] has the review score 3, the upper edge of Fair. *)
Lemma review_category_bins_witness :
  exists r v,
    add_features fact_ok = OK (orders_silver silver_ok)
    /\ In r (orders_silver silver_ok)
    /\ s_order_id r = Some "o3"%string
    /\ col_review_score (fact r) = Some v /\ (v == 3)%Q
    /\ review_category r = Some "Fair"%string.
Proof.
  assert (H : add_features fact_ok = OK (orders_silver silver_ok))
    by (vm_compute; reflexivity).
  assert (Hrow : exists r, In r (orders_silver silver_ok)
                   /\ s_order_id r = Some "o3"%string
                   /\ col_review_score (fact r) = Some (6 # 2)).
  { eexists. split; [vm_compute; do 2 right; left; reflexivity |].
    split; reflexivity. }
  destruct Hrow as [r [Hr [Hid Hv]]]. exists r, (6 # 2).
  split; [exact H |]. split; [exact Hr |]. split; [exact Hid |].
  split; [exact Hv |]. split; [reflexivity |].
  destruct (review_category_bins fact_ok (orders_silver silver_ok) r H Hr)
    as [_ Hbins].
  destruct (Hbins _ Hv) as [_ [_ [Hfair _]]].
  apply Hfair; unfold Qlt, Qle; simpl; lia.
Defined.

(* ------------------------------------------------------------------ *)
(** ** Quartiles of the order value and quintiles of the spend *)

(** The quartile of an order value: 1 for the lowest quarter. *)
Definition order_value_quartile (df : list FactRow) (v : Q) : nat :=
  bin_index true (order_value_edges df) v.

Lemma add_features_edges (df : list FactRow) (s : list SilverRow) :
  add_features df = OK s ->
  dropna (map order_value_of df) <> []
  /\ all_distinct (order_value_edges df) = true.
Proof.
  unfold add_features. intros H.
  apply bind_OK in H. destruct H as [cats [Hq _]].
  apply qcut_OK in Hq. destruct Hq as [_ [Hne Hd]].
  split; [exact Hne |].
  destruct Hd as [Hd | Hl]; [exact Hd |].
  unfold quantile_edges in Hl. rewrite length_map, length_seq in Hl.
  discriminate Hl.
Qed.

Lemma order_value_In (df : list FactRow) (s : list SilverRow)
    (r : SilverRow) (v : Q) :
  add_features df = OK s -> In r s -> order_value r = Some v ->
  In v (dropna (map order_value_of df)).
Proof.
  intros H Hr Hv.
  destruct (add_features_row _ _ _ H Hr)
    as [Hf [_ [_ [_ [_ [_ [_ [_ [_ [Hov _]]]]]]]]]].
  apply in_dropna. rewrite <- Hv, Hov. apply in_map. exact Hf.
Qed.

Lemma order_value_of_some_row (df : list FactRow) (s : list SilverRow) (w : Q) :
  add_features df = OK s -> In w (dropna (map order_value_of df)) ->
  exists r, In r s /\ order_value r = Some w.
Proof.
  intros H Hw. apply in_dropna, in_map_iff in Hw. destruct Hw as [f [Hfw Hf]].
  rewrite <- (add_features_map_fact _ _ H) in Hf. apply in_map_iff in Hf.
  destruct Hf as [r [Hrf Hr]]. exists r. split; [exact Hr |].
  destruct (add_features_row _ _ _ H Hr)
    as [_ [_ [_ [_ [_ [_ [_ [_ [_ [Hov _]]]]]]]]]].
  rewrite Hov, Hrf. exact Hfw.
Qed.

Lemma order_value_label_of_quartile (i : nat) :
  (1 <= i <= 4)%nat ->
  nth_error order_value_labels (i - 1)
  = Some (nth (i - 1) order_value_labels ""%string)
  /\ (i = 1%nat -> nth (i - 1) order_value_labels ""%string = "Low"%string)
  /\ (i = 4%nat -> nth (i - 1) order_value_labels ""%string = "Premium"%string).
Proof.
  intros H.
  assert (C : i = 1%nat \/ i = 2%nat \/ i = 3%nat \/ i = 4%nat) by lia.
  destruct C as [-> | [-> | [-> | ->]]]; repeat split; intros; try reflexivity;
    discriminate.
Qed.

(** The order value category is the label of the quartile of the order value
    among all order values of the table: every row with an order value gets
    one of the four labels, a higher order value never falls in a lower
    quartile, the lowest order values are Low and the highest are Premium.  A
    row without an order value gets no category. *)
Theorem order_value_category_quartiles (df : list FactRow)
    (s : list SilverRow) :
  add_features df = OK s ->
  (forall r, In r s -> order_value r = None -> order_value_category r = None)
  /\ (forall r v, In r s -> order_value r = Some v ->
        (1 <= order_value_quartile df v <= 4)%nat
        /\ order_value_category r
           = Some (nth (order_value_quartile df v - 1) order_value_labels
                       ""%string))
  /\ (forall r1 r2 v1 v2, In r1 s -> In r2 s ->
        order_value r1 = Some v1 -> order_value r2 = Some v2 ->
        (v1 <= v2)%Q ->
        (order_value_quartile df v1 <= order_value_quartile df v2)%nat)
  /\ (forall r v, In r s -> order_value r = Some v ->
        (forall r' v', In r' s -> order_value r' = Some v' -> (v <= v')%Q) ->
        order_value_category r = Some "Low"%string)
  /\ (forall r v, In r s -> order_value r = Some v ->
        (forall r' v', In r' s -> order_value r' = Some v' -> (v' <= v)%Q) ->
        order_value_category r = Some "Premium"%string).
Proof.
  intros H. destruct (add_features_edges _ _ H) as [Hne Hd].
  assert (Hcat : forall r v, In r s -> order_value r = Some v ->
            (1 <= order_value_quartile df v <= 4)%nat
            /\ order_value_category r
               = nth_error order_value_labels (order_value_quartile df v - 1)).
  { intros r v Hr Hv. assert (Hin := order_value_In _ _ _ _ H Hr Hv).
    split.
    - apply (bin_index_range _ 4 (Nat.lt_0_succ 3) Hd v Hin).
    - destruct (add_features_row _ _ _ H Hr)
        as [_ [_ [_ [_ [_ [_ [_ [_ [_ [Hov [Hc _]]]]]]]]]]].
      rewrite Hc, <- Hov, Hv.
      apply (bins_to_cuts_value _ 4 (Nat.lt_0_succ 3) Hd order_value_labels
               v Hin). }
  split; [| split; [| split; [| split]]].
  - intros r Hr Hv.
    destruct (add_features_row _ _ _ H Hr)
      as [_ [_ [_ [_ [_ [_ [_ [_ [_ [Hov [Hc _]]]]]]]]]]].
    rewrite Hc, <- Hov, Hv. reflexivity.
  - intros r v Hr Hv. destruct (Hcat r v Hr Hv) as [Rg Hc].
    split; [exact Rg |]. rewrite Hc.
    apply (order_value_label_of_quartile _ Rg).
  - intros r1 r2 v1 v2 Hr1 Hr2 Hv1 Hv2 Hle.
    apply (bin_index_mono _ 4 (Nat.lt_0_succ 3) Hd v1 v2).
    + exact (order_value_In _ _ _ _ H Hr1 Hv1).
    + exact (order_value_In _ _ _ _ H Hr2 Hv2).
    + exact Hle.
  - intros r v Hr Hv Hmin. destruct (Hcat r v Hr Hv) as [_ Hc]. rewrite Hc.
    unfold order_value_quartile, order_value_edges.
    rewrite (bin_index_lowest _ 4 Hne (Nat.lt_0_succ 3) v
               (order_value_In _ _ _ _ H Hr Hv)); [reflexivity |].
    intros w Hw. destruct (order_value_of_some_row _ _ w H Hw) as [r' [Hr' Hv']].
    exact (Hmin r' w Hr' Hv').
  - intros r v Hr Hv Hmax. destruct (Hcat r v Hr Hv) as [_ Hc]. rewrite Hc.
    unfold order_value_quartile, order_value_edges.
    rewrite (bin_index_highest _ 4 Hne (Nat.lt_0_succ 3) Hd v
               (order_value_In _ _ _ _ H Hr Hv)); [reflexivity |].
    intros w Hw. destruct (order_value_of_some_row _ _ w H Hw) as [r' [Hr' Hv']].
    exact (Hmax r' w Hr' Hv').
Qed.

Example order_value_categories_of_bronze_ok :
  map (fun r => (s_order_id r, order_value_category r))
      (orders_silver silver_ok)
  = [ (Some "o1", Some "Low"); (Some "o2", Some "Medium");
      (Some "o3", Some "High"); (Some "o4", Some "Premium");
      (Some "o5", Some "Premium"); (Some "o6", Some "Low") ]%string.
Proof. vm_compute. reflexivity. Qed.

Lemma order_value_category_quartiles_witness :
  add_features fact_ok = OK (orders_silver silver_ok)
  /\ forall r v, In r (orders_silver silver_ok) -> order_value r = Some v ->
       (forall r' v', In r' (orders_silver silver_ok) ->
                      order_value r' = Some v' -> (v' <= v)%Q) ->
       order_value_category r = Some "Premium"%string.
Proof.
  assert (H : add_features fact_ok = OK (orders_silver silver_ok))
    by (vm_compute; reflexivity).
  split; [exact H |].
  destruct (order_value_category_quartiles fact_ok (orders_silver silver_ok) H)
    as [_ [_ [_ [_ Hmax]]]].
  exact Hmax.
Defined.

Definition monetary_values (df : list SilverRow) : list Q :=
  map agg_monetary (rfm_agg df).

Definition monetary_edges (df : list SilverRow) : list Q :=
  quantile_edges (monetary_values df) 5.

(** The quintile of a total spend: 1 for the lowest fifth. *)
Definition monetary_quintile (df : list SilverRow) (v : Q) : nat :=
  bin_index true (monetary_edges df) v.

Lemma build_rfm_monetary_column (df : list SilverRow) (rfm : list RFM) :
  build_rfm df = OK rfm -> map monetary rfm = monetary_values df.
Proof.
  unfold build_rfm, monetary_values. intros H.
  apply bind_OK in H. destruct H as [rs [Hrs H]].
  apply bind_OK in H. destruct H as [fs [Hfs H]].
  apply bind_OK in H. destruct H as [ms [Hms H]].
  transitivity (map (fun x => agg_monetary (fst x))
                  (combine (rfm_agg df) (combine rs (combine fs ms)))).
  - eapply mapM_OK_map; [| exact H].
    intros [a [r [f m]]] row Hs. unfold score_row in Hs.
    apply bind_OK in Hs. destruct Hs as [ri [_ Hs]].
    apply bind_OK in Hs. destruct Hs as [fi [_ Hs]].
    apply bind_OK in Hs. destruct Hs as [mi [_ Hs]].
    inversion Hs; subst; reflexivity.
  - rewrite <- (map_map fst agg_monetary). f_equal.
    apply map_fst_combine.
    apply qcut_length in Hrs, Hfs, Hms.
    repeat rewrite length_map in Hrs. repeat rewrite length_map in Hms.
    repeat rewrite length_map in Hfs. rewrite rank_first_length in Hfs.
    rewrite length_map in Hfs.
    rewrite !length_combine. lia.
Qed.

Lemma M_column_edges (df : list SilverRow) (ms : list (option Z)) :
  M_column (map agg_monetary (rfm_agg df)) = OK ms ->
  ms = map (fun a => bins_to_cuts true (monetary_edges df) M_labels
                       (Some (agg_monetary a))) (rfm_agg df)
  /\ monetary_values df <> []
  /\ all_distinct (monetary_edges df) = true.
Proof.
  unfold M_column. intros H. apply qcut_OK in H.
  rewrite (dropna_map_Some (fun q : Q => q)) in H. rewrite map_id in H.
  fold (monetary_values df) in H. fold (monetary_edges df) in H.
  destruct H as [-> [Hne Hd]]. unfold monetary_values. rewrite !map_map.
  split; [reflexivity |]. split; [exact Hne |].
  destruct Hd as [Hd | Hl]; [exact Hd |].
  unfold monetary_edges, quantile_edges in Hl.
  rewrite length_map, length_seq in Hl. discriminate Hl.
Qed.

Lemma build_rfm_M (df : list SilverRow) (rfm : list RFM) (row : RFM) :
  build_rfm df = OK rfm -> In row rfm ->
  monetary_values df <> []
  /\ all_distinct (monetary_edges df) = true
  /\ In (monetary row) (monetary_values df)
  /\ M row = Z.of_nat (monetary_quintile df (monetary row)).
Proof.
  intros H Hrow.
  destruct (build_rfm_row _ _ _ H Hrow)
    as [a [rs [fs [ms [_ [_ [Hms [Hin [_ [_ [_ [Hmon _]]]]]]]]]]]].
  apply M_column_edges in Hms. destruct Hms as [-> [Hne Hd]].
  split; [exact Hne |]. split; [exact Hd |].
  apply in_combine_nested_r in Hin. apply in_combine_nested_r in Hin.
  assert (Ha : In a (rfm_agg df)) by (apply in_combine_l in Hin; exact Hin).
  apply in_combine_map in Hin.
  assert (Hv : In (monetary row) (monetary_values df)).
  { rewrite Hmon. unfold monetary_values. apply in_map. exact Ha. }
  split; [exact Hv |].
  rewrite <- Hmon in Hin. unfold monetary_edges in Hin.
  rewrite (bins_to_cuts_value (monetary_values df) 5 (Nat.lt_0_succ 4) Hd
             M_labels (monetary row) Hv) in Hin.
  assert (Rg := bin_index_range (monetary_values df) 5 (Nat.lt_0_succ 4) Hd
                  (monetary row) Hv).
  change M_labels with F_labels in Hin.
  rewrite (F_label_of_quintile _ Rg) in Hin.
  assert (HS : forall x y : Z, Some x = Some y -> x = y)
    by (intros x y E; congruence).
  exact (HS _ _ Hin).
Qed.

(** The M score is the quintile of the total spend of the customer among all
    customers, not inverted: a customer who spent more never gets a lower M,
    the customers with the lowest spend get 1 and those with the highest
    get 5. *)
Theorem M_score_follows_spend (df : list SilverRow) (rfm : list RFM) :
  build_rfm df = OK rfm ->
  (forall row, In row rfm ->
     M row = Z.of_nat (monetary_quintile df (monetary row)))
  /\ (forall r1 r2, In r1 rfm -> In r2 rfm ->
        (monetary r1 <= monetary r2)%Q -> M r1 <= M r2)
  /\ (forall r, In r rfm ->
        (forall r', In r' rfm -> (monetary r <= monetary r')%Q) -> M r = 1)
  /\ (forall r, In r rfm ->
        (forall r', In r' rfm -> (monetary r' <= monetary r)%Q) -> M r = 5).
Proof.
  intros H.
  assert (Hvals : forall w, In w (monetary_values df) ->
            exists r', In r' rfm /\ monetary r' = w).
  { intros w Hw. rewrite <- (build_rfm_monetary_column _ _ H) in Hw.
    apply in_map_iff in Hw. destruct Hw as [r' [Hm Hr']]. exists r'. auto. }
  split; [| split; [| split]].
  - intros row Hrow. apply (build_rfm_M _ _ _ H Hrow).
  - intros r1 r2 Hr1 Hr2 Hle.
    destruct (build_rfm_M _ _ _ H Hr1) as [_ [Hd [Hv1 HM1]]].
    destruct (build_rfm_M _ _ _ H Hr2) as [_ [_ [Hv2 HM2]]].
    rewrite HM1, HM2. apply inj_le.
    exact (bin_index_mono _ 5 (Nat.lt_0_succ 4) Hd _ _ Hv1 Hv2 Hle).
  - intros r Hr Hmin.
    destruct (build_rfm_M _ _ _ H Hr) as [Hne [_ [Hv HM]]].
    rewrite HM. unfold monetary_quintile, monetary_edges.
    rewrite (bin_index_lowest _ 5 Hne (Nat.lt_0_succ 4) _ Hv); [reflexivity |].
    intros w Hw. destruct (Hvals w Hw) as [r' [Hr' <-]]. exact (Hmin r' Hr').
  - intros r Hr Hmax.
    destruct (build_rfm_M _ _ _ H Hr) as [Hne [Hd [Hv HM]]].
    rewrite HM. unfold monetary_quintile, monetary_edges.
    rewrite (bin_index_highest _ 5 Hne (Nat.lt_0_succ 4) Hd _ Hv);
      [reflexivity |].
    intros w Hw. destruct (Hvals w Hw) as [r' [Hr' <-]]. exact (Hmax r' Hr').
Qed.

Lemma M_score_follows_spend_witness :
  build_rfm (orders_silver silver_ok) = OK (rfm_table silver_ok)
  /\ forall r1 r2, In r1 (rfm_table silver_ok) -> In r2 (rfm_table silver_ok) ->
       (monetary r1 <= monetary r2)%Q -> M r1 <= M r2.
Proof.
  assert (H : build_rfm (orders_silver silver_ok) = OK (rfm_table silver_ok))
    by (vm_compute; reflexivity).
  split; [exact H |].
  destruct (M_score_follows_spend _ _ H) as [_ [Hmono _]]. exact Hmono.
Defined.
